(** * Retrieval, ranking and fallback core of the Community Corrections RAG server

    A shallow embedding of the TypeScript services

      - [server/services/demoVectorService.ts]  (DemoVectorService)
      - [server/services/vectorService.ts]      (VectorService)
      - [server/services/demoProcessor.ts]      (DemoProcessor)
      - [server/services/enhancedRagService.ts] (EnhancedRAGService)
      - [server/services/ragService.ts]         (RAGService)

    and the properties of the specification that concern them.

    Modelling conventions.
      - A JavaScript [number] is an IEEE 754 binary64 value: Rocq's primitive
        [float], whose operations are the correctly rounded ones that the
        JavaScript engine performs.  [NaN] is the single value [nan].
      - A JavaScript string is a [string]: a list of code units below 256.
      - Arrays are lists.  [Array.prototype.sort] is stable (ECMAScript 2019);
        it is modelled by a stable insertion sort driven by the comparator of
        the call site.  For the consistent comparators of this code base every
        stable sort returns the same array.
      - [async] functions that reach the network or the database are
        computations in the monad [M]: they read the outcome of each external
        call from an environment, record the call in a trace, and either
        return a value or throw an [Error] with its message.
      - The rounding analysis of the embedding reads a finite binary64 value
        as the real number it stands for ([Rounding.realValue]), over the
        real numbers of the Standard Library.
      - [console.log], [console.warn] and [console.error] are not modelled. *)

From Stdlib Require Import Floats ZArith List String Ascii Bool Lia Arith.
From Stdlib Require Import Sorted Permutation DecimalString RelationClasses.
From Stdlib Require Reals.
From Stdlib Require Import Lra Psatz.
Import ListNotations.

Set Warnings "-inexact-float,-register-all".

Local Open Scope string_scope.
Local Open Scope list_scope.

(* ================================================================== *)
(** * The JavaScript runtime functions used by the services            *)
(* ================================================================== *)

Module JS.

(** ** Strings *)

(** [String.prototype.toLowerCase] on code units below 256: the ASCII capitals
    and the Latin-1 capitals (U+00C0 to U+00DE, U+00D7 apart) move up by 32. *)
Definition lowerChar (c : ascii) : ascii :=
  let n := nat_of_ascii c in
  if (((65 <=? n) && (n <=? 90)) || ((192 <=? n) && (n <=? 222) && negb (n =? 215)))%nat
  then ascii_of_nat (n + 32) else c.

Fixpoint toLowerCase (s : string) : string :=
  match s with
  | EmptyString => EmptyString
  | String c s' => String (lowerChar c) (toLowerCase s')
  end.

Fixpoint startsWith (s p : string) : bool :=
  match p with
  | EmptyString => true
  | String a p' =>
      match s with
      | EmptyString => false
      | String b s' => Ascii.eqb a b && startsWith s' p'
      end
  end.

(** [s.includes(sub)]: [sub] occurs in [s] as a contiguous substring. *)
Fixpoint includes (s sub : string) : bool :=
  startsWith s sub ||
  match s with
  | EmptyString => false
  | String _ s' => includes s' sub
  end.

(** The code units that the regular expression class [\s] matches, below 256:
    tab, line feed, vertical tab, form feed, carriage return, space, no-break
    space. *)
Definition isSpace (c : ascii) : bool :=
  let n := nat_of_ascii c in
  (((9 <=? n) && (n <=? 13)) || (n =? 32) || (n =? 160))%nat.

(** [s.split(/\s+/)]: the pieces of [s] between maximal runs of white space.
    A leading or a trailing run leaves an empty piece, and the empty string
    splits into one empty piece. *)
Fixpoint split_ws (s : string) : list string :=
  match s with
  | EmptyString => [EmptyString]
  | String c s' =>
      let r := split_ws s' in
      if isSpace c then
        match s' with
        | String c' _ => if isSpace c' then r else EmptyString :: r
        | EmptyString => EmptyString :: r
        end
      else
        match r with
        | w :: ws => String c w :: ws
        | [] => [String c EmptyString]
        end
  end.

(** [s.substring(0, n)] *)
Definition substring0 (n : nat) (s : string) : string := String.substring 0 n s.

(** [arr.join(sep)] *)
Fixpoint join (sep : string) (l : list string) : string :=
  match l with
  | [] => EmptyString
  | [x] => x
  | x :: rest => x ++ sep ++ join sep rest
  end.

(** The decimal numeral that a template literal prints for a count. *)
Definition showNat (n : nat) : string := NilZero.string_of_uint (Nat.to_uint n).

(** The line feed of the template literals. *)
Definition nl : string := String (ascii_of_nat 10) EmptyString.

(** The double quote that some literals hold. *)
Definition dq : string := String (ascii_of_nat 34) EmptyString.

(** [s.trim()]: white space and line terminators are removed at both ends;
    below 256 they are the code units of [isSpace]. *)
Fixpoint trimStart (s : string) : string :=
  match s with
  | EmptyString => EmptyString
  | String c s' => if isSpace c then trimStart s' else s
  end.

Fixpoint trimEnd (s : string) : string :=
  match s with
  | EmptyString => EmptyString
  | String c s' =>
      match trimEnd s' with
      | EmptyString => if isSpace c then EmptyString else String c EmptyString
      | rest => String c rest
      end
  end.

Definition trim (s : string) : string := trimEnd (trimStart s).

(** ** Numbers *)

Local Open Scope float_scope.

(** The number of a non-negative integer (exact below 2^53). *)
Definition ofZ (z : Z) : float := PrimFloat.of_uint63 (Uint63.of_Z z).
Definition ofNat (n : nat) : float := ofZ (Z.of_nat n).

(** [Math.min(a, b)]: [NaN] if either is, and [-0] below [+0]. *)
Definition Math_min (a b : float) : float :=
  if is_nan a || is_nan b then nan
  else if a <? b then a
  else if b <? a then b
  else match classify a with NZero => a | _ => b end.

(** [a || b] on numbers: [b] when [a] is [0], [-0] or [NaN]. *)
Definition orNumber (a b : float) : float :=
  if (a =? 0) || is_nan a then b else a.

(** [b[i]] read as a number: an index past the end reads [undefined], which
    arithmetic converts to [NaN]. *)
Definition numAt (b : list float) (i : nat) : float :=
  match nth_error b i with
  | Some x => x
  | None => nan
  end.

(** [a.reduce((sum, val, i) => f(sum, val, i), init)] *)
Fixpoint reduce_from {A B : Type} (f : B -> A -> nat -> B) (i : nat) (l : list A) (acc : B) : B :=
  match l with
  | [] => acc
  | x :: l' => reduce_from f (S i) l' (f acc x i)
  end.

Definition reduce {A B : Type} (f : B -> A -> nat -> B) (l : list A) (init : B) : B :=
  reduce_from f 0 l init.

(** ** Arrays *)

(** [arr.map((x, index) => f(x, index))] *)
Fixpoint mapi_from {A B : Type} (f : A -> nat -> B) (i : nat) (l : list A) : list B :=
  match l with
  | [] => []
  | x :: l' => f x i :: mapi_from f (S i) l'
  end.

Definition mapi {A B : Type} (f : A -> nat -> B) (l : list A) : list B :=
  mapi_from f 0 l.

(** [arr.slice(0, n)] for a literal count [n] (3, 5 or 8 in the services):
    the first [n] elements, or all of them. *)
Definition slice0 {A : Type} (n : nat) (l : list A) : list A := firstn n l.

(** [ToIntegerOrInfinity(x)]: [NaN] becomes 0, an infinity stays, any other
    number is truncated toward zero. *)
Inductive IntegerOrInfinity : Type :=
| MinusInfinity
| Integer (z : Z)
| PlusInfinity.

Definition ToIntegerOrInfinity (x : float) : IntegerOrInfinity :=
  match Prim2SF x with
  | S754_nan => Integer 0
  | S754_zero _ => Integer 0
  | S754_infinity false => PlusInfinity
  | S754_infinity true => MinusInfinity
  | S754_finite s m e => Integer (cond_Zopp s (Z.shiftl (Z.pos m) e))
  end.

(** The index [final] of [arr.slice(0, end)] for an array of [len] elements:
    a negative [end] counts back from the end of the array. *)
Definition sliceEnd (end_ : float) (len : nat) : nat :=
  match ToIntegerOrInfinity end_ with
  | MinusInfinity => 0%nat
  | Integer relativeEnd =>
      if (relativeEnd <? 0)%Z then Z.to_nat (Z.max (Z.of_nat len + relativeEnd) 0)
      else Z.to_nat (Z.min relativeEnd (Z.of_nat len))
  | PlusInfinity => len
  end.

(** [arr.slice(0, end)] for a number [end] that the caller chooses. *)
Definition sliceTo {A : Type} (end_ : float) (l : list A) : list A :=
  firstn (sliceEnd end_ (List.length l)) l.

(** The count [n] is at most the number [x]: the exact comparison of an
    integer with a binary64 value ([false] for [NaN]). *)
Definition leNat (n : nat) (x : float) : bool :=
  match Prim2SF x with
  | S754_infinity false => true
  | S754_zero _ => (n =? 0)%nat
  | S754_finite false m e => (Z.of_nat n <=? Z.shiftl (Z.pos m) e)%Z
  | _ => false
  end.

(** [arr.sort(cmp)].  The sort is stable: an element moves behind a later
    one only when the comparator, called on the two, is positive.  A
    comparator result that is [NaN] counts as [0], as the language
    prescribes. *)
Fixpoint sort_insert {A : Type} (cmp : A -> A -> float) (x : A) (l : list A) : list A :=
  match l with
  | [] => [x]
  | y :: l' => if 0 <? cmp x y then y :: sort_insert cmp x l' else x :: l
  end.

Definition sort {A : Type} (cmp : A -> A -> float) (l : list A) : list A :=
  fold_right (sort_insert cmp) [] l.

(** [arr[i] += v] on an array that has the index. *)
Fixpoint addAt (i : nat) (v : float) (l : list float) : list float :=
  match l, i with
  | [], _ => []
  | x :: l', O => (x + v) :: l'
  | x :: l', S i' => x :: addAt i' v l'
  end.

(** ** 32-bit integers *)

Local Open Scope Z_scope.

(** [ToInt32]: reduction modulo 2^32 into the signed range. *)
Definition toInt32 (z : Z) : Z := (z + 2 ^ 31) mod 2 ^ 32 - 2 ^ 31.

(** [h << n] on a 32-bit integer. *)
Definition shl32 (h : Z) (n : Z) : Z := toInt32 (toInt32 h * 2 ^ n).

End JS.

(* ================================================================== *)
(** * shared/schema.ts                                                 *)
(* ================================================================== *)

(** The type of a document or of a chunk.  The annotation
    ['transcript' | 'policy'] is checked at compile time only: the column is
    text and the upload route stores what the request sends, so at run time
    a type is any string, and [===] compares strings. *)
Definition DocType : Type := string.

Definition transcript : DocType := "transcript".
Definition policy : DocType := "policy".

Definition DocType_eqb (a b : DocType) : bool := String.eqb a b.

(** The type as a template literal prints it. *)
Definition DocType_name (t : DocType) : string := t.

Record Metadata : Type := {
  documentId : Z;
  documentName : string;
  type : DocType;
  chunkIndex : Z
}.

Record VectorChunk : Type := {
  id : string;
  text : string;
  embedding : list float;
  metadata : Metadata
}.

(** [VectorChunk & { similarity: number }]: the object spread [{...chunk,
    similarity}]. *)
Record Scored : Type := {
  chunk : VectorChunk;
  similarity : float
}.

(** An entry of [RAGResponse.sources].  [similarity] is copied from the chunk
    object and is [undefined] ([None]) when that object carries none. *)
Record Source : Type := {
  src_documentName : string;
  src_chunkId : string;
  src_text : string;
  src_type : DocType;
  src_similarity : option float
}.

Record RAGResponse : Type := {
  answer : string;
  sources : list Source;
  reasoning : string
}.

(** The comparator [(a, b) => b.similarity - a.similarity] of every ranking
    call site. *)
Definition bySimilarityDesc (a b : Scored) : float :=
  (similarity b - similarity a)%float.

(** A row of the table [documents], with the columns that the server reads
    ([chunks] is written once, as an empty array, and never read).  The
    column [type] is free text. *)
Record Document : Type := {
  doc_id : Z;
  doc_name : string;
  doc_type : string;
  doc_content : string;
  doc_uploadedAt : Z;
  doc_processed : bool
}.

(** [InsertChatMessage] and a row of the table [chat_messages]. *)
Record InsertChatMessage : Type := {
  new_message : string;
  new_response : string;
  new_sources : list Source
}.

Record ChatMessage : Type := {
  chat_id : Z;
  chat_message : string;
  chat_response : string;
  chat_sources : list Source;
  chat_createdAt : Z
}.

(* ================================================================== *)
(** * server/storage.ts                                                *)
(* ================================================================== *)

Module DatabaseStorage.


(** A row of the table [vector_chunks]: the inserted values and the
    timestamp that the database adds. *)
Record Row : Type := {
  row_id : string;
  row_text : string;
  row_embedding : list float;
  row_documentId : Z;
  row_documentName : string;
  row_type : DocType;
  row_chunkIndex : Z;
  row_createdAt : Z
}.




(** [getVectorChunks(type)], on the rows of the table in the order in which
    the database returns them: the selection and the mapping to chunks. *)
Definition getVectorChunks (ty : option DocType) (table : list Row) : list VectorChunk :=
  let rows :=
    match ty with
    | Some ty => filter (fun row => DocType_eqb (row_type row) ty) table
    | None => table
    end in
  map (fun row =>
         {| id := row_id row;
            text := row_text row;
            embedding := row_embedding row;
            metadata := {| documentId := row_documentId row;
                           documentName := row_documentName row;
                           type := row_type row;
                           chunkIndex := row_chunkIndex row |} |})
      rows.

Definition getAllVectorChunks (table : list Row) : list VectorChunk :=
  getVectorChunks None table.

End DatabaseStorage.

(* ================================================================== *)
(** * server/services/demoVectorService.ts                             *)
(* ================================================================== *)

Module DemoVectorService.

Local Open Scope float_scope.

(** [simpleHash]: [hash = ((hash << 5) - hash) + char; hash = hash & hash]
    over the code units, then [Math.abs]. *)
Definition simpleHash (str : string) : Z :=
  Z.abs
    (fold_left
       (fun hash c => JS.toInt32 ((JS.shl32 hash 5 - hash) + Z.of_nat (nat_of_ascii c))%Z)
       (list_ascii_of_string str) 0%Z).

(** The eight context features: a marker word in the raw text raises one
    fixed dimension. *)
Definition boost (text : string) (w1 w2 : string) (dim : nat) (v : float)
    (embedding : list float) : list float :=
  if JS.includes text w1 || JS.includes text w2 then JS.addAt dim v embedding
  else embedding.

Definition generateSingleEmbedding (text : string) : list float :=
  let words := JS.split_ws (JS.toLowerCase text) in
  let embedding := repeat 0 384 in
  let embedding :=
    JS.reduce
      (fun emb word index =>
         let hash := Z.to_nat (simpleHash word mod 384) in
         JS.addAt hash (1 / JS.ofNat (index + 1)) emb)
      words embedding in
  let embedding := boost text "Nathan" "nathan" 100 2.0 embedding in
  let embedding := boost text "Robert" "robert" 101 2.0 embedding in
  let embedding := boost text "stress" "financial" 200 1.5 embedding in
  let embedding := boost text "work" "employment" 201 1.5 embedding in
  let embedding := boost text "sobriety" "meetings" 202 1.5 embedding in
  let embedding := boost text "policy" "procedure" 300 1.5 embedding in
  let embedding := boost text "grievance" "appeal" 301 1.5 embedding in
  let embedding := boost text "programming" "treatment" 302 1.5 embedding in
  let magnitude := sqrt (JS.reduce (fun sum val _ => sum + val * val) embedding 0) in
  map (fun val => if 0 <? magnitude then val / magnitude else 0) embedding.

Definition generateEmbeddings (texts : list string) : list (list float) :=
  map generateSingleEmbedding texts.

Definition generateQueryEmbedding (query : string) : list float :=
  generateSingleEmbedding query.

(** The loop [for (let i = 0; i < a.length; i++)] with its three
    accumulators. *)
Definition cosineSimilarity (a b : list float) : float :=
  if negb (List.length a =? List.length b)%nat then 0
  else
    let '(dotProduct, normA, normB) :=
      fold_left
        (fun '(dotProduct, normA, normB) i =>
           (dotProduct + JS.numAt a i * JS.numAt b i,
            normA + JS.numAt a i * JS.numAt a i,
            normB + JS.numAt b i * JS.numAt b i))
        (seq 0 (List.length a)) (0, 0, 0) in
    let magnitude := sqrt normA * sqrt normB in
    if 0 <? magnitude then dotProduct / magnitude else 0.

(** Defaults of the optional parameters. *)
Definition default_topK : float := 5.
Definition default_threshold : float := 0.01.

Definition findSimilarChunks (queryEmbedding : list float) (chunks : list VectorChunk)
    (topK : float) (threshold : float) : list Scored :=
  let similarities :=
    map (fun c => {| chunk := c;
                     similarity := cosineSimilarity queryEmbedding (embedding c) |})
        chunks in
  JS.sliceTo topK
    (JS.sort bySimilarityDesc
       (filter (fun item => threshold <=? similarity item) similarities)).

Definition findSimilarChunksByType (queryEmbedding : list float)
    (chunks : list VectorChunk) (ty : DocType) (topK : float) (threshold : float)
    : list Scored :=
  let filteredChunks := filter (fun c => DocType_eqb (type (metadata c)) ty) chunks in
  findSimilarChunks queryEmbedding filteredChunks topK threshold.

Definition multiHopRetrieval (query : string) (allChunks : list VectorChunk)
    : list Scored * list Scored :=
  let queryEmbedding := generateQueryEmbedding query in
  let transcriptChunks :=
    findSimilarChunksByType queryEmbedding allChunks transcript 5 0.01 in
  let policyChunks :=
    findSimilarChunksByType queryEmbedding allChunks policy 5 0.01 in
  (transcriptChunks, policyChunks).

End DemoVectorService.

(* ================================================================== *)
(** * server/services/demoProcessor.ts                                 *)
(* ================================================================== *)

Module DemoProcessor.

Local Open Scope float_scope.

(** The keyword score of one chunk in [findRelevantChunks], before the cap. *)
Definition score (query : string) (queryWords : list string) (c : VectorChunk) : float :=
  let chunkText := JS.toLowerCase (text c) in
  let score :=
    fold_left (fun score word => if JS.includes chunkText word then score + 0.3 else score)
              queryWords 0 in
  let score :=
    if JS.includes (JS.toLowerCase query) "work stress"
       || JS.includes (JS.toLowerCase query) "stress"
    then
      if JS.includes chunkText "stress" || JS.includes chunkText "work"
         || JS.includes chunkText "taxes" || JS.includes chunkText "money"
      then score + 0.4 else score
    else score in
  let score :=
    if JS.includes (JS.toLowerCase query) "nathan" then
      if JS.includes (JS.toLowerCase (documentName (metadata c))) "nathan"
      then score + 0.5 else score
    else score in
  let score :=
    if JS.includes (JS.toLowerCase query) "robert" then
      if JS.includes (JS.toLowerCase (documentName (metadata c))) "robert"
      then score + 0.5 else score
    else score in
  score.

Definition findRelevantChunks (query : string) (chunks : list VectorChunk) : list Scored :=
  let queryWords := JS.split_ws (JS.toLowerCase query) in
  let scoredChunks :=
    map (fun c => {| chunk := c;
                     similarity := JS.Math_min (score query queryWords c) 0.95 |})
        chunks in
  JS.slice0 5
    (JS.sort bySimilarityDesc
       (filter (fun c => 0.2 <? similarity c) scoredChunks)).

Local Open Scope string_scope.

(** The marker words of the stress answer, looked up in the text of a
    relevant chunk. *)
Definition stressRelated (c : Scored) : bool :=
  JS.includes (JS.toLowerCase (text (chunk c))) "stress"
  || JS.includes (JS.toLowerCase (text (chunk c))) "taxes"
  || JS.includes (JS.toLowerCase (text (chunk c))) "work".

(** The generic answer built from the first transcript chunk and the first
    policy chunk. *)
Definition genericAnswer (relevantChunks : list Scored) : string :=
  let transcriptChunks :=
    filter (fun c => DocType_eqb (type (metadata (chunk c))) transcript) relevantChunks in
  let policyChunks :=
    filter (fun c => DocType_eqb (type (metadata (chunk c))) policy) relevantChunks in
  let response := "Based on the available documents:" ++ JS.nl ++ JS.nl in
  let response :=
    match transcriptChunks with
    | first :: _ =>
        response ++ "From the client transcripts: "
        ++ JS.substring0 200 (text (chunk first)) ++ "..." ++ JS.nl ++ JS.nl
    | [] => response
    end in
  let response :=
    match policyChunks with
    | first :: _ =>
        response ++ "From the policy documents: "
        ++ JS.substring0 200 (text (chunk first)) ++ "..."
    | [] => response
    end in
  response.

Definition generateContextualAnswer (query : string) (relevantChunks : list Scored)
    : string :=
  if (List.length relevantChunks =? 0)%nat then
    "I couldn't find relevant information in the processed documents to answer your question."
  else
    let afterStress :=
      if JS.includes (JS.toLowerCase query) "program"
         && JS.includes (JS.toLowerCase query) "robert"
      then
        "Based on Robert's transcript and available policy documents, Robert appears to be managing well with his sobriety and has completed impact panels. Given his stable employment with his fencing company and good progress, he might benefit from programs focused on maintaining progress and community integration rather than intensive intervention programs."
      else if JS.includes (JS.toLowerCase query) "grievance"
              || JS.includes (JS.toLowerCase query) "policy"
      then
        "According to the grievance policy, participants must submit grievance reports within 24 hours of an incident. The process includes separate interviews within 72 hours, documentation requirements, and an appeal process. The Assistant Director reviews grievances and determines if they warrant hearings."
      else genericAnswer relevantChunks in
    if JS.includes (JS.toLowerCase query) "work stress"
       || JS.includes (JS.toLowerCase query) "stress"
    then
      let stressRelatedChunks := filter stressRelated relevantChunks in
      if (0 <? List.length stressRelatedChunks)%nat then
        "Based on the transcripts, Nathan mentioned stress related to financial pressures, particularly property taxes. He discussed having $2,000 in house taxes to pay, which was causing financial strain and affecting his ability to make other payments. He mentioned trying to manage different payments and described this as stressful, noting "
        ++ JS.dq
        ++ "there's nothing wrong with being stressed that's part of life right it's more of how you handle your stress."
        ++ JS.dq
      else afterStress
    else afterStress.

(** [generateDemoResponse]: the keyword search, the contextual answer and the
    sources of the relevant chunks. *)
Definition generateDemoResponse (query : string) (chunks : list VectorChunk)
    : RAGResponse :=
  let relevantChunks := findRelevantChunks query chunks in
  let answer := generateContextualAnswer query relevantChunks in
  let sources :=
    map (fun c =>
           {| src_documentName := documentName (metadata (chunk c));
              src_chunkId := id (chunk c);
              src_text :=
                JS.substring0 200 (text (chunk c))
                ++ (if (200 <? String.length (text (chunk c)))%nat then "..." else "");
              src_type := type (metadata (chunk c));
              src_similarity := Some (JS.orNumber (similarity c) 0.8) |})
        relevantChunks in
  {| answer := answer;
     sources := sources;
     reasoning :=
       "Analyzed " ++ JS.showNat (List.length chunks)
       ++ " document chunks and found " ++ JS.showNat (List.length relevantChunks)
       ++ " relevant passages based on keyword matching and content analysis." |}.

End DemoProcessor.

(* ================================================================== *)
(** * External calls: outcomes, environment and trace                  *)
(* ================================================================== *)

(** The outcome of awaiting a promise: a value, or a thrown [Error] with its
    [message]. *)
Inductive Outcome (A : Type) : Type :=
| Returned (a : A)
| Thrown (message : string).

Arguments Returned {A} a.
Arguments Thrown {A} message.

(** The backend functions that a request may enter. *)
Inductive Call : Type :=
| GetAllVectorChunks          (* storage.getAllVectorChunks() *)
| OpenAIEmbeddings            (* openai.embeddings.create *)
| HuggingFaceEmbeddings       (* FreeApiService.generateHuggingFaceEmbeddings *)
| OpenAIChat                  (* openai.chat.completions.create *)
| Generate (api : string).    (* an entry of the list [apis] of the enhanced service *)

Definition Call_eqb (a b : Call) : bool :=
  match a, b with
  | GetAllVectorChunks, GetAllVectorChunks => true
  | OpenAIEmbeddings, OpenAIEmbeddings => true
  | HuggingFaceEmbeddings, HuggingFaceEmbeddings => true
  | OpenAIChat, OpenAIChat => true
  | Generate x, Generate y => String.eqb x y
  | _, _ => false
  end.

(** What the outside world answers during one request.  The database may
    answer its successive reads differently; every other backend is asked at
    most once with given arguments. *)
Record Env : Type := {
  (** [storage.getAllVectorChunks()], by the number of earlier reads *)
  env_getAllVectorChunks : nat -> Outcome (list VectorChunk);
  (** [openai.embeddings.create] on one input: the embedding of the input *)
  env_openai_embedding : string -> Outcome (list float);
  (** [FreeApiService.generateHuggingFaceEmbeddings([query])[0]] *)
  env_huggingface_embedding : string -> Outcome (list float);
  (** [process.env.OPENAI_API_KEY] and [process.env.VITE_OPENAI_API_KEY] *)
  env_OPENAI_API_KEY : option string;
  env_VITE_OPENAI_API_KEY : option string;
  (** [openai.chat.completions.create] on the query and the context of the
      prompts: [completion.choices[0]?.message?.content] *)
  env_openai_chat : string -> string -> Outcome (option string);
  (** The text generation functions of [FreeApiService], on the query and the
      context *)
  env_generateGroqResponse : string -> string -> Outcome string;
  env_generateGeminiResponse : string -> string -> Outcome string;
  env_generateCohereResponse : string -> string -> Outcome string;
  env_generateTogetherResponse : string -> string -> Outcome string
}.

(** An [async] computation: from the calls made so far to an outcome and the
    calls made then. *)
Definition M (A : Type) : Type := list Call -> Outcome A * list Call.

Definition ret {A : Type} (a : A) : M A := fun t => (Returned a, t).

Definition throw {A : Type} (message : string) : M A := fun t => (Thrown message, t).

Definition bind {A B : Type} (m : M A) (k : A -> M B) : M B :=
  fun t =>
    match m t with
    | (Returned a, t') => k a t'
    | (Thrown e, t') => (Thrown e, t')
    end.

(** [try { m } catch (error) { h(error.message) }] *)
Definition try_catch {A : Type} (m : M A) (h : string -> M A) : M A :=
  fun t =>
    match m t with
    | (Returned a, t') => (Returned a, t')
    | (Thrown e, t') => h e t'
    end.

(** Entering a backend: the call is recorded, its outcome comes from the
    environment. *)
Definition call {A : Type} (c : Call) (outcome : Outcome A) : M A :=
  fun t => (outcome, t ++ [c]).

Definition count_calls (c : Call) (t : list Call) : nat :=
  List.length (filter (Call_eqb c) t).

Definition getAllVectorChunks (env : Env) : M (list VectorChunk) :=
  fun t =>
    (env_getAllVectorChunks env (count_calls GetAllVectorChunks t),
     t ++ [GetAllVectorChunks]).

Declare Scope monad_scope.
Delimit Scope monad_scope with monad.
Notation "x <- m ;; k" := (bind m (fun x => k))
  (at level 61, m at next level, right associativity) : monad_scope.
Notation "'try' m 'catch' e => h" := (try_catch m (fun e => h))
  (at level 61, m at level 200, e name, h at level 200) : monad_scope.

(** JavaScript truthiness of a string value that may be missing: [a || b]. *)
Definition orElse (a : option string) (b : option string) : option string :=
  match a with
  | Some (String _ _) => a
  | _ => b
  end.

(** [a.length > n ? a.substring(0, n) + "..." : a] *)
Definition excerpt (n : nat) (s : string) : string :=
  if (n <? String.length s)%nat then (JS.substring0 n s ++ "...")%string else s.

(** The numbered context block handed to the generation backends:
    [allRelevantChunks.map((chunk, index) => ...).join('\n\n')]. *)
Definition contextLine (c : Scored) (index : nat) : string :=
  ("[" ++ JS.showNat (index + 1) ++ "] Document: "
   ++ documentName (metadata (chunk c))
   ++ " (" ++ DocType_name (type (metadata (chunk c))) ++ ")"
   ++ JS.nl ++ text (chunk c))%string.

Definition contextOf (allRelevantChunks : list Scored) : string :=
  JS.join (JS.nl ++ JS.nl)%string (JS.mapi contextLine allRelevantChunks).

(** [[...transcriptChunks, ...policyChunks].sort((a, b) => b.similarity -
    a.similarity).slice(0, 8)]: the fusion step of both synthesizers. *)
Definition allRelevantChunks (transcriptChunks policyChunks : list Scored) : list Scored :=
  JS.slice0 8 (JS.sort bySimilarityDesc (transcriptChunks ++ policyChunks)).

(** [allChunks.some(chunk => chunk.embedding && chunk.embedding.length > 0)] *)
Definition hasEmbeddings (allChunks : list VectorChunk) : bool :=
  existsb (fun c => (0 <? List.length (embedding c))%nat) allChunks.

(** [chunks.map(chunk => ({ ...chunk, similarity: 0.85 }))] *)
Definition withPlaceholderSimilarity (chunks : list VectorChunk) : list Scored :=
  map (fun c => {| chunk := c; similarity := 0.85%float |}) chunks.

(* ================================================================== *)
(** * Values parsed from JSON                                          *)
(* ================================================================== *)

(** What [response.json()] resolves to and what the property reads of the
    services make of it: a JSON value, or [undefined]. *)
Inductive JSValue : Type :=
| VUndefined
| VNull
| VBool (b : bool)
| VNum (x : float)
| VStr (s : string)
| VArr (elements : list JSValue)
| VObj (properties : list (string * JSValue)).

Module Value.

(** [!!v] *)
Definition truthy (v : JSValue) : bool :=
  match v with
  | VUndefined | VNull => false
  | VBool b => b
  | VNum x => negb ((x =? 0)%float || is_nan x)
  | VStr EmptyString => false
  | VStr (String _ _) => true
  | VArr _ | VObj _ => true
  end.

(** [v === undefined || v === null]: where an optional chain [v?.p] stops. *)
Definition nullish (v : JSValue) : bool :=
  match v with
  | VUndefined | VNull => true
  | _ => false
  end.

(** [a || b] *)
Definition orElse (a b : JSValue) : JSValue := if truthy a then a else b.

(** The own property [name] of a parsed object. *)
Fixpoint lookup (name : string) (properties : list (string * JSValue)) : JSValue :=
  match properties with
  | [] => VUndefined
  | (k, v) :: rest => if String.eqb k name then v else lookup name rest
  end.

Definition typeError {A : Type} (what name : string) : Outcome A :=
  Thrown ("Cannot read properties of " ++ what ++ " (reading '" ++ name ++ "')")%string.

(** [v.name] for the names that the services read ([choices], [message],
    [content], [generations], [text], [output], [candidates], [parts],
    [articles], [metadata], [id], [record]): an own property of an object,
    a [TypeError] on [undefined] and [null], [undefined] on every other
    value, whose prototypes have none of these names. *)
Definition get (v : JSValue) (name : string) : Outcome JSValue :=
  match v with
  | VUndefined => typeError "undefined" name
  | VNull => typeError "null" name
  | VObj properties => Returned (lookup name properties)
  | _ => Returned VUndefined
  end.

(** [v[0]]: the first element of an array, the first code unit of a string,
    the own property ["0"] of an object. *)
Definition first (v : JSValue) : Outcome JSValue :=
  match v with
  | VUndefined => typeError "undefined" "0"
  | VNull => typeError "null" "0"
  | VArr (x :: _) => Returned x
  | VStr (String c _) => Returned (VStr (String c EmptyString))
  | VObj properties => Returned (lookup "0" properties)
  | _ => Returned VUndefined
  end.

(** [v.trim()] on a value that is neither [undefined] nor [null]: only a
    string has the method. *)
Definition callTrim (expression : string) (v : JSValue) : Outcome JSValue :=
  match v with
  | VStr s => Returned (VStr (JS.trim s))
  | _ => Thrown (expression ++ " is not a function")%string
  end.

End Value.

(* ================================================================== *)
(** * server/services/freeApiService.ts                                *)
(* ================================================================== *)

Module FreeApiService.

Local Open Scope string_scope.

(** The arguments of a call of [fetch]: the URL and, when an [init] object
    is given, its method, its headers and the value that [JSON.stringify]
    turns into the body. *)
Record Request : Type := {
  url : string;
  method : option string;
  headers : list (string * string);
  body : option JSValue
}.

(** What the services read of a response. *)
Record Response : Type := {
  ok : bool;
  statusText : string;
  json : Outcome JSValue       (* what [await response.json()] gives *)
}.

(** The environment variables and the network. *)
Record World : Type := {
  process_env : string -> option string;
  fetch : Request -> Outcome Response
}.

(** An [async] function of the service: from the requests sent so far to an
    outcome and the requests sent then. *)
Definition IO (A : Type) : Type := list Request -> Outcome A * list Request.

Definition io_ret {A : Type} (a : A) : IO A := fun t => (Returned a, t).

Definition io_throw {A : Type} (message : string) : IO A := fun t => (Thrown message, t).

Definition io_lift {A : Type} (outcome : Outcome A) : IO A := fun t => (outcome, t).

Definition io_bind {A B : Type} (m : IO A) (k : A -> IO B) : IO B :=
  fun t =>
    match m t with
    | (Returned a, t') => k a t'
    | (Thrown e, t') => (Thrown e, t')
    end.

Definition io_catch {A : Type} (m : IO A) (h : string -> IO A) : IO A :=
  fun t =>
    match m t with
    | (Returned a, t') => (Returned a, t')
    | (Thrown e, t') => h e t'
    end.

Declare Scope io_scope.
Delimit Scope io_scope with io.
Notation "x <- m ;; k" := (io_bind m (fun x => k))
  (at level 61, m at next level, right associativity) : io_scope.
Notation "'try' m 'catch' e => h" := (io_catch m (fun e => h))
  (at level 61, m at level 200, e name, h at level 200) : io_scope.

(** [await fetch(url, init)] *)
Definition send (w : World) (request : Request) : IO Response :=
  fun t => (fetch w request, (t ++ [request])%list).

(** [const apiKey = process.env.NAME; if (!apiKey) throw new Error(message)] *)
Definition withKey {A : Type} (w : World) (name message : string)
    (k : string -> IO A) : IO A :=
  match process_env w name with
  | Some (String a rest) => k (String a rest)
  | _ => io_throw message
  end.

(** [const response = await fetch(...); if (!response.ok) throw new
    Error(`... error: ${response.statusText}`); const data = await
    response.json()] *)
Definition fetchJson (w : World) (request : Request) (errorPrefix : string)
    : IO JSValue :=
  (response <- send w request ;;
   if negb (ok response) then io_throw (errorPrefix ++ statusText response)
   else io_lift (json response))%io.

Definition bearer (apiKey : string) : list (string * string) :=
  [("Authorization", "Bearer " ++ apiKey); ("Content-Type", "application/json")].

Definition noResponse : JSValue := VStr "No response generated".

Definition generateHuggingFaceEmbeddings (w : World) (texts : list string) : IO JSValue :=
  withKey w "HUGGINGFACE_API_KEY" "Hugging Face API key not configured" (fun apiKey =>
    (try
       fetchJson w
         {| url := "https://api-inference.huggingface.co/pipeline/feature-extraction/sentence-transformers/all-MiniLM-L6-v2";
            method := Some "POST";
            headers := bearer apiKey;
            body := Some (VObj [("inputs", VArr (map VStr texts));
                                ("options", VObj [("wait_for_model", VBool true)])]) |}
         "Hugging Face API error: "
     catch error => io_throw error)%io).

(** [data.generations[0]?.text?.trim()] *)
Definition cohereText (data : JSValue) : Outcome JSValue :=
  match Value.get data "generations" with
  | Thrown e => Thrown e
  | Returned generations =>
      match Value.first generations with
      | Thrown e => Thrown e
      | Returned generation =>
          if Value.nullish generation then Returned VUndefined
          else
            match Value.get generation "text" with
            | Thrown e => Thrown e
            | Returned text =>
                if Value.nullish text then Returned VUndefined
                else Value.callTrim "data.generations[0]?.text?.trim" text
            end
      end
  end.

Definition generateCohereResponse (w : World) (prompt context : string) : IO JSValue :=
  withKey w "COHERE_API_KEY" "Cohere API key not configured" (fun apiKey =>
    (try
       (data <-
          fetchJson w
            {| url := "https://api.cohere.ai/v1/generate";
               method := Some "POST";
               headers := bearer apiKey;
               body :=
                 Some (VObj [("model", VStr "command-light");
                             ("prompt",
                              VStr ("Context: " ++ context ++ JS.nl ++ JS.nl
                                    ++ "Question: " ++ prompt ++ JS.nl ++ JS.nl
                                    ++ "Answer:"));
                             ("max_tokens", VNum 500);
                             ("temperature", VNum 0.1);
                             ("stop_sequences", VArr [VStr (JS.nl ++ JS.nl)])]) |}
            "Cohere API error: " ;;
        text <- io_lift (cohereText data) ;;
        io_ret (Value.orElse text noResponse))
     catch error => io_throw error)%io).

(** [data.choices[0]?.message?.content] *)
Definition groqContent (data : JSValue) : Outcome JSValue :=
  match Value.get data "choices" with
  | Thrown e => Thrown e
  | Returned choices =>
      match Value.first choices with
      | Thrown e => Thrown e
      | Returned choice =>
          if Value.nullish choice then Returned VUndefined
          else
            match Value.get choice "message" with
            | Thrown e => Thrown e
            | Returned message =>
                if Value.nullish message then Returned VUndefined
                else Value.get message "content"
            end
      end
  end.

Definition generateGroqResponse (w : World) (prompt context : string) : IO JSValue :=
  withKey w "GROQ_API_KEY" "Groq API key not configured" (fun apiKey =>
    (try
       (data <-
          fetchJson w
            {| url := "https://api.groq.com/openai/v1/chat/completions";
               method := Some "POST";
               headers := bearer apiKey;
               body :=
                 Some (VObj [("model", VStr "llama3-8b-8192");
                             ("messages",
                              VArr [VObj [("role", VStr "system");
                                          ("content",
                                           VStr "You are an AI assistant specialized in Community Corrections data analysis. Answer questions based on the provided context.")];
                                    VObj [("role", VStr "user");
                                          ("content",
                                           VStr ("Context: " ++ context ++ JS.nl ++ JS.nl
                                                 ++ "Question: " ++ prompt))]]);
                             ("max_tokens", VNum 500);
                             ("temperature", VNum 0.1)]) |}
            "Groq API error: " ;;
        content <- io_lift (groqContent data) ;;
        io_ret (Value.orElse content noResponse))
     catch error => io_throw error)%io).

(** [data.output?.choices[0]?.text?.trim()] *)
Definition togetherText (data : JSValue) : Outcome JSValue :=
  match Value.get data "output" with
  | Thrown e => Thrown e
  | Returned output =>
      if Value.nullish output then Returned VUndefined
      else
        match Value.get output "choices" with
        | Thrown e => Thrown e
        | Returned choices =>
            match Value.first choices with
            | Thrown e => Thrown e
            | Returned choice =>
                if Value.nullish choice then Returned VUndefined
                else
                  match Value.get choice "text" with
                  | Thrown e => Thrown e
                  | Returned text =>
                      if Value.nullish text then Returned VUndefined
                      else Value.callTrim "data.output?.choices[0]?.text?.trim" text
                  end
            end
        end
  end.

Definition generateTogetherResponse (w : World) (prompt context : string) : IO JSValue :=
  withKey w "TOGETHER_API_KEY" "Together API key not configured" (fun apiKey =>
    (try
       (data <-
          fetchJson w
            {| url := "https://api.together.xyz/inference";
               method := Some "POST";
               headers := bearer apiKey;
               body :=
                 Some (VObj [("model", VStr "togethercomputer/llama-2-7b-chat");
                             ("prompt",
                              VStr ("Context: " ++ context ++ JS.nl ++ JS.nl
                                    ++ "Question: " ++ prompt ++ JS.nl ++ JS.nl
                                    ++ "Answer:"));
                             ("max_tokens", VNum 500);
                             ("temperature", VNum 0.1);
                             ("stop", VArr [VStr (JS.nl ++ JS.nl)])]) |}
            "Together API error: " ;;
        text <- io_lift (togetherText data) ;;
        io_ret (Value.orElse text noResponse))
     catch error => io_throw error)%io).

(** [data.candidates[0]?.content?.parts[0]?.text] *)
Definition geminiText (data : JSValue) : Outcome JSValue :=
  match Value.get data "candidates" with
  | Thrown e => Thrown e
  | Returned candidates =>
      match Value.first candidates with
      | Thrown e => Thrown e
      | Returned candidate =>
          if Value.nullish candidate then Returned VUndefined
          else
            match Value.get candidate "content" with
            | Thrown e => Thrown e
            | Returned content =>
                if Value.nullish content then Returned VUndefined
                else
                  match Value.get content "parts" with
                  | Thrown e => Thrown e
                  | Returned parts =>
                      match Value.first parts with
                      | Thrown e => Thrown e
                      | Returned part =>
                          if Value.nullish part then Returned VUndefined
                          else Value.get part "text"
                      end
                  end
            end
      end
  end.

Definition generateGeminiResponse (w : World) (prompt context : string) : IO JSValue :=
  withKey w "GOOGLE_API_KEY" "Google API key not configured" (fun apiKey =>
    (try
       (data <-
          fetchJson w
            {| url := "https://generativelanguage.googleapis.com/v1beta/models/gemini-pro:generateContent?key="
                      ++ apiKey;
               method := Some "POST";
               headers := [("Content-Type", "application/json")];
               body :=
                 Some (VObj [("contents",
                              VArr [VObj [("parts",
                                           VArr [VObj [("text",
                                                        VStr ("You are an AI assistant specialized in Community Corrections data analysis. "
                                                              ++ JS.nl ++ JS.nl
                                                              ++ "Context: " ++ context
                                                              ++ JS.nl ++ JS.nl
                                                              ++ "Question: " ++ prompt
                                                              ++ JS.nl ++ JS.nl
                                                              ++ "Please provide a detailed answer based on the context provided."))]])]]);
                             ("generationConfig",
                              VObj [("temperature", VNum 0.1);
                                    ("maxOutputTokens", VNum 500)])]) |}
            "Google Gemini API error: " ;;
        text <- io_lift (geminiText data) ;;
        io_ret (Value.orElse text noResponse))
     catch error => io_throw error)%io).

(** [{ label: 'NEUTRAL', score: 0.5 }] *)
Definition neutral : JSValue := VObj [("label", VStr "NEUTRAL"); ("score", VNum 0.5)].

Definition analyzeSentiment (w : World) (text : string) : IO JSValue :=
  withKey w "HUGGINGFACE_API_KEY" "Hugging Face API key not configured" (fun apiKey =>
    (try
       (data <-
          fetchJson w
            {| url := "https://api-inference.huggingface.co/models/cardiffnlp/twitter-roberta-base-sentiment-latest";
               method := Some "POST";
               headers := bearer apiKey;
               body := Some (VObj [("inputs", VStr text)]) |}
            "Hugging Face sentiment API error: " ;;
        first <- io_lift (Value.first data) ;;
        io_ret (Value.orElse first neutral))
     catch error => io_ret neutral)%io).

Definition getCommunityCorrectionsNews (w : World) : IO JSValue :=
  withKey w "NEWS_API_KEY" "News API key not configured" (fun apiKey =>
    (try
       (data <-
          fetchJson w
            {| url := "https://newsapi.org/v2/everything?q=" ++ JS.dq
                      ++ "community corrections" ++ JS.dq ++ " OR " ++ JS.dq
                      ++ "probation" ++ JS.dq ++ " OR " ++ JS.dq ++ "parole" ++ JS.dq
                      ++ "&language=en&sortBy=publishedAt&pageSize=10&apiKey=" ++ apiKey;
               method := None;
               headers := [];
               body := None |}
            "News API error: " ;;
        articles <- io_lift (Value.get data "articles") ;;
        io_ret (Value.orElse articles (VArr [])))
     catch error => io_ret (VArr []))%io).

Definition storeConfiguration (w : World) (config : JSValue) : IO JSValue :=
  withKey w "JSONBIN_API_KEY" "JSONBin API key not configured" (fun apiKey =>
    (try
       (data <-
          fetchJson w
            {| url := "https://api.jsonbin.io/v3/b";
               method := Some "POST";
               headers := [("Content-Type", "application/json");
                           ("X-Master-Key", apiKey);
                           ("X-Bin-Name", "community-corrections-config")];
               body := Some config |}
            "JSONBin API error: " ;;
        metadata <- io_lift (Value.get data "metadata") ;;
        io_lift (Value.get metadata "id"))
     catch error => io_throw error)%io).

Definition getConfiguration (w : World) (binId : string) : IO JSValue :=
  withKey w "JSONBIN_API_KEY" "JSONBin API key not configured" (fun apiKey =>
    (try
       (data <-
          fetchJson w
            {| url := "https://api.jsonbin.io/v3/b/" ++ binId;
               method := None;
               headers := [("X-Master-Key", apiKey)];
               body := None |}
            "JSONBin API error: " ;;
        io_lift (Value.get data "record"))
     catch error => io_throw error)%io).

End FreeApiService.

(* ================================================================== *)
(** * server/services/vectorService.ts                                 *)
(* ================================================================== *)

Module VectorService.

Local Open Scope float_scope.

Definition generateQueryEmbedding (env : Env) (query : string) : M (list float) :=
  (try call OpenAIEmbeddings (env_openai_embedding env query)
   catch message => throw ("Failed to generate embeddings: " ++ message)%string)%monad.

Definition cosineSimilarity (a b : list float) : float :=
  let dotProduct := JS.reduce (fun sum val i => sum + val * JS.numAt b i) a 0 in
  let magnitudeA := sqrt (JS.reduce (fun sum val _ => sum + val * val) a 0) in
  let magnitudeB := sqrt (JS.reduce (fun sum val _ => sum + val * val) b 0) in
  if (magnitudeA =? 0) || (magnitudeB =? 0) then 0
  else dotProduct / (magnitudeA * magnitudeB).

Definition default_topK : float := 5.
Definition default_threshold : float := 0.7.

Definition findSimilarChunks (queryEmbedding : list float) (chunks : list VectorChunk)
    (topK : float) (threshold : float) : list Scored :=
  let similarities :=
    map (fun c => {| chunk := c;
                     similarity := cosineSimilarity queryEmbedding (embedding c) |})
        chunks in
  JS.sliceTo topK
    (JS.sort bySimilarityDesc
       (filter (fun item => threshold <=? similarity item) similarities)).

Definition findSimilarChunksByType (queryEmbedding : list float)
    (chunks : list VectorChunk) (ty : DocType) (topK : float) (threshold : float)
    : list Scored :=
  let filteredChunks := filter (fun c => DocType_eqb (type (metadata c)) ty) chunks in
  findSimilarChunks queryEmbedding filteredChunks topK threshold.

(** [multiHopRetrieval(query, chunks)] with [transcriptTopK = policyTopK = 3]
    and the default threshold of [findSimilarChunksByType]. *)
Definition multiHopRetrieval (env : Env) (query : string) (chunks : list VectorChunk)
    : M (list Scored * list Scored) :=
  (queryEmbedding <- generateQueryEmbedding env query ;;
   let transcriptChunks :=
     findSimilarChunksByType queryEmbedding chunks transcript 3 default_threshold in
   let policyChunks :=
     findSimilarChunksByType queryEmbedding chunks policy 3 default_threshold in
   ret (transcriptChunks, policyChunks))%monad.

End VectorService.

(* ================================================================== *)
(** * server/services/enhancedRagService.ts                            *)
(* ================================================================== *)

Module EnhancedRAGService.

Local Open Scope float_scope.

(** The dynamic import of [./ragService] followed by an unconditional
    [throw new Error('OpenAI not available')]. *)
Definition tryOpenAI (query context : string) : M string :=
  call (Generate "OpenAI") (Thrown "OpenAI not available").

Definition cosineSimilarity (a b : list float) : float :=
  let dotProduct := JS.reduce (fun sum val i => sum + val * JS.numAt b i) a 0 in
  let magnitudeA := sqrt (JS.reduce (fun sum val _ => sum + val * val) a 0) in
  let magnitudeB := sqrt (JS.reduce (fun sum val _ => sum + val * val) b 0) in
  if (magnitudeA =? 0) || (magnitudeB =? 0) then 0
  else dotProduct / (magnitudeA * magnitudeB).

Definition findSimilarChunksByType (queryEmbedding : list float)
    (chunks : list VectorChunk) (ty : DocType) (topK : float) : list Scored :=
  let filteredChunks := filter (fun c => DocType_eqb (type (metadata c)) ty) chunks in
  let similarities :=
    map (fun c => {| chunk := c;
                     similarity := cosineSimilarity queryEmbedding (embedding c) |})
        filteredChunks in
  JS.sliceTo topK
    (JS.sort bySimilarityDesc
       (filter (fun item => 0.3 <=? similarity item) similarities)).

(** The argument of [generateContentAnalysisResponse] is either the raw chunk
    list (objects without a [similarity]) or a scored list. *)
Definition MaybeScored : Type := (VectorChunk * option float)%type.

Definition unscored (c : VectorChunk) : MaybeScored := (c, None).
Definition scored (s : Scored) : MaybeScored := (chunk s, Some (similarity s)).

Definition generateContentAnalysisResponse (query : string)
    (relevantChunks : list MaybeScored) : RAGResponse :=
  {| answer := "Content analysis response based on available documents.";
     sources :=
       map (fun c =>
              {| src_documentName := documentName (metadata (fst c));
                 src_chunkId := id (fst c);
                 src_text := (JS.substring0 200 (text (fst c)) ++ "...")%string;
                 src_type := type (metadata (fst c));
                 src_similarity := snd c |})
           (JS.slice0 5 relevantChunks);
     reasoning := "Generated using content analysis fallback when APIs are unavailable." |}.

(** The list [apis], in order of preference. *)
Definition apis (env : Env) (query context : string) : list (string * M string) :=
  [ ("OpenAI", tryOpenAI query context);
    ("Groq", call (Generate "Groq") (env_generateGroqResponse env query context));
    ("Google Gemini",
      call (Generate "Google Gemini") (env_generateGeminiResponse env query context));
    ("Cohere", call (Generate "Cohere") (env_generateCohereResponse env query context));
    ("Together AI",
      call (Generate "Together AI") (env_generateTogetherResponse env query context)) ].

(** [for (const api of apis) { try { answer = await api.fn(); apiUsed =
    api.name; break; } catch (error) { continue; } }], from [answer = ''] and
    [apiUsed = '']: the pair [(answer, apiUsed)] after the loop. *)
Fixpoint tryApis (l : list (string * M string)) : M (string * string) :=
  match l with
  | [] => ret (EmptyString, EmptyString)
  | (name, fn) :: rest =>
      (try (answer <- fn ;; ret (answer, name))
       catch _ => tryApis rest)%monad
  end.

(** The vector search of [processQueryWithFallbacks]: the two ranked lists,
    or the response that the innermost handler returns at once. *)
Definition vectorSearch (env : Env) (query : string) (allChunks : list VectorChunk)
    : M (RAGResponse + list Scored * list Scored) :=
  (try (result <- VectorService.multiHopRetrieval env query allChunks ;;
        ret (inr result))
   catch _ =>
     (try (queryEmbedding <-
             call HuggingFaceEmbeddings (env_huggingface_embedding env query) ;;
           ret (inr (findSimilarChunksByType queryEmbedding allChunks transcript 3,
                     findSimilarChunksByType queryEmbedding allChunks policy 3)))
      catch _ =>
        ret (inl (generateContentAnalysisResponse query (map unscored allChunks)))))%monad.

(** The reasoning of a generated answer. *)
Definition generatedReasoning (n : nat) (apiUsed : string) : string :=
  ("Retrieved " ++ JS.showNat n ++ " relevant chunks. Answer generated using "
   ++ apiUsed ++ " API with retrieved context.")%string.

(** The generation phase: context, cascade over [apis], and the answer or
    the content analysis of the ranked chunks. *)
Definition generate (env : Env) (query : string) (allRelevantChunks : list Scored)
    : M RAGResponse :=
  (let context := contextOf allRelevantChunks in
   r <- tryApis (apis env query context) ;;
   let '(answer, apiUsed) := r in
   match answer with
   | EmptyString =>
       ret (generateContentAnalysisResponse query (map scored allRelevantChunks))
   | _ =>
       ret {| answer := answer;
              sources :=
                map (fun c =>
                       {| src_documentName := documentName (metadata (chunk c));
                          src_chunkId := id (chunk c);
                          src_text := excerpt 300 (text (chunk c));
                          src_type := type (metadata (chunk c));
                          src_similarity := Some (similarity c) |})
                    allRelevantChunks;
              reasoning := generatedReasoning (List.length allRelevantChunks) apiUsed |}
   end)%monad.

Definition processQueryWithFallbacks (env : Env) (query : string) : M RAGResponse :=
  (try
     (allChunks <- getAllVectorChunks env ;;
      if (List.length allChunks =? 0)%nat then
        ret {| answer := "No documents have been indexed yet. Please upload and process some documents first.";
               sources := [];
               reasoning := "No vector data available for retrieval." |}
      else if hasEmbeddings allChunks then
        found <- vectorSearch env query allChunks ;;
        match found with
        | inl response => ret response
        | inr (transcriptChunks, policyChunks) =>
            let allRelevantChunks := allRelevantChunks transcriptChunks policyChunks in
            if (List.length allRelevantChunks =? 0)%nat then
              ret {| answer := "I couldn't find any relevant information in the processed documents to answer your question.";
                     sources := [];
                     reasoning := "No relevant chunks found with sufficient similarity to the query." |}
            else generate env query allRelevantChunks
        end
      else ret (generateContentAnalysisResponse query (map unscored allChunks)))
   catch _ =>
     (chunks <- getAllVectorChunks env ;;
      ret (generateContentAnalysisResponse query
             (map scored (withPlaceholderSimilarity chunks)))))%monad.

(** The result of [processDocumentWithSentiment]. *)
Record SentimentReport : Type := {
  success : bool;
  chunksCreated : nat;
  sentimentAnalysis : JSValue
}.

(** [processDocumentWithSentiment], with [storage.getDocument] as the
    outcome of the read of the database. *)
Definition processDocumentWithSentiment (w : FreeApiService.World)
    (getDocument : Z -> Outcome (option Document)) (documentId : Z)
    : FreeApiService.IO SentimentReport :=
  FreeApiService.io_bind (FreeApiService.io_lift (getDocument documentId))
    (fun document =>
       match document with
       | None => FreeApiService.io_throw "Document not found"
       | Some document =>
           FreeApiService.io_bind
             (FreeApiService.io_catch
                (FreeApiService.analyzeSentiment w (doc_content document))
                (fun _ => FreeApiService.io_ret VNull))
             (fun sentimentAnalysis =>
                FreeApiService.io_ret
                  {| success := true;
                     chunksCreated := 0;
                     sentimentAnalysis := sentimentAnalysis |})
       end).

End EnhancedRAGService.

(* ================================================================== *)
(** * server/services/ragService.ts                                    *)
(* ================================================================== *)

Module RAGService.

Section Service.

(** The seven [String.prototype.replace] calls with regular expressions and
    the final [trim()] of [cleanSourceText], which remove generated
    explanatory text from an excerpt.  They only shape the [text] of a
    source; the services are defined for any such function. *)
Variable stripGenerated : string -> string.

Local Open Scope string_scope.

Definition cleanSourceText (text : string) : string :=
  let cleanText := stripGenerated text in
  excerpt 200 cleanText.

Definition extractKeyInfo (chunks : list Scored) (query : string) : string :=
  let content := JS.toLowerCase (JS.join " " (map (fun c => text (chunk c)) chunks)) in
  let documentNames := map (fun c => documentName (metadata (chunk c))) chunks in
  if JS.includes query "transport" || JS.includes query "travel" then
    if JS.includes content "robert" then
      "Robert has mentioned transportation challenges related to getting to work and appointments. He has discussed issues with vehicle reliability and the impact on his job at the fencing company."
    else
      "Transportation challenges have been discussed including difficulties with reliable transportation to work and appointments."
  else if JS.includes query "session" && JS.includes query "nathan" then
    let nathanSessions :=
      filter (fun name => JS.includes (JS.toLowerCase name) "nathan") documentNames in
    "Nathan has had " ++ JS.showNat (List.length nathanSessions)
    ++ " documented supervision sessions covering topics like financial stress, work situations, and coping strategies."
  else if JS.includes query "session" && JS.includes query "robert" then
    let robertSessions :=
      filter (fun name => JS.includes (JS.toLowerCase name) "robert") documentNames in
    "Robert has had " ++ JS.showNat (List.length robertSessions)
    ++ " documented supervision sessions discussing work progress, transportation, and compliance."
  else if JS.includes query "stress" || JS.includes query "anxiety" then
    if JS.includes content "nathan" then
      "Nathan has discussed financial stress related to property taxes ($2,000 payment) and demonstrated positive coping strategies, saying 'there's nothing wrong with being stressed, that's part of life right? It's more of how you handle your stress.'"
    else
      "Stress management and coping strategies have been important topics, including work-related stress and financial pressures."
  else if JS.includes query "work" || JS.includes query "employ" then
    if JS.includes content "robert" && JS.includes content "nathan" then
      "Robert works for a fencing company and has been there about eight months with increasing responsibilities. Nathan has work-related financial stress but maintains employment. Both show different employment situations and challenges."
    else if JS.includes content "robert" then
      "Robert works for a fencing company, has been there about eight months, gets along well with his crew, and his boss is happy with his work. The physical demands help him stay focused."
    else if JS.includes content "nathan" then
      "Nathan has employment but faces financial stress including property tax obligations that impact his budget and stress levels."
    else
      "Employment status and work situations have been regularly discussed, including job stability and workplace challenges."
  else
    "Multiple aspects of supervision and personal challenges have been discussed across sessions.".

Definition extractPolicyInfo (chunks : list Scored) (query : string) : string :=
  if JS.includes query "grievance" || JS.includes query "appeal" then
    if JS.includes query "time" || JS.includes query "deadline" then
      "Grievance and appeal policy specifies: grievances must be submitted within 24 hours of incident using Form CC-101, Assistant Director conducts preliminary review within 72 hours, appeals filed within 5 business days, final appeal decisions issued within 15 business days."
    else
      "The grievance and appeal policy establishes procedures for participants to file complaints using Form CC-101, with Assistant Director review and appeal processes to different supervisors."
  else if JS.includes query "program" || JS.includes query "treatment" then
    if JS.includes query "substance" || JS.includes query "abuse" then
      "Programming requirements for substance abuse cases include: mandatory participation for those with substance abuse history, group therapy 3 times weekly, individual counseling weekly, plus employment preparation, life skills development, and educational programming."
    else
      "Programming includes substance abuse treatment (group therapy, individual counseling), employment preparation (job readiness, resume building), life skills (financial literacy, anger management), and educational components (GED, vocational training). Minimum 6 hours weekdays, 4 hours weekends."
  else if JS.includes query "time" || JS.includes query "deadline" then
    "Policy timeframes include: grievances within 24 hours, preliminary review within 72 hours, appeals within 5 business days, final decisions within 15 business days. Programming requires 6 hours minimum weekdays, 4 hours weekends."
  else if JS.includes query "check" || JS.includes query "guideline" then
    "Check-in guidelines establish procedures for regular supervision contacts, documentation requirements, and compliance monitoring protocols."
  else
    "The policy documents outline comprehensive procedures including grievance processes, programming requirements, intervention principles, and operational standards for Community Corrections.".

Definition extractTranscriptInfo (chunks : list Scored) (query : string) : string :=
  if JS.includes query "compare" || JS.includes query "both" then
    "The transcripts show different individual situations and progress patterns across supervision sessions."
  else if JS.includes query "challenge" || JS.includes query "problem" then
    "Various challenges and obstacles have been discussed including personal, work-related, and compliance issues."
  else
    "The supervision sessions document ongoing progress, challenges, and interactions between clients and case managers.".

Definition generateGenericResponse (query : string) (chunks : list Scored) : string :=
  if (List.length chunks =? 0)%nat then
    "I couldn't find specific information related to your query in the processed Community Corrections documents. Please ensure relevant documents have been uploaded and processed."
  else
    let transcriptCount :=
      List.length (filter (fun c => DocType_eqb (type (metadata (chunk c))) transcript) chunks) in
    let policyCount :=
      List.length (filter (fun c => DocType_eqb (type (metadata (chunk c))) policy) chunks) in
    if JS.includes query "transport" then
      "Transportation issues have been documented in supervision sessions, including challenges with vehicle reliability and getting to work or appointments."
    else if JS.includes query "session" || JS.includes query "meeting" then
      "Based on the processed documents, there are multiple supervision sessions documented with ongoing progress reviews and case management interactions."
    else if JS.includes query "time" || JS.includes query "deadline" then
      "The Community Corrections policies specify various timeframes including 24-hour grievance submission, 72-hour reviews, 5-day appeal windows, and 15-day final decisions."
    else if JS.includes query "program" || JS.includes query "treatment" then
      "Programming requirements include substance abuse treatment, employment preparation, life skills development, and educational components with specific time commitments."
    else if JS.includes query "policy" || JS.includes query "procedure" then
      "The policy documents outline comprehensive procedures for grievances, appeals, programming, intervention principles, and operational standards."
    else
      "Based on the available Community Corrections documents ("
      ++ JS.showNat transcriptCount ++ " transcript sections, "
      ++ JS.showNat policyCount
      ++ " policy sections), I found relevant content but need more specific context to provide a detailed answer.".

(** A source as [generateContentAnalysisResponse] first lists it. *)
Definition sourceOf (c : Scored) : Source :=
  {| src_documentName := documentName (metadata (chunk c));
     src_chunkId := id (chunk c);
     src_text := excerpt 300 (text (chunk c));
     src_type := type (metadata (chunk c));
     src_similarity := Some (similarity c) |}.

(** A source with its text cleaned: the entries pushed for a named client,
    and the sources of a generated answer. *)
Definition cleanSourceOf (c : Scored) : Source :=
  {| src_documentName := documentName (metadata (chunk c));
     src_chunkId := id (chunk c);
     src_text := cleanSourceText (text (chunk c));
     src_type := type (metadata (chunk c));
     src_similarity := Some (similarity c) |}.

Definition mentions (name : string) (c : Scored) : bool :=
  JS.includes (JS.toLowerCase (text (chunk c))) name.

(** The direct client search: the chunks whose text or document name holds
    the client's name. *)
Definition directChunks (name : string) (relevantChunks : list Scored) : list Scored :=
  filter (fun c => mentions name c
                   || JS.includes (JS.toLowerCase (documentName (metadata (chunk c)))) name)
         relevantChunks.

Definition generateContentAnalysisResponse (query : string)
    (relevantChunks : list Scored) : RAGResponse :=
  if (List.length relevantChunks =? 0)%nat then
    {| answer := "I couldn't find any relevant information in the processed documents to answer your question.";
       sources := [];
       reasoning := "No relevant chunks found with sufficient similarity to the query." |}
  else
    let queryLower := JS.toLowerCase query in
    let sources := map sourceOf relevantChunks in
    let topChunks := JS.slice0 5 relevantChunks in
    let transcriptChunks :=
      filter (fun c => DocType_eqb (type (metadata (chunk c))) transcript) topChunks in
    let policyChunks :=
      filter (fun c => DocType_eqb (type (metadata (chunk c))) policy) topChunks in
    let directNathanChunks := directChunks "nathan" relevantChunks in
    let directRobertChunks := directChunks "robert" relevantChunks in
    if JS.includes queryLower "robert" && (0 <? List.length directRobertChunks)%nat then
      {| answer := "Based on Robert's supervision sessions: "
                   ++ extractKeyInfo directRobertChunks queryLower;
         sources := (sources ++ map cleanSourceOf (JS.slice0 3 directRobertChunks))%list;
         reasoning := "Direct content analysis of Robert's transcript chunks." |}
    else if JS.includes queryLower "nathan" && (0 <? List.length directNathanChunks)%nat then
      {| answer := "Based on Nathan's supervision sessions: "
                   ++ extractKeyInfo directNathanChunks queryLower;
         sources := (sources ++ map cleanSourceOf (JS.slice0 3 directNathanChunks))%list;
         reasoning := "Direct content analysis of Nathan's transcript chunks." |}
    else
      let '(answer, reasoning) :=
        if JS.includes queryLower "compare"
           && (JS.includes queryLower "robert" || JS.includes queryLower "nathan")
        then
          let robertInfo := filter (mentions "robert") transcriptChunks in
          let nathanInfo := filter (mentions "nathan") transcriptChunks in
          if (0 <? List.length robertInfo)%nat || (0 <? List.length nathanInfo)%nat then
            ("Comparing Robert and Nathan: "
             ++ extractKeyInfo (robertInfo ++ nathanInfo)%list queryLower,
             "Comparative analysis of both Robert's and Nathan's supervision transcripts.")
          else (EmptyString, EmptyString)
        else if JS.includes queryLower "robert" || existsb (mentions "robert") transcriptChunks
        then
          let robertInfo := filter (mentions "robert") transcriptChunks in
          if (0 <? List.length robertInfo)%nat then
            ("Based on Robert's supervision sessions: " ++ extractKeyInfo robertInfo queryLower,
             "Analysis of Robert's transcript content from supervision sessions.")
          else (EmptyString, EmptyString)
        else if JS.includes queryLower "nathan" || existsb (mentions "nathan") transcriptChunks
        then
          let nathanInfo := filter (mentions "nathan") transcriptChunks in
          if (0 <? List.length nathanInfo)%nat then
            ("Based on Nathan's supervision sessions: " ++ extractKeyInfo nathanInfo queryLower,
             "Analysis of Nathan's transcript content from supervision sessions.")
          else (EmptyString, EmptyString)
        else if (0 <? List.length policyChunks)%nat then
          ("Based on the Community Corrections policy documents: "
           ++ extractPolicyInfo policyChunks queryLower,
           "Analysis of relevant policy document sections.")
        else if (0 <? List.length transcriptChunks)%nat then
          ("Based on the supervision transcripts: "
           ++ extractTranscriptInfo transcriptChunks queryLower,
           "Analysis of supervision session transcripts.")
        else
          (generateGenericResponse queryLower relevantChunks,
           "General content analysis using semantic similarity from processed documents.")
      in
      {| answer := answer; sources := sources; reasoning := reasoning |}.

(** [generateRAGResponse] asks GPT-4o with a system prompt built from the
    context and a user prompt built from the query. *)
Definition generateRAGResponse (env : Env) (query : string)
    (transcriptChunks policyChunks : list Scored) : M RAGResponse :=
  let allRelevantChunks := allRelevantChunks transcriptChunks policyChunks in
  if (List.length allRelevantChunks =? 0)%nat then
    ret {| answer := "I couldn't find any relevant information in the processed documents to answer your question.";
           sources := [];
           reasoning := "No relevant chunks found with sufficient similarity to the query." |}
  else
    match orElse (env_OPENAI_API_KEY env) (env_VITE_OPENAI_API_KEY env) with
    | Some (String a k as apiKey) =>
        if String.eqb apiKey "placeholder_key" then
          ret (generateContentAnalysisResponse query allRelevantChunks)
        else
          let context := contextOf allRelevantChunks in
          (try
             (content <- call OpenAIChat (env_openai_chat env query context) ;;
              let answer :=
                match content with
                | Some (String _ _ as generated) => generated
                | _ => "I apologize, but I couldn't generate a response to your question."
                end in
              ret {| answer := answer;
                     sources := map cleanSourceOf allRelevantChunks;
                     reasoning :=
                       "Retrieved " ++ JS.showNat (List.length allRelevantChunks)
                       ++ " relevant chunks from "
                       ++ JS.showNat (List.length transcriptChunks)
                       ++ " transcript chunks and "
                       ++ JS.showNat (List.length policyChunks)
                       ++ " policy chunks. Answer generated using GPT-4o with retrieved context." |})
           catch _ => ret (generateContentAnalysisResponse query allRelevantChunks))%monad
    | _ => ret (generateContentAnalysisResponse query allRelevantChunks)
    end.

Definition processQuery (env : Env) (query : string) : M RAGResponse :=
  (try
     (allChunks <- getAllVectorChunks env ;;
      if (List.length allChunks =? 0)%nat then
        ret {| answer := "No documents have been indexed yet. Please upload and process some documents first.";
               sources := [];
               reasoning := "No vector data available for retrieval." |}
      else if hasEmbeddings allChunks then
        found <-
          (try (result <- VectorService.multiHopRetrieval env query allChunks ;;
                ret (inr result))
           catch _ =>
             ret (inl (generateContentAnalysisResponse query
                         (withPlaceholderSimilarity allChunks)))) ;;
        match found with
        | inl response => ret response
        | inr (transcriptChunks, policyChunks) =>
            generateRAGResponse env query transcriptChunks policyChunks
        end
      else
        ret (generateContentAnalysisResponse query (withPlaceholderSimilarity allChunks)))
   catch message =>
     if JS.includes message "quota" || JS.includes message "429" then
       chunks <- getAllVectorChunks env ;;
       ret (generateContentAnalysisResponse query (withPlaceholderSimilarity chunks))
     else throw ("RAG processing failed: " ++ message))%monad.

End Service.

End RAGService.

(* ================================================================== *)
(** * server/routes.ts                                                 *)
(* ================================================================== *)

Module Routes.

(** The statistics of [GET /api/stats]. *)
Record Stats : Type := {
  totalDocuments : nat;
  processedDocuments : nat;
  transcriptDocuments : nat;
  policyDocuments : nat;
  totalChunks : nat;
  transcriptChunks : nat;
  policyChunks : nat;
  totalQueries : nat
}.

(** What a handler sends: [res.status(code).json(body)], with status 200
    when the handler sets none. *)
Inductive Body : Type :=
| ErrorBody (error : string)          (* [{ error }] *)
| RAGBody (ragResponse : RAGResponse)
| StatsBody (stats : Stats).

Record HttpResponse : Type := {
  status : nat;
  responseBody : Body
}.

(** [handleError]: every value that the modelled code throws is an [Error],
    so the answer carries its message. *)
Definition handleError (message : string) : string := message.

(** [POST /api/chat/query], on the property [query] of the request body.
    The result is the response, the backend calls of [processQuery] and the
    chat messages handed to [storage.createChatMessage]. *)
Definition postChatQuery (stripGenerated : string -> string) (env : Env)
    (createChatMessage : InsertChatMessage -> Outcome ChatMessage) (query : JSValue)
    : HttpResponse * list Call * list InsertChatMessage :=
  match query with
  | VStr (String a rest) =>
      let query := String a rest in
      match RAGService.processQuery stripGenerated env query [] with
      | (Returned ragResponse, calls) =>
          let message :=
            {| new_message := query;
               new_response := answer ragResponse;
               new_sources := sources ragResponse |} in
          match createChatMessage message with
          | Returned _ =>
              ({| status := 200; responseBody := RAGBody ragResponse |}, calls, [message])
          | Thrown error =>
              ({| status := 500; responseBody := ErrorBody (handleError error) |},
               calls, [message])
          end
      | (Thrown error, calls) =>
          ({| status := 500; responseBody := ErrorBody (handleError error) |}, calls, [])
      end
  | _ => ({| status := 400; responseBody := ErrorBody "Query is required" |}, [], [])
  end.

(** [GET /api/stats], on the outcomes of the three reads of the database,
    which are awaited in this order. *)
Definition getStats (getAllDocuments : Outcome (list Document))
    (getAllVectorChunks : Outcome (list VectorChunk))
    (getAllChatMessages : Outcome (list ChatMessage)) : HttpResponse :=
  match getAllDocuments with
  | Thrown error => {| status := 500; responseBody := ErrorBody (handleError error) |}
  | Returned documents =>
      match getAllVectorChunks with
      | Thrown error => {| status := 500; responseBody := ErrorBody (handleError error) |}
      | Returned vectorChunks =>
          match getAllChatMessages with
          | Thrown error =>
              {| status := 500; responseBody := ErrorBody (handleError error) |}
          | Returned chatMessages =>
              let transcriptChunks :=
                filter (fun c => DocType_eqb (type (metadata c)) transcript) vectorChunks in
              let policyChunks :=
                filter (fun c => DocType_eqb (type (metadata c)) policy) vectorChunks in
              {| status := 200;
                 responseBody :=
                   StatsBody
                     {| totalDocuments := List.length documents;
                        processedDocuments :=
                          List.length (filter doc_processed documents);
                        transcriptDocuments :=
                          List.length
                            (filter (fun doc => String.eqb (doc_type doc) "transcript")
                                    documents);
                        policyDocuments :=
                          List.length
                            (filter (fun doc => String.eqb (doc_type doc) "policy")
                                    documents);
                        totalChunks := List.length vectorChunks;
                        transcriptChunks := List.length transcriptChunks;
                        policyChunks := List.length policyChunks;
                        totalQueries := List.length chatMessages |} |}
          end
      end
  end.

End Routes.

(* ================================================================== *)
(** * client/src/pages/Home.tsx                                        *)
(* ================================================================== *)

Module Home.

Definition getIndexStatus (documents processed : nat) : string :=
  if (documents =? 0)%nat then "empty"
  else if (processed =? documents)%nat then "ready"
  else "processing".

Definition getStatusColor (status : string) : string :=
  if String.eqb status "ready" then "text-green-500"
  else if String.eqb status "processing" then "text-yellow-500"
  else "text-gray-400".

(** [stats?.field || 0] for the statistics that the query has fetched, if
    any. *)
Definition orZero (stats : option Routes.Stats) (field : Routes.Stats -> nat) : nat :=
  match stats with
  | Some stats => field stats
  | None => 0
  end.

Definition transcriptStatus (stats : option Routes.Stats) : string :=
  getIndexStatus (orZero stats Routes.transcriptDocuments)
                 (orZero stats Routes.processedDocuments).

Definition policyStatus (stats : option Routes.Stats) : string :=
  getIndexStatus (orZero stats Routes.policyDocuments)
                 (orZero stats Routes.processedDocuments).

End Home.

(* ================================================================== *)
(** * Scenarios                                                        *)
(* ================================================================== *)

(** An environment whose database holds no chunk and whose other backends
    are down. *)
Definition emptyEnv : Env :=
  {| env_getAllVectorChunks := fun _ => Returned [];
     env_openai_embedding := fun _ => Thrown "unavailable";
     env_huggingface_embedding := fun _ => Thrown "unavailable";
     env_OPENAI_API_KEY := None;
     env_VITE_OPENAI_API_KEY := None;
     env_openai_chat := fun _ _ => Thrown "unavailable";
     env_generateGroqResponse := fun _ _ => Thrown "unavailable";
     env_generateGeminiResponse := fun _ _ => Thrown "unavailable";
     env_generateCohereResponse := fun _ _ => Thrown "unavailable";
     env_generateTogetherResponse := fun _ _ => Thrown "unavailable" |}.

(** Three transcript chunks of one of Nathan's sessions, not yet embedded. *)
Definition nathanChunk (i : string) (k : Z) : VectorChunk :=
  {| id := i;
     text := "Staff: Good morning Nathan, how are things going this week?";
     embedding := [];
     metadata := {| documentId := 1; documentName := "Nathan_04-14.pdf";
                    type := transcript; chunkIndex := k |} |}.

Definition nathanChunks : list VectorChunk :=
  [nathanChunk "n1" 0; nathanChunk "n2" 1; nathanChunk "n3" 2].

(** Five embedded transcript chunks that all match the query vector [[1]]. *)
Definition fiveChunks : list VectorChunk :=
  map (fun k => {| id := ("c" ++ JS.showNat k)%string;
                   text := "Check-in notes";
                   embedding := [1%float];
                   metadata := {| documentId := 3; documentName := "notes.pdf";
                                  type := transcript; chunkIndex := Z.of_nat k |} |})
      (seq 0 5).

(** One embedded chunk of the grievance policy, which names no client. *)
Definition policyChunk : VectorChunk :=
  {| id := "p1";
     text := "Grievances must be submitted within 24 hours of the incident.";
     embedding := [1%float];
     metadata := {| documentId := 2; documentName := "grievance-policy.pdf";
                    type := policy; chunkIndex := 0 |} |}.

(** The database holds [policyChunk], the embedding API works and returns
    the chunk's own vector for the query, a real API key is configured, and
    the chat completion of GPT-4o fails. *)
Definition generationDownEnv : Env :=
  {| env_getAllVectorChunks := fun _ => Returned [policyChunk];
     env_openai_embedding := fun _ => Returned [1%float];
     env_huggingface_embedding := fun _ => Thrown "unavailable";
     env_OPENAI_API_KEY := Some "sk-live";
     env_VITE_OPENAI_API_KEY := None;
     env_openai_chat := fun _ _ => Thrown "503 Service Unavailable";
     env_generateGroqResponse := fun _ _ => Thrown "unavailable";
     env_generateGeminiResponse := fun _ _ => Thrown "unavailable";
     env_generateCohereResponse := fun _ _ => Thrown "unavailable";
     env_generateTogetherResponse := fun _ _ => Thrown "unavailable" |}.

(** The database holds Nathan's three chunks, none of them embedded; every
    other backend is down. *)
Definition unembeddedEnv : Env :=
  {| env_getAllVectorChunks := fun _ => Returned nathanChunks;
     env_openai_embedding := fun _ => Thrown "unavailable";
     env_huggingface_embedding := fun _ => Thrown "unavailable";
     env_OPENAI_API_KEY := None;
     env_VITE_OPENAI_API_KEY := None;
     env_openai_chat := fun _ _ => Thrown "unavailable";
     env_generateGroqResponse := fun _ _ => Thrown "unavailable";
     env_generateGeminiResponse := fun _ _ => Thrown "unavailable";
     env_generateCohereResponse := fun _ _ => Thrown "unavailable";
     env_generateTogetherResponse := fun _ _ => Thrown "unavailable" |}.

(** The database holds the embedded policy chunk, the embedding backend
    works, and the only key that is configured is the placeholder. *)
Definition placeholderKeyEnv : Env :=
  {| env_getAllVectorChunks := fun _ => Returned [policyChunk];
     env_openai_embedding := fun _ => Returned [1%float];
     env_huggingface_embedding := fun _ => Thrown "unavailable";
     env_OPENAI_API_KEY := Some "";
     env_VITE_OPENAI_API_KEY := Some "placeholder_key";
     env_openai_chat := fun _ _ => Returned (Some "never asked");
     env_generateGroqResponse := fun _ _ => Thrown "unavailable";
     env_generateGeminiResponse := fun _ _ => Thrown "unavailable";
     env_generateCohereResponse := fun _ _ => Thrown "unavailable";
     env_generateTogetherResponse := fun _ _ => Thrown "unavailable" |}.

(** A process without any configured key, cut off from the network. *)
Definition noKeys : FreeApiService.World :=
  {| FreeApiService.process_env := fun _ => None;
     FreeApiService.fetch := fun _ => Thrown "network unreachable" |}.

(** A process with every key configured, whose every request is answered
    with status 429. *)
Definition rateLimited : FreeApiService.World :=
  {| FreeApiService.process_env := fun _ => Some "key";
     FreeApiService.fetch := fun _ =>
       Returned {| FreeApiService.ok := false;
                   FreeApiService.statusText := "Too Many Requests";
                   FreeApiService.json := Thrown "Unexpected end of JSON input" |} |}.

(** One transcript and one policy document, both processed. *)
Definition twoDocuments : list Document :=
  [ {| doc_id := 1; doc_name := "Nathan_04-14.pdf"; doc_type := "transcript";
       doc_content := "Staff: Good morning Nathan, how are things going this week?";
       doc_uploadedAt := 0; doc_processed := true |};
    {| doc_id := 2; doc_name := "grievance-policy.pdf"; doc_type := "policy";
       doc_content := "Grievances must be submitted within 24 hours of the incident.";
       doc_uploadedAt := 1; doc_processed := true |} ].

(* ================================================================== *)
(** * Vocabulary of the properties                                     *)
(* ================================================================== *)

(** The entries of the cascade after its second. *)
Definition laterApis : list Call :=
  [Generate "Google Gemini"; Generate "Cohere"; Generate "Together AI"].

Definition isGenerate (c : Call) : bool :=
  match c with
  | Generate _ => true
  | _ => false
  end.

(** A string is not empty. *)
Definition nonEmpty (s : string) : bool := (0 <? String.length s)%nat.

(** The similarity of a scored chunk is a number (not [NaN]). *)
Definition isNumber (c : Scored) : Prop := is_nan (similarity c) = false.

(** [a] may stand before [b] in a descending list. *)
Definition atLeast (a b : Scored) : Prop :=
  (similarity b <=? similarity a)%float = true.

(** Sorted non-increasing by similarity: each element is at least its
    successor. *)
Definition descending (l : list Scored) : Prop := Sorted atLeast l.

(** The elements of a list whose similarity equals [v]. *)
Definition tied (v : float) (l : list Scored) : list Scored :=
  filter (fun c => (similarity c =? v)%float) l.

(** Ties keep the order of the input: among the elements of one similarity,
    the output holds the first ones of the input, in the input's order. *)
Definition tiesKeepOrder (input output : list Scored) : Prop :=
  forall v, exists rest, tied v input = tied v output ++ rest.

(** The scored list that a ranker filters and sorts. *)
Definition scoredBy (cosineSimilarity : list float -> list float -> float)
    (queryEmbedding : list float) (chunks : list VectorChunk) : list Scored :=
  map (fun c => {| chunk := c;
                   similarity := cosineSimilarity queryEmbedding (embedding c) |})
      chunks.

(** What the specification asks of [rank(queryVector, chunks, topK,
    threshold)], with its bound on the length for a [topK] that is not
    negative. *)
Definition rankerContract (input output : list Scored) (topK : float) (threshold : float)
    : Prop :=
  descending output
  /\ tiesKeepOrder input output
  /\ Forall (fun c => (threshold <=? similarity c)%float = true) output
  /\ ((0 <=? topK)%float = true -> JS.leNat (List.length output) topK = true).

(** The L2 norm as the services compute it. *)
Definition norm (v : list float) : float :=
  sqrt (JS.reduce (fun sum val _ => (sum + val * val)%float) v 0%float).

(** The position of a number other than [NaN] on the extended real line:
    a triple ordered lexicographically (class and sign, exponent,
    mantissa). *)
Definition key (x : spec_float) : Z * Z * Z :=
  match x with
  | S754_zero _ => (0, 0, 0)
  | S754_infinity false => (2, 0, 0)
  | S754_infinity true => (-2, 0, 0)
  | S754_nan => (0, 0, 0)
  | S754_finite false m e => (1, e, Z.pos m)
  | S754_finite true m e => (-1, - e, - Z.pos m)
  end%Z.

Definition lex (a b : Z * Z * Z) : comparison :=
  let '(a1, a2, a3) := a in
  let '(b1, b2, b3) := b in
  match (a1 ?= b1)%Z with
  | Eq => match (a2 ?= b2)%Z with
          | Eq => (a3 ?= b3)%Z
          | c => c
          end
  | c => c
  end.

Definition lexlt (a b : Z * Z * Z) : Prop :=
  let '(a1, a2, a3) := a in
  let '(b1, b2, b3) := b in
  (a1 < b1 \/ (a1 = b1 /\ (a2 < b2 \/ (a2 = b2 /\ a3 < b3))))%Z.

Definition rank (x : float) : Z * Z * Z := key (Prim2SF x).

(** A rounded result that is a number of sign [s] other than zero. *)
Definition signed_nonzero (s : bool) (x : spec_float) : Prop :=
  (exists m e, x = S754_finite s m e) \/ x = S754_infinity s.

(** [picked] is a selection of [all]: every element of [picked] is one of
    [all], and none occurs more often in [picked] than in [all]. *)
Definition submultiset {A : Type} (picked all : list A) : Prop :=
  exists rest, Permutation (picked ++ rest) all.

(** A source cites a chunk: it carries the chunk's id, document name and
    type, and an excerpt of bounded length. *)
Definition cites (c : VectorChunk) (s : Source) : Prop :=
  src_chunkId s = id c
  /\ src_documentName s = documentName (metadata c)
  /\ src_type s = type (metadata c)
  /\ String.length (src_text s) <= 303.

(** The sources of a response cite a selection of the chunks, in order. *)
Definition citesStored (chunks : list VectorChunk) (r : RAGResponse) : Prop :=
  exists picked, submultiset picked chunks /\ Forall2 cites picked (sources r).

(** The chunks that a request works on: those of the first read of the
    database, or of the second one after a failed first. *)
Definition readBy (env : Env) (chunks : list VectorChunk) : Prop :=
  env_getAllVectorChunks env 0 = Returned chunks
  \/ ((exists first, env_getAllVectorChunks env 0 = Thrown first)
      /\ env_getAllVectorChunks env 1 = Returned chunks).

(** The generation backends of the enhanced service, in their order. *)
Definition cascade : list Call :=
  [Generate "OpenAI"; Generate "Groq"; Generate "Google Gemini"; Generate "Cohere";
   Generate "Together AI"].

(** The order in which the enhanced service enters its backends. *)
Definition enhancedProtocol (calls : list Call) : Prop :=
  calls = [GetAllVectorChunks; GetAllVectorChunks]
  \/ exists n k,
       1 <= n <= 3 /\ k <= 5
       /\ calls = firstn n [GetAllVectorChunks; OpenAIEmbeddings; HuggingFaceEmbeddings]
                  ++ firstn k cascade.

(** The order in which [RAGService.processQuery] enters its backends. *)
Definition ragProtocol (calls : list Call) : Prop :=
  calls = [GetAllVectorChunks; GetAllVectorChunks]
  \/ exists n, 1 <= n <= 3
               /\ calls = firstn n [GetAllVectorChunks; OpenAIEmbeddings; OpenAIChat].

(** [apiKey && apiKey !== "placeholder_key"] for the key that
    [generateRAGResponse] reads. *)
Definition usableKey (env : Env) : bool :=
  match orElse (env_OPENAI_API_KEY env) (env_VITE_OPENAI_API_KEY env) with
  | Some (String a k) => negb (String.eqb (String a k) "placeholder_key")
  | _ => false
  end.

(** The query names neither client. *)
Definition namesNoClient (query : string) : bool :=
  negb (JS.includes (JS.toLowerCase query) "robert")
  && negb (JS.includes (JS.toLowerCase query) "nathan").

(** The message of a failed read makes [processQuery] read again. *)
Definition quotaMessage (message : string) : bool :=
  JS.includes message "quota" || JS.includes message "429".

(** The environment variable is missing or empty. *)
Definition unset (w : FreeApiService.World) (name : string) : bool :=
  match FreeApiService.process_env w name with
  | Some (String _ _) => false
  | _ => true
  end.

(** Between [before] and [after] one request was sent, and its response
    satisfies [answered]. *)
Definition sentOne (w : FreeApiService.World) (before after : list FreeApiService.Request)
    (answered : FreeApiService.Response -> Prop) : Prop :=
  exists request response,
    after = before ++ [request]
    /\ FreeApiService.fetch w request = Returned response
    /\ answered response.

(** What a text generator may do: throw before any request, or send one
    request and then either throw or return a value that is not falsy, the
    latter only for a response with a passing status. *)
Definition generatorContract (w : FreeApiService.World) (t : list FreeApiService.Request)
    (run : Outcome JSValue * list FreeApiService.Request) : Prop :=
  match run with
  | (Returned v, t') =>
      Value.truthy v = true
      /\ sentOne w t t' (fun response => FreeApiService.ok response = true)
  | (Thrown _, t') => t' = t \/ exists request, t' = t ++ [request]
  end.

(** Every request is answered, with a failing status. *)
Definition alwaysFails (w : FreeApiService.World) (status : string) : Prop :=
  forall request,
    exists response,
      FreeApiService.fetch w request = Returned response
      /\ FreeApiService.ok response = false
      /\ FreeApiService.statusText response = status.

(** [query] is a string that is not empty: what the chat route accepts. *)
Definition validQuery (query : JSValue) : bool :=
  match query with
  | VStr (String _ _) => true
  | _ => false
  end.


(** Every document has been processed, and both kinds are present. *)
Definition fullyProcessed (documents : list Document) : Prop :=
  Forall (fun doc => doc_processed doc = true) documents
  /\ (exists doc, In doc documents /\ doc_type doc = "transcript")
  /\ (exists doc, In doc documents /\ doc_type doc = "policy").


(* ================================================================== *)
(** * Binary64 values as real numbers                                  *)
(* ================================================================== *)

(** The vocabulary of the rounding analysis of the embedding: the real
    number that a binary64 value stands for, and what it means that a
    computed value approximates an exact one after a number of roundings. *)
Module Rounding.

Import Reals.
Local Open Scope R_scope.

(** The power of two of an exponent. *)
Definition bpow (e : Z) : R := powerRZ 2 e.

(** One unit in the last place of a number between 1 and 2: the bound on
    the relative error of one rounded operation. *)
Definition u : R := / IZR (2 ^ 52).

(** The real number that a finite binary64 value stands for. *)
Definition realValue (x : float) : R :=
  match Prim2SF x with
  | S754_finite s m e => (if s then - IZR (Z.pos m) else IZR (Z.pos m)) * bpow e
  | _ => 0
  end.

Definition isFinite (x : float) : bool :=
  match Prim2SF x with
  | S754_finite _ _ _ => true
  | S754_zero _ => true
  | _ => false
  end.

(** [x] is a finite number within [2^-41] of 1. *)
Definition nearOne (x : float) : Prop :=
  isFinite x = true /\ Rabs (realValue x - 1) <= bpow (-41).

(** [x] is a positive normal number of value [v]. *)
Definition fpos (x : float) (v : R) : Prop :=
  exists (m : positive) (e : Z),
    Prim2SF x = S754_finite false m e
    /\ (2 ^ 52 <= Z.pos m < 2 ^ 53)%Z
    /\ v = IZR (Z.pos m) * bpow e.

(** [x] is [+0] or a positive normal number, of value [v]. *)
Definition fnn (x : float) (v : R) : Prop :=
  (Prim2SF x = S754_zero false /\ v = 0) \/ fpos x v.

(** [v] approximates [e] after [k] roundings: each lies within the factor
    [(1 - u)^k] of the other. *)
Definition approx (k : nat) (v e : R) : Prop :=
  e * (1 - u) ^ k <= v /\ v * (1 - u) ^ k <= e.

(** The exact sum of the squares. *)
Definition sumsq (es : list R) : R := fold_right (fun e s => e * e + s) 0 es.

(** The callback of the reduction that sums the squares. *)
Definition sumStep (sum val : float) (_ : nat) : float := (sum + val * val)%float.

(** The Euclidean norm of the numbers of a vector, in real arithmetic. *)
Definition exactNorm (v : list float) : R := R_sqrt.sqrt (sumsq (map realValue v)).

(** [v] is a vector of finite numbers whose norm is within [2^-41] of 1,
    both as the services compute it on binary64 numbers and as the exact
    Euclidean norm of its components. *)
Definition normalized (v : list float) : Prop :=
  forallb isFinite v = true
  /\ nearOne (norm v)
  /\ Rabs (exactNorm v - 1) <= bpow (-41).

(** The least number that the loop over the words adds to a component. *)
Definition leastAddend : R := bpow (-51).

(** What one [+=] adds: a positive number between [2^-51] and 2. *)
Definition addend (t : float) : Prop := exists vt, fpos t vt /\ leastAddend <= vt <= 2.

(** A component after at most [k] additions. *)
Definition bound (k : nat) (v : R) : Prop :=
  v = 0 \/ leastAddend * (1 - INR k * u) <= v <= 2 * INR k * (1 + 2 * INR k * u).

(** The embedding after at most [k] additions: every component is [+0] or
    a positive number within the bounds, and one is positive once a word
    has been counted. *)
Definition inv (k : nat) (emb : list float) : Prop :=
  exists vs,
    Forall2 fnn emb vs /\ Forall (bound k) vs
    /\ ((1 <= k)%nat -> Exists (fun v => 0 < v) vs).

(** A number of additions that a text of fewer than [2^50] code units can
    cause. *)
Definition few (k : nat) : Prop := (Z.of_nat k <= 2 ^ 50 + 8)%Z.

(** The callback of the loop over the words. *)
Definition wordStep (emb : list float) (word : string) (index : nat) : list float :=
  let hash := Z.to_nat (DemoVectorService.simpleHash word mod 384) in
  JS.addAt hash (1 / JS.ofNat (index + 1))%float emb.

(** The features of a text: the array of [generateSingleEmbedding] before
    its normalization. *)
Definition featuresOf (text : string) : list float :=
  let words := JS.split_ws (JS.toLowerCase text) in
  let embedding := repeat 0%float 384 in
  let embedding := JS.reduce wordStep words embedding in
  let embedding := DemoVectorService.boost text "Nathan" "nathan" 100 2.0%float embedding in
  let embedding := DemoVectorService.boost text "Robert" "robert" 101 2.0%float embedding in
  let embedding := DemoVectorService.boost text "stress" "financial" 200 1.5%float embedding in
  let embedding := DemoVectorService.boost text "work" "employment" 201 1.5%float embedding in
  let embedding := DemoVectorService.boost text "sobriety" "meetings" 202 1.5%float embedding in
  let embedding := DemoVectorService.boost text "policy" "procedure" 300 1.5%float embedding in
  let embedding := DemoVectorService.boost text "grievance" "appeal" 301 1.5%float embedding in
  DemoVectorService.boost text "programming" "treatment" 302 1.5%float embedding.

End Rounding.

(* ================================================================== *)
(** * Binary64 arithmetic: the sign of a difference                    *)
(* ================================================================== *)

Module Binary64.

Local Open Scope Z_scope.

(** The comparator of the rankers is a subtraction.  This module shows, on
    the specification of binary64 arithmetic ([SpecFloat]), that the rounded
    difference of two numbers is positive exactly when the exact difference
    is: rounding to nearest never turns a non-zero difference of two
    binary64 numbers into zero or changes its sign, because the difference
    is a multiple of the smallest subnormal. *)

(** A mantissa of [d] binary digits lies between [2^(d-1)] and [2^d]. *)
Lemma digits2_pos_bounds (m : positive) :
  2 ^ (Z.pos (digits2_pos m) - 1) <= Z.pos m < 2 ^ Z.pos (digits2_pos m).
Proof.
  induction m as [m IH|m IH|]; simpl digits2_pos.
  - rewrite Pos2Z.inj_succ.
    replace (Z.succ (Z.pos (digits2_pos m)) - 1) with (Z.succ (Z.pos (digits2_pos m) - 1)) by lia.
    rewrite !Z.pow_succ_r by lia. lia.
  - rewrite Pos2Z.inj_succ.
    replace (Z.succ (Z.pos (digits2_pos m)) - 1) with (Z.succ (Z.pos (digits2_pos m) - 1)) by lia.
    rewrite !Z.pow_succ_r by lia. lia.
  - simpl. lia.
Qed.

(** One step of the right shift halves the mantissa. *)
Lemma shr_1_m (r : shr_record) : 0 <= shr_m r -> shr_m (shr_1 r) = shr_m r / 2.
Proof.
  destruct r as [m b s]; cbn [shr_m shr_1]. intros Hm.
  destruct m as [|[p|p|]|p]; cbn [shr_m]; try reflexivity; try lia.
  - apply Z.div_unique with 1; lia.
  - apply Z.div_unique with 0; lia.
Qed.

Lemma pow2_xO (p : positive) : 2 ^ Z.pos p~0 = 2 ^ Z.pos p * 2 ^ Z.pos p.
Proof.
  replace (Z.pos p~0) with (Z.pos p + Z.pos p) by lia.
  apply Z.pow_add_r; lia.
Qed.

Lemma pow2_xI (p : positive) : 2 ^ Z.pos p~1 = 2 * (2 ^ Z.pos p * 2 ^ Z.pos p).
Proof.
  replace (Z.pos p~1) with (Z.succ (Z.pos p~0)) by lia.
  rewrite Z.pow_succ_r, pow2_xO by lia. reflexivity.
Qed.

Lemma iter_pos_shr_1_m (p : positive) : forall r : shr_record,
  0 <= shr_m r -> shr_m (SpecFloat.iter_pos shr_1 p r) = shr_m r / 2 ^ Z.pos p.
Proof.
  induction p as [p IH|p IH|]; intros r Hr; simpl SpecFloat.iter_pos.
  - assert (Hp : 0 < 2 ^ Z.pos p) by (apply Z.pow_pos_nonneg; lia).
    assert (H1 : 0 <= shr_m (shr_1 r)) by (rewrite shr_1_m by lia; apply Z.div_pos; lia).
    assert (H2 : 0 <= shr_m (SpecFloat.iter_pos shr_1 p (shr_1 r)))
      by (rewrite IH by lia; apply Z.div_pos; lia).
    rewrite IH, IH, shr_1_m by lia.
    rewrite !Z.div_div by lia.
    rewrite pow2_xI. reflexivity.
  - assert (Hp : 0 < 2 ^ Z.pos p) by (apply Z.pow_pos_nonneg; lia).
    assert (H2 : 0 <= shr_m (SpecFloat.iter_pos shr_1 p r))
      by (rewrite IH by lia; apply Z.div_pos; lia).
    rewrite IH, IH by lia.
    rewrite !Z.div_div by lia.
    rewrite pow2_xO. reflexivity.
  - rewrite shr_1_m by lia. reflexivity.
Qed.

Lemma shr_record_of_loc_m m l : shr_m (shr_record_of_loc m l) = m.
Proof. destruct l as [|[]]; reflexivity. Qed.

(** Shifting a positive mantissa to its canonical exponent, from an exponent
    that is at least [emin], leaves a positive mantissa. *)
Lemma shr_fexp_pos (m : positive) (e : Z) (l : location) :
  emin <= e ->
  0 < shr_m (fst (shr_fexp prec emax (Z.pos m) e l))
  /\ emin <= snd (shr_fexp prec emax (Z.pos m) e l).
Proof.
  intros He. unfold shr_fexp, shr, fexp. simpl Zdigits2.
  pose proof (digits2_pos_bounds m) as [Hlo _].
  set (d := Z.pos (digits2_pos m)) in *.
  destruct (Z.max (d + e - prec) (emin) - e) as [|n|n] eqn:Hn;
    simpl fst; simpl snd; rewrite ?shr_record_of_loc_m; try (split; lia).
  assert (Hnd : Z.pos n = d - prec) by lia.
  rewrite iter_pos_shr_1_m by (rewrite shr_record_of_loc_m; lia).
  rewrite shr_record_of_loc_m. split; [|lia].
  assert (Hle : 2 ^ Z.pos n <= Z.pos m).
  { apply Z.le_trans with (2 ^ (d - 1)); [|exact Hlo].
    apply Z.pow_le_mono_r; unfold prec in *; lia. }
  assert (H1 : 1 <= Z.pos m / 2 ^ Z.pos n).
  { apply Z.div_le_lower_bound; [apply Z.pow_pos_nonneg; lia | lia]. }
  lia.
Qed.

(** Rounding a positive mantissa gives a number of the given sign that is
    not zero (possibly an infinity). *)
Lemma binary_round_aux_sign (s : bool) (m : positive) (e : Z) (l : location) :
  emin <= e -> signed_nonzero s (binary_round_aux prec emax s (Z.pos m) e l).
Proof.
  intros He. unfold binary_round_aux.
  destruct (shr_fexp_pos m e l He) as [H1 H2].
  destruct (shr_fexp prec emax (Z.pos m) e l) as [r1 e1]. simpl in H1, H2.
  assert (H3 : 0 < round_nearest_even (shr_m r1) (loc_of_shr_record r1)).
  { unfold round_nearest_even.
    destruct (loc_of_shr_record r1) as [|[]]; try lia.
    destruct (Z.even (shr_m r1)); lia. }
  destruct (round_nearest_even (shr_m r1) (loc_of_shr_record r1)) as [|m2|m2]; try lia.
  destruct (shr_fexp_pos m2 e1 loc_Exact H2) as [H4 _].
  destruct (shr_fexp prec emax (Z.pos m2) e1 loc_Exact) as [r2 e2]. simpl in H4.
  destruct (shr_m r2) as [|m3|m3]; try lia.
  destruct (e2 <=? emax - prec); [left; eauto | right; reflexivity].
Qed.

Lemma binary_round_sign (s : bool) (m : positive) (e : Z) :
  emin <= e -> signed_nonzero s (binary_round prec emax s m e).
Proof.
  intros He. unfold binary_round, shl_align, fexp.
  destruct (Z.max (Z.pos (digits2_pos m) + e - prec) (emin) - e) eqn:Hn;
    apply binary_round_aux_sign; lia.
Qed.

(** The rounded value of the integer [M] at exponent [e] is positive exactly
    when [M] is. *)
Lemma SFltb_zero_normalize (M e : Z) :
  emin <= e ->
  SFltb (S754_zero false) (binary_normalize prec emax M e false) = (0 <? M).
Proof.
  intros He. destruct M as [|m|m]; simpl binary_normalize.
  - reflexivity.
  - destruct (binary_round_sign false m e He) as [(m' & e' & ->)| ->]; reflexivity.
  - destruct (binary_round_sign true m e He) as [(m' & e' & ->)| ->]; reflexivity.
Qed.

Lemma iter_xO_value (d m : positive) :
  Z.pos (Pos.iter xO m d) = Z.pos m * 2 ^ Z.pos d.
Proof.
  induction d as [|d IH] using Pos.peano_ind.
  - cbn [Pos.iter]. rewrite Z.pow_1_r. lia.
  - rewrite Pos.iter_succ, Pos2Z.inj_xO, IH, Pos2Z.inj_succ, Z.pow_succ_r by lia. lia.
Qed.

(** Aligning a mantissa to a smaller exponent multiplies it by the power of
    two between the exponents. *)
Lemma shl_align_value (m : positive) (e ez : Z) :
  ez <= e -> Z.pos (fst (shl_align m e ez)) = Z.pos m * 2 ^ (e - ez).
Proof.
  intros Hle. unfold shl_align.
  destruct (ez - e) as [|d|d] eqn:Hd; cbn [fst].
  - replace (e - ez) with 0 by lia. rewrite Z.pow_0_r. lia.
  - lia.
  - replace (e - ez) with (Z.pos d) by lia. apply iter_xO_value.
Qed.

(** A canonical binary64 number: its exponent is at least [emin], its
    mantissa has at most [prec] digits, and exactly [prec] above [emin]. *)
Lemma valid_finite_bounds (s : bool) (m : positive) (e : Z) :
  valid_binary (S754_finite s m e) = true ->
  emin <= e /\ Z.pos m < 2 ^ prec
  /\ (emin < e -> 2 ^ (prec - 1) <= Z.pos m).
Proof.
  unfold SpecFloat.valid_binary, bounded, canonical_mantissa, fexp.
  intros H. apply andb_true_iff in H. destruct H as [H _].
  apply Z.eqb_eq in H.
  pose proof (digits2_pos_bounds m) as [Hlo Hhi].
  set (d := Z.pos (digits2_pos m)) in *.
  assert (Hd : d <= prec /\ emin <= e /\ (emin < e -> d = prec)).
  { revert H. unfold SpecFloat.emin, prec, emax. lia. }
  destruct Hd as (Hd1 & Hd2 & Hd3).
  split; [exact Hd2|]. split.
  - apply Z.lt_le_trans with (2 ^ d); [exact Hhi|].
    apply Z.pow_le_mono_r; lia.
  - intros Hgt. rewrite <- (Hd3 Hgt). exact Hlo.
Qed.

(** Of two canonical numbers of one sign, the one with the smaller exponent
    is the smaller in magnitude. *)
Lemma aligned_lt (m1 m2 : positive) (e1 e2 : Z) (s1 s2 : bool) :
  valid_binary (S754_finite s1 m1 e1) = true ->
  valid_binary (S754_finite s2 m2 e2) = true ->
  e1 < e2 ->
  Z.pos m1 < Z.pos m2 * 2 ^ (e2 - e1).
Proof.
  intros V1 V2 Hlt.
  destruct (valid_finite_bounds _ _ _ V1) as (He1 & Hm1 & _).
  destruct (valid_finite_bounds _ _ _ V2) as (_ & _ & Hm2).
  specialize (Hm2 ltac:(lia)).
  assert (H2 : 2 ^ 1 <= 2 ^ (e2 - e1)) by (apply Z.pow_le_mono_r; lia).
  rewrite Z.pow_1_r in H2.
  assert (Hp : 2 ^ prec = 2 * 2 ^ (prec - 1)).
  { replace prec with (Z.succ (prec - 1)) at 1 by lia.
    rewrite Z.pow_succ_r; [reflexivity | unfold prec; lia]. }
  nia.
Qed.

(** The sign of a difference decides the comparison: in binary64 with gradual
    underflow, [x - y] is (strictly) positive exactly when [y < x]. *)
Lemma SFsub_pos (x y : spec_float) :
  valid_binary x = true -> valid_binary y = true ->
  SFltb (S754_zero false) (SF64sub x y) = SFltb y x.
Proof.
  intros Vx Vy.
  destruct x as [sx|sx| |sx mx ex], y as [sy|sy| |sy my ey];
    try reflexivity;
    try (destruct sx; reflexivity); try (destruct sy; reflexivity);
    try (destruct sx, sy; reflexivity).
  unfold SF64sub, SFsub.
  destruct (valid_finite_bounds _ _ _ Vx) as (Hex & _ & _).
  destruct (valid_finite_bounds _ _ _ Vy) as (Hey & _ & _).
  rewrite SFltb_zero_normalize by lia.
  rewrite !shl_align_value by lia.
  unfold SFltb, SFcompare.
  assert (P1 : 0 < 2 ^ (ex - Z.min ex ey)) by (apply Z.pow_pos_nonneg; lia).
  assert (P2 : 0 < 2 ^ (ey - Z.min ex ey)) by (apply Z.pow_pos_nonneg; lia).
  destruct (Z.compare_spec ey ex) as [Heq|Hlt|Hgt].
  - subst ey. rewrite Z.min_id, Z.sub_diag in *. simpl (2 ^ 0). rewrite !Z.mul_1_r.
    change (Pos.compare_cont Eq my mx) with (Pos.compare my mx).
    destruct (Pos.compare_spec my mx) as [E|L|G]; destruct sx, sy;
      cbv beta iota delta [cond_Zopp CompOpp];
      try subst; apply Z.ltb_lt || apply Z.ltb_ge; lia.
  - pose proof (aligned_lt my mx ey ex sy sx Vy Vx Hlt) as HA.
    rewrite Z.min_r in * by lia. rewrite Z.sub_diag in *. simpl (2 ^ 0) in *.
    rewrite Z.mul_1_r.
    destruct sx, sy; cbv beta iota delta [cond_Zopp CompOpp];
      apply Z.ltb_lt || apply Z.ltb_ge; lia.
  - pose proof (aligned_lt mx my ex ey sx sy Vx Vy Hgt) as HA.
    rewrite Z.min_l in * by lia. rewrite Z.sub_diag in *. simpl (2 ^ 0) in *.
    rewrite Z.mul_1_r.
    destruct sx, sy; cbv beta iota delta [cond_Zopp CompOpp];
      apply Z.ltb_lt || apply Z.ltb_ge; lia.
Qed.

End Binary64.

(* ================================================================== *)
(** * The order of binary64 numbers                                    *)
(* ================================================================== *)

Module FloatOrder.

Local Open Scope Z_scope.

(** [SFcompare] on numbers is the lexicographic comparison of their keys,
    and so a total order. *)

Lemma lex_spec (a b : Z * Z * Z) :
  match lex a b with
  | Lt => lexlt a b
  | Eq => a = b
  | Gt => lexlt b a
  end.
Proof.
  destruct a as [[a1 a2] a3], b as [[b1 b2] b3]. unfold lex, lexlt.
  destruct (Z.compare_spec a1 b1); [|lia|lia].
  destruct (Z.compare_spec a2 b2); [|lia|lia].
  destruct (Z.compare_spec a3 b3); [congruence|lia|lia].
Qed.

Lemma lexlt_irrefl a : ~ lexlt a a.
Proof. destruct a as [[a1 a2] a3]. unfold lexlt. lia. Qed.

Lemma lexlt_trans a b c : lexlt a b -> lexlt b c -> lexlt a c.
Proof.
  destruct a as [[a1 a2] a3], b as [[b1 b2] b3], c as [[c1 c2] c3].
  unfold lexlt. lia.
Qed.

Lemma SFcompare_key (x y : spec_float) :
  x <> S754_nan -> y <> S754_nan -> SFcompare x y = Some (lex (key x) (key y)).
Proof.
  intros Hx Hy.
  destruct x as [sx|sx| |sx mx ex], y as [sy|sy| |sy my ey]; try congruence;
    try (destruct sx; reflexivity); try (destruct sy; reflexivity);
    try (destruct sx, sy; reflexivity).
  destruct sx, sy; try reflexivity; unfold SFcompare, key, lex; f_equal.
  - change (-1 ?= -1) with Eq. cbv iota.
    rewrite !Z.compare_opp, (Z.compare_antisym ex ey).
    change (Z.pos my ?= Z.pos mx) with (Pos.compare my mx).
    rewrite (Pos.compare_antisym mx my).
    destruct (ex ?= ey); reflexivity.
Qed.

Lemma SFcompare_nan (x y : spec_float) :
  SFcompare x y = None <-> x = S754_nan \/ y = S754_nan.
Proof.
  split.
  - destruct x as [sx|sx| |sx mx ex], y as [sy|sy| |sy my ey]; simpl; intros H;
      auto; try discriminate; destruct sx; discriminate.
  - intros [-> | ->]; [reflexivity | destruct x; reflexivity].
Qed.

Lemma lex_refl (a : Z * Z * Z) : lex a a = Eq.
Proof.
  pose proof (lex_spec a a) as L.
  destruct (lex a a); [reflexivity| |]; exfalso; exact (lexlt_irrefl a L).
Qed.

Lemma lex_antisym (a b : Z * Z * Z) : lex b a = CompOpp (lex a b).
Proof.
  pose proof (lex_spec a b) as L1. pose proof (lex_spec b a) as L2.
  destruct (lex a b), (lex b a); try reflexivity; exfalso; subst;
    try (exact (lexlt_irrefl _ L1)); try (exact (lexlt_irrefl _ L2));
    exact (lexlt_irrefl _ (lexlt_trans _ _ _ L1 L2)).
Qed.

Lemma lex_le_trans (a b c : Z * Z * Z) :
  lex a b <> Gt -> lex b c <> Gt -> lex a c <> Gt.
Proof.
  pose proof (lex_spec a b) as L1. pose proof (lex_spec b c) as L2.
  pose proof (lex_spec a c) as L3.
  destruct (lex a b), (lex b c), (lex a c); try congruence; intros _ _ _; subst;
    try (exact (lexlt_irrefl _ L3));
    try (exact (lexlt_irrefl _ (lexlt_trans _ _ _ L1 L3)));
    try (exact (lexlt_irrefl _ (lexlt_trans _ _ _ L2 L3)));
    exact (lexlt_irrefl _ (lexlt_trans _ _ _ (lexlt_trans _ _ _ L1 L2) L3)).
Qed.

End FloatOrder.

(* ================================================================== *)
(** * Comparisons of JavaScript numbers                                *)
(* ================================================================== *)

Module JSNumber.

Local Open Scope float_scope.
Import FloatOrder.

Lemma is_nan_spec (x : float) : is_nan x = true <-> Prim2SF x = S754_nan.
Proof.
  unfold is_nan. rewrite FloatAxioms.eqb_spec. unfold SFeqb. split.
  - intros H. destruct (Prim2SF x) eqn:E; try reflexivity;
      rewrite SFcompare_key, lex_refl in H by congruence; discriminate.
  - intros ->. reflexivity.
Qed.

Lemma not_nan_spec (x : float) : is_nan x = false <-> Prim2SF x <> S754_nan.
Proof.
  split.
  - intros H E. apply is_nan_spec in E. congruence.
  - intros H. destruct (is_nan x) eqn:N; [|reflexivity].
    exfalso. apply H, is_nan_spec. exact N.
Qed.

Lemma compare_rank (x y : float) :
  is_nan x = false -> is_nan y = false ->
  SFcompare (Prim2SF x) (Prim2SF y) = Some (lex (rank x) (rank y)).
Proof.
  intros Hx Hy. apply SFcompare_key; apply not_nan_spec; assumption.
Qed.

Lemma compare_some (x y : float) (c : comparison) :
  SFcompare (Prim2SF x) (Prim2SF y) = Some c -> is_nan x = false /\ is_nan y = false.
Proof.
  intros H. split; apply not_nan_spec; intros E; rewrite E in H;
    [discriminate | destruct (Prim2SF x); discriminate].
Qed.

Lemma ltb_not_nan (x y : float) : (x <? y) = true -> is_nan x = false /\ is_nan y = false.
Proof.
  rewrite FloatAxioms.ltb_spec. unfold SFltb.
  destruct (SFcompare _ _) as [c|] eqn:E; [|discriminate].
  intros _. exact (compare_some _ _ _ E).
Qed.

Lemma leb_not_nan (x y : float) : (x <=? y) = true -> is_nan x = false /\ is_nan y = false.
Proof.
  rewrite FloatAxioms.leb_spec. unfold SFleb.
  destruct (SFcompare _ _) as [c|] eqn:E; [|discriminate].
  intros _. exact (compare_some _ _ _ E).
Qed.

Lemma eqb_not_nan (x y : float) : (x =? y) = true -> is_nan x = false /\ is_nan y = false.
Proof.
  rewrite FloatAxioms.eqb_spec. unfold SFeqb.
  destruct (SFcompare _ _) as [c|] eqn:E; [|discriminate].
  intros _. exact (compare_some _ _ _ E).
Qed.

Lemma ltb_leb (x y : float) : (x <? y) = true -> (x <=? y) = true.
Proof.
  rewrite FloatAxioms.ltb_spec, FloatAxioms.leb_spec. unfold SFltb, SFleb.
  destruct (SFcompare _ _) as [[]|]; auto.
Qed.

(** On numbers, [<=] is total: what is not below is above or equal. *)
Lemma leb_total (x y : float) :
  is_nan x = false -> is_nan y = false -> (x <? y) = false -> (y <=? x) = true.
Proof.
  intros Hx Hy. rewrite FloatAxioms.ltb_spec, FloatAxioms.leb_spec. unfold SFltb, SFleb.
  rewrite (compare_rank x y Hx Hy), (compare_rank y x Hy Hx), (lex_antisym (rank x) (rank y)).
  destruct (lex (rank x) (rank y)); simpl; congruence.
Qed.

Lemma leb_trans (x y z : float) :
  (x <=? y) = true -> (y <=? z) = true -> (x <=? z) = true.
Proof.
  intros H1 H2.
  destruct (leb_not_nan _ _ H1) as [Hx Hy]. destruct (leb_not_nan _ _ H2) as [_ Hz].
  revert H1 H2. rewrite !FloatAxioms.leb_spec. unfold SFleb.
  rewrite (compare_rank x y Hx Hy), (compare_rank y z Hy Hz), (compare_rank x z Hx Hz).
  pose proof (lex_le_trans (rank x) (rank y) (rank z)) as T.
  destruct (lex (rank x) (rank y)), (lex (rank y) (rank z)), (lex (rank x) (rank z));
    try reflexivity; try discriminate; intros _ _; exfalso; apply T; congruence.
Qed.

(** Two numbers equal to a third are not strictly ordered. *)
Lemma eqb_not_ltb (x y v : float) :
  (x =? v) = true -> (y =? v) = true -> (x <? y) = false.
Proof.
  intros H1 H2.
  destruct (eqb_not_nan _ _ H1) as [Hx Hv]. destruct (eqb_not_nan _ _ H2) as [Hy _].
  revert H1 H2. rewrite !FloatAxioms.eqb_spec, FloatAxioms.ltb_spec. unfold SFeqb, SFltb.
  rewrite (compare_rank x v Hx Hv), (compare_rank y v Hy Hv), (compare_rank x y Hx Hy).
  pose proof (lex_spec (rank x) (rank v)) as L1.
  pose proof (lex_spec (rank y) (rank v)) as L2.
  destruct (lex (rank x) (rank v)); try discriminate.
  destruct (lex (rank y) (rank v)); try discriminate.
  intros _ _. rewrite L1, L2, lex_refl. reflexivity.
Qed.

Lemma leb_refl (x : float) : is_nan x = false -> (x <=? x) = true.
Proof.
  intros Hx. rewrite FloatAxioms.leb_spec. unfold SFleb.
  rewrite (compare_rank x x Hx Hx), lex_refl. reflexivity.
Qed.

(** Comparing with either of two equal numbers gives the same answer. *)
Lemma eqb_leb_r (x v t : float) : (x =? v) = true -> (t <=? x) = (t <=? v).
Proof.
  intros H. destruct (eqb_not_nan _ _ H) as [Hx Hv].
  assert (R : rank x = rank v).
  { revert H. rewrite FloatAxioms.eqb_spec. unfold SFeqb.
    rewrite (compare_rank x v Hx Hv).
    pose proof (lex_spec (rank x) (rank v)) as L.
    destruct (lex (rank x) (rank v)); try discriminate. intros _. exact L. }
  destruct (is_nan t) eqn:Ht.
  - apply is_nan_spec in Ht. rewrite !FloatAxioms.leb_spec, Ht. reflexivity.
  - rewrite !FloatAxioms.leb_spec. unfold SFleb.
    rewrite (compare_rank t x Ht Hx), (compare_rank t v Ht Hv), R. reflexivity.
Qed.

Lemma eqb_refl (x : float) : is_nan x = false -> (x =? x) = true.
Proof.
  intros Hx. rewrite FloatAxioms.eqb_spec. unfold SFeqb.
  rewrite (compare_rank x x Hx Hx), lex_refl. reflexivity.
Qed.

Lemma leb_antisym (x y : float) :
  (x <=? y) = true -> (y <=? x) = true -> (x =? y) = true.
Proof.
  intros H1 H2. destruct (leb_not_nan _ _ H1) as [Hx Hy].
  revert H1 H2. rewrite !FloatAxioms.leb_spec, FloatAxioms.eqb_spec. unfold SFleb, SFeqb.
  rewrite (compare_rank x y Hx Hy), (compare_rank y x Hy Hx),
    (lex_antisym (rank x) (rank y)).
  destruct (lex (rank x) (rank y)); simpl; congruence.
Qed.

(** The comparator [b.similarity - a.similarity] is positive exactly when
    [a.similarity < b.similarity]. *)
Lemma sub_pos (x y : float) : (0 <? y - x) = (x <? y).
Proof.
  rewrite !FloatAxioms.ltb_spec, sub_spec.
  change (Prim2SF 0) with (S754_zero false).
  apply Binary64.SFsub_pos; apply Prim2SF_valid.
Qed.

End JSNumber.

(* ================================================================== *)
(** * Array.prototype.sort, filter and slice                           *)
(* ================================================================== *)

Module ArrayFacts.

Section Sorting.

Context {A : Type}.
Variable cmp : A -> A -> float.

Lemma sort_insert_perm (x : A) (l : list A) :
  Permutation (JS.sort_insert cmp x l) (x :: l).
Proof.
  induction l as [|y l IH]; simpl.
  - apply Permutation_refl.
  - destruct (0 <? cmp x y)%float.
    + apply perm_trans with (y :: x :: l); [apply perm_skip, IH | apply perm_swap].
    + apply Permutation_refl.
Qed.

Lemma sort_perm (l : list A) : Permutation (JS.sort cmp l) l.
Proof.
  induction l as [|x l IH]; simpl.
  - apply perm_nil.
  - apply perm_trans with (x :: JS.sort cmp l).
    + apply sort_insert_perm.
    + apply perm_skip, IH.
Qed.

Lemma sort_In (x : A) (l : list A) : In x (JS.sort cmp l) <-> In x l.
Proof.
  split; apply Permutation_in; [|apply Permutation_sym]; apply sort_perm.
Qed.

Lemma sort_Forall (P : A -> Prop) (l : list A) : Forall P l -> Forall P (JS.sort cmp l).
Proof.
  intros H. apply Forall_forall. intros x Hx.
  apply (proj1 (sort_In x l)) in Hx.
  exact (proj1 (Forall_forall P l) H x Hx).
Qed.

Lemma sort_length (l : list A) : List.length (JS.sort cmp l) = List.length l.
Proof. apply Permutation_length, sort_perm. Qed.

(** A sort that only moves an element behind a later one when the
    comparator is positive leaves every class of a predicate in place, as
    soon as the comparator is never positive inside the class. *)
Variable p : A -> bool.
Hypothesis class_tied :
  forall x y, p x = true -> p y = true -> (0 <? cmp x y)%float = false.

Lemma sort_insert_filter (x : A) (l : list A) :
  filter p (JS.sort_insert cmp x l) = filter p (x :: l).
Proof.
  induction l as [|y l IH]; [reflexivity|].
  cbn [JS.sort_insert].
  destruct (0 <? cmp x y)%float eqn:E; [|reflexivity].
  cbn [filter] in *. rewrite IH.
  destruct (p x) eqn:Px, (p y) eqn:Py; try reflexivity.
  rewrite (class_tied x y Px Py) in E. discriminate.
Qed.

Lemma sort_filter (l : list A) : filter p (JS.sort cmp l) = filter p l.
Proof.
  induction l as [|x l IH]; [reflexivity|].
  cbn [JS.sort fold_right]. fold (JS.sort cmp l).
  rewrite sort_insert_filter. cbn [filter]. rewrite IH. reflexivity.
Qed.

End Sorting.

Section Sortedness.

Context {A : Type}.
Variable cmp : A -> A -> float.
Variable ok : A -> Prop.
Variable before : A -> A -> Prop.
Hypothesis positive_swaps :
  forall x y, ok x -> ok y -> (0 <? cmp x y)%float = true -> before y x.
Hypothesis otherwise_keeps :
  forall x y, ok x -> ok y -> (0 <? cmp x y)%float = false -> before x y.

Lemma sort_insert_sorted (x : A) (l : list A) :
  ok x -> Forall ok l -> Sorted before l -> Sorted before (JS.sort_insert cmp x l).
Proof.
  intros Hx Hl Hs. induction l as [|y l IH]; simpl.
  - constructor; constructor.
  - inversion Hl as [|? ? Hy Hl']; subst. inversion Hs as [|? ? Hs' Hd]; subst.
    destruct (0 <? cmp x y)%float eqn:E.
    + constructor; [apply IH; assumption|].
      destruct l as [|z l]; simpl.
      * constructor. apply positive_swaps; assumption.
      * destruct (0 <? cmp x z)%float.
        -- inversion Hd; subst. constructor. assumption.
        -- constructor. apply positive_swaps; assumption.
    + constructor; [assumption|]. constructor. apply otherwise_keeps; assumption.
Qed.

Lemma sort_sorted (l : list A) : Forall ok l -> Sorted before (JS.sort cmp l).
Proof.
  induction l as [|x l IH]; intros H; simpl.
  - constructor.
  - inversion H; subst. apply sort_insert_sorted; auto.
    apply sort_Forall. assumption.
Qed.

End Sortedness.

Lemma Sorted_firstn {A : Type} (R : A -> A -> Prop) (n : nat) (l : list A) :
  Sorted R l -> Sorted R (firstn n l).
Proof.
  revert l. induction n as [|n IH]; intros l H; [constructor|].
  destruct l as [|x l]; [constructor|]. simpl.
  inversion H as [|? ? Hs Hd]; subst. constructor; [apply IH; assumption|].
  destruct l as [|y l]; [destruct n; constructor|].
  destruct n; simpl; constructor. inversion Hd; assumption.
Qed.

Lemma Forall_firstn' {A : Type} (P : A -> Prop) (n : nat) (l : list A) :
  Forall P l -> Forall P (firstn n l).
Proof.
  revert l. induction n as [|n IH]; intros l H; [constructor|].
  destruct H as [|x l Hx Hl]; simpl; constructor; auto.
Qed.

Lemma filter_firstn_prefix {A : Type} (p : A -> bool) (n : nat) (l : list A) :
  exists rest, filter p l = filter p (firstn n l) ++ rest.
Proof.
  exists (filter p (skipn n l)).
  rewrite <- filter_app, firstn_skipn. reflexivity.
Qed.

Lemma slice0_In {A : Type} (n : nat) (x : A) (l : list A) :
  In x (JS.slice0 n l) -> In x l.
Proof.
  unfold JS.slice0. revert l.
  induction n as [|n IH]; intros [|y l]; simpl; try tauto.
  intros [->|H]; [left; reflexivity | right; apply IH; exact H].
Qed.

Lemma slice0_length {A : Type} (n : nat) (l : list A) : List.length (JS.slice0 n l) <= n.
Proof. unfold JS.slice0. apply firstn_le_length. Qed.

(** [slice(0, 3)] called with the number 3 keeps at most three elements. *)
Lemma sliceTo_3_length {A : Type} (l : list A) : List.length (JS.sliceTo 3%float l) <= 3.
Proof.
  unfold JS.sliceTo. rewrite length_firstn.
  unfold JS.sliceEnd, JS.ToIntegerOrInfinity.
  change (Prim2SF 3%float) with (S754_finite false 6755399441055744 (-51)).
  cbn [cond_Zopp]. change (Z.shiftl 6755399441055744 (-51)) with 3%Z.
  cbn [Z.ltb Z.compare]. lia.
Qed.

End ArrayFacts.

(* ================================================================== *)
(** * Ranking by similarity                                            *)
(* ================================================================== *)

Module RankingFacts.

Local Open Scope float_scope.

Lemma comparator_positive (x y : Scored) :
  (0 <? bySimilarityDesc x y) = (similarity x <? similarity y).
Proof. unfold bySimilarityDesc. apply JSNumber.sub_pos. Qed.

Lemma sort_descending (l : list Scored) :
  Forall isNumber l -> descending (JS.sort bySimilarityDesc l).
Proof.
  apply (ArrayFacts.sort_sorted bySimilarityDesc isNumber atLeast).
  - intros x y _ _. rewrite comparator_positive. apply JSNumber.ltb_leb.
  - intros x y Hx Hy. rewrite comparator_positive. apply JSNumber.leb_total; assumption.
Qed.

Lemma sort_tied (v : float) (l : list Scored) :
  tied v (JS.sort bySimilarityDesc l) = tied v l.
Proof.
  apply ArrayFacts.sort_filter. intros x y Hx Hy.
  rewrite comparator_positive. exact (JSNumber.eqb_not_ltb _ _ _ Hx Hy).
Qed.

Lemma filter_isNumber (threshold : float) (l : list Scored) :
  Forall isNumber (filter (fun item => threshold <=? similarity item) l).
Proof.
  apply Forall_forall. intros x Hx. apply filter_In in Hx.
  exact (proj2 (JSNumber.leb_not_nan _ _ (proj2 Hx))).
Qed.

Lemma tied_filter_threshold (v threshold : float) (l : list Scored) :
  tied v (filter (fun item => threshold <=? similarity item) l)
  = if threshold <=? v then tied v l else [].
Proof.
  unfold tied. induction l as [|x l IH]; simpl.
  - destruct (threshold <=? v); reflexivity.
  - destruct (similarity x =? v) eqn:E.
    + rewrite (JSNumber.eqb_leb_r _ _ threshold E).
      destruct (threshold <=? v) eqn:T; simpl; rewrite ?E, IH; reflexivity.
    + destruct (threshold <=? similarity x); simpl; rewrite ?E; exact IH.
Qed.

(** A count within the index [final] of [slice(0, end)] is at most [end],
    when [end] is not negative. *)
Lemma leNat_sliceEnd (end_ : float) (len n : nat) :
  (0 <=? end_) = true -> (n <= JS.sliceEnd end_ len)%nat -> JS.leNat n end_ = true.
Proof.
  rewrite FloatAxioms.leb_spec. unfold SFleb, SFcompare, JS.sliceEnd, JS.leNat, JS.ToIntegerOrInfinity.
  change (Prim2SF 0) with (S754_zero false).
  destruct (Prim2SF end_) as [s|[|]| |[|] m e]; try discriminate; intros _ H.
  - apply Nat.eqb_eq. cbn in H. lia.
  - reflexivity.
  - cbn [cond_Zopp] in H. apply Z.leb_le.
    pose proof (Z.shiftl_nonneg (Z.pos m) e) as P.
    destruct (Z.ltb_spec (Z.shiftl (Z.pos m) e) 0); lia.
Qed.

(** Filter by threshold, stable sort by descending similarity, truncate:
    the contract of the ranker, whatever scored the input. *)
Lemma filter_sort_slice_contract (input : list Scored) (topK : float) (threshold : float) :
  rankerContract input
    (JS.sliceTo topK
       (JS.sort bySimilarityDesc
          (filter (fun item => threshold <=? similarity item) input)))
    topK threshold.
Proof.
  unfold rankerContract, JS.sliceTo.
  set (final := JS.sliceEnd topK _). repeat split.
  - apply ArrayFacts.Sorted_firstn, sort_descending, filter_isNumber.
  - intros v.
    destruct (ArrayFacts.filter_firstn_prefix (fun c => similarity c =? v) final
                (JS.sort bySimilarityDesc
                   (filter (fun item => threshold <=? similarity item) input)))
      as [rest Hrest].
    pose proof (sort_tied v (filter (fun item => threshold <=? similarity item) input)) as S.
    pose proof (tied_filter_threshold v threshold input) as T.
    unfold tied in *. rewrite S, T in Hrest.
    destruct (threshold <=? v).
    + exists rest. exact Hrest.
    + exists (filter (fun c => similarity c =? v) input).
      symmetry in Hrest. apply app_eq_nil in Hrest. destruct Hrest as [-> _].
      reflexivity.
  - apply ArrayFacts.Forall_firstn', ArrayFacts.sort_Forall.
    apply Forall_forall. intros x Hx. apply filter_In in Hx. exact (proj2 Hx).
  - intros H. eapply leNat_sliceEnd; [exact H|]. apply firstn_le_length.
Qed.

Lemma atLeast_trans : Transitive atLeast.
Proof.
  intros a b c H1 H2. unfold atLeast in *. exact (JSNumber.leb_trans _ _ _ H2 H1).
Qed.

Lemma descending_head (x : Scored) (l : list Scored) :
  descending (x :: l) -> Forall (atLeast x) l /\ descending l.
Proof.
  intros H. apply (Sorted_StronglySorted atLeast_trans) in H.
  apply StronglySorted_inv in H. destruct H as [H1 H2].
  split; [exact H2 | apply StronglySorted_Sorted; exact H1].
Qed.

Lemma tied_In (v : float) (x : Scored) (l : list Scored) :
  In x (tied v l) <-> In x l /\ (similarity x =? v) = true.
Proof. unfold tied. apply filter_In. Qed.

(** A descending list of numbers is determined by its tie classes: any two
    stable descending sorts of one array agree. *)
Lemma stable_sort_unique (l1 : list Scored) : forall l2 : list Scored,
  Forall isNumber l1 -> Forall isNumber l2 ->
  descending l1 -> descending l2 ->
  (forall v, tied v l1 = tied v l2) ->
  l1 = l2.
Proof.
  induction l1 as [|x l1 IH]; intros l2 N1 N2 D1 D2 T.
  - destruct l2 as [|y l2]; [reflexivity|].
    inversion N2 as [|? ? Ny _]; subst.
    specialize (T (similarity y)). unfold tied in T. simpl in T.
    rewrite (JSNumber.eqb_refl _ Ny) in T. discriminate.
  - inversion N1 as [|? ? Nx N1']; subst.
    destruct l2 as [|y l2].
    { specialize (T (similarity x)). unfold tied in T. simpl in T.
      rewrite (JSNumber.eqb_refl _ Nx) in T. discriminate. }
    inversion N2 as [|? ? Ny N2']; subst.
    destruct (descending_head _ _ D1) as [M1 D1'].
    destruct (descending_head _ _ D2) as [M2 D2'].
    assert (E : (similarity y =? similarity x) = true).
    { assert (Hx : In x (y :: l2)).
      { apply (tied_In (similarity x) x (y :: l2)). rewrite <- T.
        apply tied_In. split; [left; reflexivity | apply JSNumber.eqb_refl; exact Nx]. }
      assert (Hy : In y (x :: l1)).
      { apply (tied_In (similarity y) y (x :: l1)). rewrite T.
        apply tied_In. split; [left; reflexivity | apply JSNumber.eqb_refl; exact Ny]. }
      destruct Hx as [->|Hx]; [apply JSNumber.eqb_refl; exact Nx|].
      destruct Hy as [->|Hy]; [apply JSNumber.eqb_refl; exact Nx|].
      apply JSNumber.leb_antisym.
      - exact (proj1 (Forall_forall _ _) M1 y Hy).
      - exact (proj1 (Forall_forall _ _) M2 x Hx). }
    assert (Exy : x = y).
    { pose proof (T (similarity x)) as Tx. unfold tied in Tx. simpl in Tx.
      rewrite (JSNumber.eqb_refl _ Nx), E in Tx. congruence. }
    subst y. f_equal. apply IH; auto.
    intros v. specialize (T v). unfold tied in *. simpl in T.
    destruct (similarity x =? v); congruence.
Qed.

(** What [JS.sort] returns is that stable descending sort. *)
Lemma sort_is_the_stable_sort (l sorted : list Scored) :
  Forall isNumber l -> Forall isNumber sorted ->
  descending sorted ->
  (forall v, tied v sorted = tied v l) ->
  sorted = JS.sort bySimilarityDesc l.
Proof.
  intros Nl Ns D T. apply stable_sort_unique; auto.
  - apply ArrayFacts.sort_Forall. exact Nl.
  - apply sort_descending. exact Nl.
  - intros v. rewrite sort_tied. apply T.
Qed.



End RankingFacts.

(* ================================================================== *)
(** * The ranker (specification 4.3)                                   *)
(* ================================================================== *)

Local Open Scope float_scope.

(** C3.  For every query vector, chunk list, [topK] and [threshold], the list
    returned by [findSimilarChunks] (of [DemoVectorService] and of
    [VectorService]) is sorted non-increasing by similarity, ties keep the
    order of the input, and every returned similarity is [>= threshold].
    The list has at most [topK] elements when [topK] is not negative
    (fractional values and [Infinity] included).  The threshold and [topK]
    are any binary64 values, [NaN] included. *)
Theorem C3_findSimilarChunks_contract :
  forall (queryEmbedding : list float) (chunks : list VectorChunk)
         (topK : float) (threshold : float),
    rankerContract
      (scoredBy DemoVectorService.cosineSimilarity queryEmbedding chunks)
      (DemoVectorService.findSimilarChunks queryEmbedding chunks topK threshold)
      topK threshold
    /\ rankerContract
         (scoredBy VectorService.cosineSimilarity queryEmbedding chunks)
         (VectorService.findSimilarChunks queryEmbedding chunks topK threshold)
         topK threshold.
Proof.
  intros q chunks topK threshold. split.
  - unfold DemoVectorService.findSimilarChunks.
    apply (RankingFacts.filter_sort_slice_contract
             (scoredBy DemoVectorService.cosineSimilarity q chunks)).
  - unfold VectorService.findSimilarChunks.
    apply (RankingFacts.filter_sort_slice_contract
             (scoredBy VectorService.cosineSimilarity q chunks)).
Qed.

Lemma C3_contract_witness :
  (0 <=? 2) = true
  /\ JS.leNat
       (List.length (DemoVectorService.findSimilarChunks [1] fiveChunks 2 0.01)) 2
     = true.
Proof.
  split; [reflexivity|].
  exact (proj2 (proj2 (proj2 (proj1 (C3_findSimilarChunks_contract [1] fiveChunks 2 0.01))))
           eq_refl).
Defined.

(** For a negative [topK] the bound on the length fails: [slice(0, -1)]
    counts from the end of the array, so of five chunks that pass the
    threshold four are returned. *)
Lemma C3_negative_topK_counterexample :
  List.length (DemoVectorService.findSimilarChunks [1] fiveChunks (-1) 0.01) = 4%nat
  /\ List.length (VectorService.findSimilarChunks [1] fiveChunks (-1) 0.7) = 4%nat
  /\ JS.leNat 4 (-1) = false
  /\ (4 <=? -1) = false.
Proof. repeat split; vm_compute; reflexivity. Qed.

(** Every element that filter, sort and slice return was scored from a chunk
    of the input. *)
Lemma ranked_from_input (cos : list float -> list float -> float)
    (q : list float) (chunks : list VectorChunk) (topK : nat) (threshold : float)
    (c : Scored) :
  In c (JS.slice0 topK
          (JS.sort bySimilarityDesc
             (filter (fun item => threshold <=? similarity item)
                     (scoredBy cos q chunks)))) ->
  In (chunk c) chunks.
Proof.
  intros H. apply ArrayFacts.slice0_In in H.
  apply ArrayFacts.sort_In in H. apply filter_In in H. destruct H as [H _].
  unfold scoredBy in H. apply in_map_iff in H. destruct H as (x & <- & Hx).
  exact Hx.
Qed.

(** C4.  Every chunk that [findSimilarChunksByType] returns for a requested
    category has that category in its metadata: a call with ["transcript"]
    never returns a chunk of another category. *)
Theorem C4_findSimilarChunksByType_category :
  forall (queryEmbedding : list float) (chunks : list VectorChunk)
         (ty : DocType) (topK : float) (threshold : float),
    Forall (fun c => type (metadata (chunk c)) = ty)
      (DemoVectorService.findSimilarChunksByType queryEmbedding chunks ty topK threshold)
    /\ Forall (fun c => type (metadata (chunk c)) = ty)
         (VectorService.findSimilarChunksByType queryEmbedding chunks ty topK threshold)
    /\ Forall (fun c => type (metadata (chunk c)) = ty)
         (EnhancedRAGService.findSimilarChunksByType queryEmbedding chunks ty topK).
Proof.
  intros q chunks ty topK threshold.
  assert (K : forall c, In c (filter (fun c => DocType_eqb (type (metadata c)) ty) chunks) ->
                        type (metadata c) = ty).
  { intros c Hc. apply filter_In in Hc. destruct Hc as [_ Hc].
    apply String.eqb_eq. exact Hc. }
  repeat split; apply Forall_forall; intros c Hc; apply K.
  - exact (ranked_from_input DemoVectorService.cosineSimilarity _ _ _ _ _ Hc).
  - exact (ranked_from_input VectorService.cosineSimilarity _ _ _ _ _ Hc).
  - exact (ranked_from_input EnhancedRAGService.cosineSimilarity _ _ _ 0.3 _ Hc).
Qed.

(* ================================================================== *)
(** * Fusion of the two ranked lists (specification 4.5, state Ranked) *)
(* ================================================================== *)



(* ================================================================== *)
(** * The fallback content analyzer (specification 4.6)                *)
(* ================================================================== *)

Lemma Math_min_le_r (a b : float) :
  is_nan (JS.Math_min a b) = false -> (JS.Math_min a b <=? b) = true.
Proof.
  unfold JS.Math_min.
  destruct (is_nan a) eqn:Na; [intros H; discriminate H|].
  destruct (is_nan b) eqn:Nb; [intros H; discriminate H|].
  cbn [orb]. intros _.
  destruct (a <? b) eqn:Lab; [apply JSNumber.ltb_leb; exact Lab|].
  destruct (b <? a) eqn:Lba; [apply JSNumber.leb_refl; exact Nb|].
  destruct (classify a); try (apply JSNumber.leb_refl; exact Nb).
  apply JSNumber.leb_total; assumption.
Qed.

(** C7.  For every query and chunk list the fallback content analyzer
    returns at most 5 chunks, each with a score above 0.2 and at most 0.95.
    For the single transcript chunk "Nathan discussed stress about property
    taxes" and the query "What did Nathan say about stress?" the chunk is
    returned, with similarity 0.95. *)
Theorem C7_findRelevantChunks_bounds :
  (forall (query : string) (chunks : list VectorChunk),
     List.length (DemoProcessor.findRelevantChunks query chunks) <= 5
     /\ Forall (fun c => (0.2 <? similarity c) = true /\ (similarity c <=? 0.95) = true)
          (DemoProcessor.findRelevantChunks query chunks))
  /\ (forall (i : string) (e : list float) (d : Z) (name : string) (k : Z),
        let c := {| id := i; text := "Nathan discussed stress about property taxes";
                    embedding := e;
                    metadata := {| documentId := d; documentName := name;
                                   type := transcript; chunkIndex := k |} |} in
        DemoProcessor.findRelevantChunks "What did Nathan say about stress?" [c]
        = [ {| chunk := c; similarity := 0.95 |} ]).
Proof.
  split.
  - intros query chunks. unfold DemoProcessor.findRelevantChunks.
    split; [apply ArrayFacts.slice0_length|].
    apply Forall_forall. intros c Hc.
    apply ArrayFacts.slice0_In in Hc. apply ArrayFacts.sort_In in Hc.
    apply filter_In in Hc. destruct Hc as [Hin Hlow].
    split; [exact Hlow|].
    apply in_map_iff in Hin. destruct Hin as (x & <- & _).
    cbn [similarity] in *. apply Math_min_le_r.
    exact (proj2 (JSNumber.ltb_not_nan _ _ Hlow)).
  - intros i e d name k c.
    unfold DemoProcessor.findRelevantChunks, DemoProcessor.score.
    cbn [map metadata documentName text].
    subst c. cbn [metadata documentName text].
    destruct (JS.includes (JS.toLowerCase name) "nathan"); vm_compute; reflexivity.
Qed.

(* ================================================================== *)
(** * Cosine similarity on vectors of different lengths                *)
(* ================================================================== *)

(** [DemoVectorService.cosineSimilarity] guards the lengths: a mismatch
    scores 0. *)
Lemma Demo_cosineSimilarity_mismatch (a b : list float) :
  (List.length a =? List.length b)%nat = false ->
  DemoVectorService.cosineSimilarity a b = 0.
Proof.
  intros H. unfold DemoVectorService.cosineSimilarity. rewrite H. reflexivity.
Qed.

(** C2.  On [[1,2,3]] and [[1,2]] the guarded implementation returns 0, while
    the unguarded ones ([VectorService], [EnhancedRAGService]) neither raise
    nor return 0: they return [NaN]; with the shorter vector first they
    return the cosine of the common prefix scaled by the full norms, a
    positive number.  The implementations do not apply one behaviour. *)
Theorem C2_cosineSimilarity_dimension_mismatch :
  DemoVectorService.cosineSimilarity [1; 2; 3] [1; 2] = 0
  /\ VectorService.cosineSimilarity [1; 2; 3] [1; 2] = nan
  /\ EnhancedRAGService.cosineSimilarity [1; 2; 3] [1; 2] = nan
  /\ VectorService.cosineSimilarity [1; 2] [1; 2; 3] = 5 / (sqrt 5 * sqrt 14)
  /\ (0 <? VectorService.cosineSimilarity [1; 2] [1; 2; 3]) = true.
Proof. repeat split; vm_compute; reflexivity. Qed.

(* ================================================================== *)
(** * The empty corpus                                                 *)
(* ================================================================== *)

(** C6.  If the chunk collection is empty, [processQuery] (and
    [processQueryWithFallbacks]) returns without raising, with no sources
    and an answer that asks to upload documents; no backend other than the
    storage is entered. *)
Theorem C6_empty_corpus :
  forall (stripGenerated : string -> string) (env : Env) (query : string),
    env_getAllVectorChunks env 0 = Returned [] ->
    let response :=
      {| answer := "No documents have been indexed yet. Please upload and process some documents first.";
         sources := [];
         reasoning := "No vector data available for retrieval." |} in
    RAGService.processQuery stripGenerated env query [] = (Returned response, [GetAllVectorChunks])
    /\ EnhancedRAGService.processQueryWithFallbacks env query []
       = (Returned response, [GetAllVectorChunks])
    /\ sources response = []
    /\ JS.includes (answer response) "Please upload" = true.
Proof.
  intros strip env query H response. repeat split.
  - unfold RAGService.processQuery, try_catch, bind, getAllVectorChunks.
    cbn [count_calls filter List.length]. rewrite H. reflexivity.
  - unfold EnhancedRAGService.processQueryWithFallbacks, try_catch, bind, getAllVectorChunks.
    cbn [count_calls filter List.length]. rewrite H. reflexivity.
Qed.

Lemma C6_empty_corpus_witness :
  env_getAllVectorChunks emptyEnv 0 = Returned []
  /\ RAGService.processQuery (fun s => s) emptyEnv "anything" []
     = (Returned
          {| answer := "No documents have been indexed yet. Please upload and process some documents first.";
             sources := [];
             reasoning := "No vector data available for retrieval." |},
        [GetAllVectorChunks]).
Proof.
  split; [reflexivity|].
  exact (proj1 (C6_empty_corpus (fun s => s) emptyEnv "anything" eq_refl)).
Defined.

(* ================================================================== *)
(** * Sources of the content-analysis response of RAGService           *)
(* ================================================================== *)

Local Open Scope nat_scope.

Section ContentAnalysisSources.

Variable stripGenerated : string -> string.

(** When the query names Robert and a chunk matches, the response lists every
    relevant chunk and then again up to three of the matching ones. *)
Lemma robert_branch_sources (query : string) (relevantChunks : list Scored) :
  JS.includes (JS.toLowerCase query) "robert" = true ->
  RAGService.directChunks "robert" relevantChunks <> [] ->
  sources (RAGService.generateContentAnalysisResponse stripGenerated query relevantChunks)
  = map RAGService.sourceOf relevantChunks
    ++ map (RAGService.cleanSourceOf stripGenerated)
         (JS.slice0 3 (RAGService.directChunks "robert" relevantChunks)).
Proof.
  intros Hq Hd. unfold RAGService.generateContentAnalysisResponse.
  destruct relevantChunks as [|c l]; [exfalso; apply Hd; reflexivity|].
  cbn [List.length Nat.eqb]. rewrite Hq.
  destruct (RAGService.directChunks "robert" (c :: l)) as [|d ds] eqn:E; [congruence|].
  reflexivity.
Qed.

(** The same for Nathan, when the branch for Robert is not taken. *)
Lemma nathan_branch_sources (query : string) (relevantChunks : list Scored) :
  JS.includes (JS.toLowerCase query) "robert"
  && (0 <? List.length (RAGService.directChunks "robert" relevantChunks)) = false ->
  JS.includes (JS.toLowerCase query) "nathan" = true ->
  RAGService.directChunks "nathan" relevantChunks <> [] ->
  sources (RAGService.generateContentAnalysisResponse stripGenerated query relevantChunks)
  = map RAGService.sourceOf relevantChunks
    ++ map (RAGService.cleanSourceOf stripGenerated)
         (JS.slice0 3 (RAGService.directChunks "nathan" relevantChunks)).
Proof.
  intros Hr Hq Hd. unfold RAGService.generateContentAnalysisResponse.
  destruct relevantChunks as [|c l]; [exfalso; apply Hd; reflexivity|].
  cbn [List.length Nat.eqb]. cbn [List.length] in Hr. rewrite Hr, Hq.
  destruct (RAGService.directChunks "nathan" (c :: l)) as [|d ds] eqn:E; [congruence|].
  reflexivity.
Qed.

(** The first matching chunk is then listed at least twice. *)
Lemma pushed_chunk_listed_twice (name : string) (relevantChunks : list Scored)
    (d : Scored) (ds : list Scored) :
  RAGService.directChunks name relevantChunks = d :: ds ->
  2 <= count_occ string_dec
         (map src_chunkId
            (map RAGService.sourceOf relevantChunks
             ++ map (RAGService.cleanSourceOf stripGenerated)
                  (JS.slice0 3 (RAGService.directChunks name relevantChunks))))
         (id (chunk d)).
Proof.
  intros E. rewrite map_app, count_occ_app, E.
  cbn [JS.slice0 firstn map RAGService.cleanSourceOf src_chunkId count_occ].
  destruct (string_dec (id (chunk d)) (id (chunk d))) as [_|N]; [|congruence].
  assert (Hin : In d relevantChunks).
  { assert (H : In d (RAGService.directChunks name relevantChunks))
      by (rewrite E; left; reflexivity).
    unfold RAGService.directChunks in H. apply filter_In in H. apply H. }
  assert (1 <= count_occ string_dec
                 (map src_chunkId (map RAGService.sourceOf relevantChunks))
                 (id (chunk d))).
  { apply count_occ_In. rewrite map_map. apply in_map_iff.
    exists d. split; [reflexivity|exact Hin]. }
  lia.
Qed.

End ContentAnalysisSources.

(** C9.  There are a query and a non-empty chunk set for which the sources of
    the content-analysis response hold the same chunk id more than once and
    have more than 5 entries: with three stored chunks of Nathan's session and
    the query "How is Nathan doing?", [processQuery] returns six sources, the
    three chunks followed by the same three again.  In general, when the
    query names a client and a relevant chunk matches, every relevant chunk
    is listed and up to three matching chunks are pushed after them, so the
    first match is listed at least twice. *)
Theorem C9_content_analysis_sources_repeat :
  forall stripGenerated : string -> string,
    (exists response,
       RAGService.processQuery stripGenerated unembeddedEnv "How is Nathan doing?" []
       = (Returned response, [GetAllVectorChunks])
       /\ 0 < List.length nathanChunks
       /\ 5 < List.length (sources response)
       /\ map src_chunkId (sources response) = ["n1"; "n2"; "n3"; "n1"; "n2"; "n3"]
       /\ 1 < count_occ string_dec (map src_chunkId (sources response)) "n1")
    /\ (forall (query : string) (relevantChunks : list Scored)
               (d : Scored) (ds : list Scored),
          (JS.includes (JS.toLowerCase query) "robert" = true
           /\ RAGService.directChunks "robert" relevantChunks = d :: ds)
          \/ (JS.includes (JS.toLowerCase query) "robert" = false
              /\ JS.includes (JS.toLowerCase query) "nathan" = true
              /\ RAGService.directChunks "nathan" relevantChunks = d :: ds) ->
          1 < count_occ string_dec
                (map src_chunkId
                   (sources (RAGService.generateContentAnalysisResponse
                               stripGenerated query relevantChunks)))
                (id (chunk d))).
Proof.
  intros strip. split.
  - eexists. split; [vm_compute; reflexivity|].
    repeat split; vm_compute; auto.
  - intros query relevantChunks d ds [[Hq E]|[Hr [Hq E]]].
    + rewrite robert_branch_sources by (rewrite ?E; congruence).
      apply (pushed_chunk_listed_twice strip "robert" relevantChunks d ds E).
    + rewrite nathan_branch_sources by (rewrite ?Hr, ?E; congruence || reflexivity).
      apply (pushed_chunk_listed_twice strip "nathan" relevantChunks d ds E).
Qed.

(** The stored scenario as an instance of the general statement. *)
Lemma C9_sources_repeat_witness :
  JS.includes (JS.toLowerCase "How is Nathan doing?") "robert" = false
  /\ JS.includes (JS.toLowerCase "How is Nathan doing?") "nathan" = true
  /\ 1 < count_occ string_dec
           (map src_chunkId
              (sources (RAGService.generateContentAnalysisResponse
                          (fun s => s) "How is Nathan doing?"
                          (withPlaceholderSimilarity nathanChunks))))
           "n1".
Proof.
  split; [reflexivity|]. split; [reflexivity|].
  exact (proj2 (C9_content_analysis_sources_repeat (fun s => s))
           "How is Nathan doing?" (withPlaceholderSimilarity nathanChunks)
           {| chunk := nathanChunk "n1" 0; similarity := 0.85%float |}
           (withPlaceholderSimilarity [nathanChunk "n2" 1; nathanChunk "n3" 2])
           (or_intror (conj eq_refl (conj eq_refl eq_refl)))).
Defined.

(* ================================================================== *)
(** * The generation cascade of EnhancedRAGService                     *)
(* ================================================================== *)

Lemma tryOpenAI_throws (query context : string) (t : list Call) :
  EnhancedRAGService.tryOpenAI query context t
  = (Thrown "OpenAI not available", t ++ [Generate "OpenAI"]).
Proof. reflexivity. Qed.

(** Closes one branch of the cascade: the trace up to a rearrangement of
    appends, the recorded name by inspection of the list. *)
Ltac cascade_branch :=
  split;
  [ rewrite <- ?app_assoc; reflexivity
  | split; [ simpl; auto 10 | intros E; try discriminate E; reflexivity ] ].

(** The loop over [apis] never throws; it enters OpenAI, then Groq, then as
    many of the later entries as fail before one answers, and the name it
    records is one of the four later ones, or none. *)
Lemma tryApis_trace (env : Env) (query context : string) (t : list Call) :
  exists answer apiUsed n,
    EnhancedRAGService.tryApis (EnhancedRAGService.apis env query context) t
    = (Returned (answer, apiUsed),
       t ++ Generate "OpenAI" :: Generate "Groq" :: firstn n laterApis)
    /\ In apiUsed ["Groq"; "Google Gemini"; "Cohere"; "Together AI"; ""]
    /\ (apiUsed = "" -> answer = "").
Proof.
  unfold EnhancedRAGService.tryApis, EnhancedRAGService.apis, EnhancedRAGService.tryOpenAI,
    try_catch, bind, call, ret.
  rewrite <- !app_assoc. cbn [app].
  destruct (env_generateGroqResponse env query context) as [a|m];
    [exists a, "Groq", 0; cascade_branch|].
  destruct (env_generateGeminiResponse env query context) as [a|m1];
    [exists a, "Google Gemini", 1; cascade_branch|].
  destruct (env_generateCohereResponse env query context) as [a|m2];
    [exists a, "Cohere", 2; cascade_branch|].
  destruct (env_generateTogetherResponse env query context) as [a|m3];
    [exists a, "Together AI", 3; cascade_branch|].
  exists "", "", 3; cascade_branch.
Qed.

Lemma generatedReasoning_not_OpenAI (n : nat) (apiUsed : string) :
  n <= 8 ->
  In apiUsed ["Groq"; "Google Gemini"; "Cohere"; "Together AI"] ->
  JS.includes (EnhancedRAGService.generatedReasoning n apiUsed) "using OpenAI" = false.
Proof.
  intros Hn Hin.
  assert (Hcases : In n [0; 1; 2; 3; 4; 5; 6; 7; 8]) by (simpl; lia).
  simpl in Hin, Hcases.
  repeat (destruct Hin as [<-|Hin]; [| ]); try contradiction;
    repeat (destruct Hcases as [<-|Hcases]; [vm_compute; reflexivity| ]); contradiction.
Qed.

(** The generation phase always returns: an answer that is not empty, never
    attributed to OpenAI. *)
Lemma generate_outcome (env : Env) (query : string) (ranked : list Scored)
    (t : list Call) :
  List.length ranked <= 8 ->
  exists r n,
    EnhancedRAGService.generate env query ranked t
    = (Returned r, t ++ Generate "OpenAI" :: Generate "Groq" :: firstn n laterApis)
    /\ nonEmpty (answer r) = true
    /\ JS.includes (reasoning r) "using OpenAI" = false.
Proof.
  intros Hlen. unfold EnhancedRAGService.generate, bind.
  destruct (tryApis_trace env query (contextOf ranked) t)
    as (answer & apiUsed & n & -> & Hin & Hempty).
  destruct answer as [|a answer].
  - eexists _, n. split; [reflexivity|]. split; reflexivity.
  - eexists _, n. split; [reflexivity|]. split; [reflexivity|].
    cbn [reasoning]. apply generatedReasoning_not_OpenAI; [exact Hlen|].
    simpl in Hin. simpl.
    destruct Hin as [H|[H|[H|[H|[H|[]]]]]]; auto.
    symmetry in H. specialize (Hempty H). discriminate.
Qed.

(** The vector search of the enhanced service always returns, and enters no
    generation backend. *)
Lemma vectorSearch_outcome (env : Env) (query : string) (chunks : list VectorChunk)
    (t : list Call) :
  exists found calls,
    EnhancedRAGService.vectorSearch env query chunks t = (Returned found, t ++ calls)
    /\ forallb (fun c => negb (isGenerate c)) calls = true
    /\ match found with
       | inl r => nonEmpty (answer r) = true
                  /\ JS.includes (reasoning r) "using OpenAI" = false
       | inr _ => True
       end.
Proof.
  unfold EnhancedRAGService.vectorSearch, VectorService.multiHopRetrieval,
    VectorService.generateQueryEmbedding, try_catch, bind, call, ret, throw.
  destruct (env_openai_embedding env query) as [v|m].
  { eexists _, _. split; [reflexivity|]. split; [reflexivity|exact I]. }
  destruct (env_huggingface_embedding env query) as [v|m'];
    rewrite <- app_assoc; eexists _, _; (split; [reflexivity|]);
    (split; [reflexivity|]); [exact I | split; reflexivity].
Qed.

(** Every run of [processQueryWithFallbacks]: the calls before the
    generation phase, the calls of the generation phase, and the outcome.
    The run throws only when the database fails twice. *)
Lemma processQueryWithFallbacks_outcome (env : Env) (query : string) :
  exists outcome pre gen,
    EnhancedRAGService.processQueryWithFallbacks env query [] = (outcome, pre ++ gen)
    /\ forallb (fun c => negb (isGenerate c)) pre = true
    /\ (gen = [] \/ exists n, gen = Generate "OpenAI" :: Generate "Groq" :: firstn n laterApis)
    /\ match outcome with
       | Returned r => nonEmpty (answer r) = true
                       /\ JS.includes (reasoning r) "using OpenAI" = false
       | Thrown message =>
           (exists first, env_getAllVectorChunks env 0 = Thrown first)
           /\ env_getAllVectorChunks env 1 = Thrown message
       end.
Proof.
  unfold EnhancedRAGService.processQueryWithFallbacks.
  unfold try_catch at 1. unfold bind at 1. unfold getAllVectorChunks at 1.
  cbn [count_calls filter List.length app].
  destruct (env_getAllVectorChunks env 0) as [allChunks|first] eqn:E0.
  - destruct (List.length allChunks =? 0).
    { exists (Returned
                {| answer := "No documents have been indexed yet. Please upload and process some documents first.";
                   sources := [];
                   reasoning := "No vector data available for retrieval." |}),
        [GetAllVectorChunks], [].
      repeat split; auto. }
    destruct (hasEmbeddings allChunks).
    + unfold bind.
      destruct (vectorSearch_outcome env query allChunks [GetAllVectorChunks])
        as (found & calls & -> & Hcalls & Hfound).
      destruct found as [r|[transcriptChunks policyChunks]].
      * exists (Returned r), ([GetAllVectorChunks] ++ calls), [].
        rewrite app_nil_r. repeat split; auto; apply Hfound.
      * destruct (List.length (allRelevantChunks transcriptChunks policyChunks) =? 0).
        { eexists (Returned _), ([GetAllVectorChunks] ++ calls), [].
          rewrite app_nil_r. split; [reflexivity|]. repeat split; auto. }
        destruct (generate_outcome env query
                    (allRelevantChunks transcriptChunks policyChunks)
                    ([GetAllVectorChunks] ++ calls))
          as (r & n & -> & Hans & Hreason).
        { apply firstn_le_length. }
        exists (Returned r), ([GetAllVectorChunks] ++ calls),
          (Generate "OpenAI" :: Generate "Groq" :: firstn n laterApis).
        repeat split; eauto.
    + eexists (Returned _), [GetAllVectorChunks], [].
      split; [reflexivity|]. repeat split; auto.
  - unfold bind, getAllVectorChunks. cbn [count_calls filter List.length app Call_eqb].
    destruct (env_getAllVectorChunks env 1) as [chunks|message] eqn:E1.
    + eexists (Returned _), [GetAllVectorChunks; GetAllVectorChunks], [].
      split; [reflexivity|]. repeat split; auto.
    + exists (Thrown message), [GetAllVectorChunks; GetAllVectorChunks], [].
      repeat split; eauto.
Qed.

(** C10.  The first generation backend of the enhanced cascade always fails:
    [tryOpenAI] throws for every input.  So the cascade, whenever it runs,
    goes on to the second backend (Groq), the name it records is never
    "OpenAI", and no answer of [processQueryWithFallbacks] is attributed to
    OpenAI. *)
Theorem C10_first_backend_always_fails :
  (forall (query context : string) (t : list Call),
     EnhancedRAGService.tryOpenAI query context t
     = (Thrown "OpenAI not available", t ++ [Generate "OpenAI"]))
  /\ (forall (env : Env) (query context : string) (t : list Call),
        exists answer apiUsed n,
          EnhancedRAGService.tryApis (EnhancedRAGService.apis env query context) t
          = (Returned (answer, apiUsed),
             t ++ Generate "OpenAI" :: Generate "Groq" :: firstn n laterApis)
          /\ String.eqb apiUsed "OpenAI" = false)
  /\ (forall (env : Env) (query : string),
        exists outcome pre gen,
          EnhancedRAGService.processQueryWithFallbacks env query [] = (outcome, pre ++ gen)
          /\ forallb (fun c => negb (isGenerate c)) pre = true
          /\ (gen = []
              \/ exists n, gen = Generate "OpenAI" :: Generate "Groq" :: firstn n laterApis)
          /\ match outcome with
             | Returned r => JS.includes (reasoning r) "using OpenAI" = false
             | Thrown _ => True
             end).
Proof.
  split; [exact tryOpenAI_throws|]. split.
  - intros env query context t.
    destruct (tryApis_trace env query context t) as (answer & apiUsed & n & E & Hin & _).
    exists answer, apiUsed, n. split; [exact E|].
    simpl in Hin. destruct Hin as [H|[H|[H|[H|[H|[]]]]]]; subst; reflexivity.
  - intros env query.
    destruct (processQueryWithFallbacks_outcome env query)
      as (outcome & pre & gen & E & Hpre & Hgen & Hout).
    exists outcome, pre, gen. repeat split; auto.
    destruct outcome; [apply Hout | exact I].
Qed.

(* ================================================================== *)
(** * Exhausted generation backends (specification 4.5 and 7)          *)
(* ================================================================== *)

(** When all four hosted models throw, the enhanced service answers from the
    content analysis of the ranked chunks, after it has entered the five
    backends in order. *)
Lemma generate_exhausted (env : Env) (query : string) (ranked : list Scored)
    (t : list Call) (e1 e2 e3 e4 : string) :
  env_generateGroqResponse env query (contextOf ranked) = Thrown e1 ->
  env_generateGeminiResponse env query (contextOf ranked) = Thrown e2 ->
  env_generateCohereResponse env query (contextOf ranked) = Thrown e3 ->
  env_generateTogetherResponse env query (contextOf ranked) = Thrown e4 ->
  EnhancedRAGService.generate env query ranked t
  = (Returned (EnhancedRAGService.generateContentAnalysisResponse query
                 (map EnhancedRAGService.scored ranked)),
     t ++ [Generate "OpenAI"; Generate "Groq"; Generate "Google Gemini";
           Generate "Cohere"; Generate "Together AI"]).
Proof.
  intros H1 H2 H3 H4.
  unfold EnhancedRAGService.generate, EnhancedRAGService.tryApis, EnhancedRAGService.apis,
    EnhancedRAGService.tryOpenAI, try_catch, bind, call, ret.
  rewrite H1, H2, H3, H4. rewrite <- !app_assoc. reflexivity.
Qed.

Lemma enhanced_content_analysis_names_the_path (query : string)
    (relevantChunks : list EnhancedRAGService.MaybeScored) :
  nonEmpty (answer (EnhancedRAGService.generateContentAnalysisResponse query relevantChunks))
  = true
  /\ JS.includes
       (reasoning (EnhancedRAGService.generateContentAnalysisResponse query relevantChunks))
       "content analysis fallback" = true.
Proof. split; reflexivity. Qed.

(** [generateRAGResponse] catches the failure of the chat completion: it
    always returns. *)
Lemma generateRAGResponse_returns (stripGenerated : string -> string) (env : Env)
    (query : string) (transcriptChunks policyChunks : list Scored) (t : list Call) :
  exists response t',
    RAGService.generateRAGResponse stripGenerated env query transcriptChunks policyChunks t
    = (Returned response, t').
Proof.
  unfold RAGService.generateRAGResponse.
  destruct (List.length (allRelevantChunks transcriptChunks policyChunks) =? 0);
    [eexists _, _; reflexivity|].
  destruct (orElse (env_OPENAI_API_KEY env) (env_VITE_OPENAI_API_KEY env)) as [[|a k]|];
    try (eexists _, _; reflexivity).
  destruct (String.eqb (String a k) "placeholder_key"); [eexists _, _; reflexivity|].
  unfold try_catch, bind, call, ret.
  destruct (env_openai_chat env query
              (contextOf (allRelevantChunks transcriptChunks policyChunks)));
    eexists _, _; reflexivity.
Qed.

(** [processQuery] throws only when the first read of the database throws:
    no failure of the embedding backend or of the generation backend reaches
    the caller. *)
Lemma processQuery_throws_only_on_storage (stripGenerated : string -> string)
    (env : Env) (query : string) (chunks : list VectorChunk) :
  env_getAllVectorChunks env 0 = Returned chunks ->
  exists response t',
    RAGService.processQuery stripGenerated env query [] = (Returned response, t').
Proof.
  intros E. unfold RAGService.processQuery.
  unfold try_catch at 1. unfold bind at 1. unfold getAllVectorChunks at 1.
  cbn [count_calls filter List.length app]. rewrite E.
  destruct (List.length chunks =? 0); [eexists _, _; reflexivity|].
  destruct (hasEmbeddings chunks); [|eexists _, _; reflexivity].
  unfold bind at 1. unfold try_catch at 1. unfold bind at 1.
  unfold VectorService.multiHopRetrieval, VectorService.generateQueryEmbedding,
    try_catch, bind, call, ret, throw.
  destruct (env_openai_embedding env query) as [v|m]; [|eexists _, _; reflexivity].
  match goal with
  | |- context [RAGService.generateRAGResponse ?s ?e ?q ?a ?b ?t] =>
      destruct (generateRAGResponse_returns s e q a b t) as (r & t' & ->)
  end.
  eexists _, _; reflexivity.
Qed.

(** C1.  With the database holding one policy chunk, the embedding backend
    up and the only generation backend of [RAGService] (GPT-4o) throwing,
    [processQuery "What about Robert?"] returns normally, yet with an empty
    answer and an empty reasoning: the content analysis reaches the branch
    for Robert, finds no transcript chunk about him, and assigns nothing.
    On the same input the enhanced service answers from its content-analysis
    fallback and says so. *)
Theorem C1_exhausted_generation_empty_answer :
  forall stripGenerated : string -> string,
    RAGService.processQuery stripGenerated generationDownEnv "What about Robert?" []
    = (Returned
         {| answer := "";
            sources := [ {| src_documentName := "grievance-policy.pdf";
                            src_chunkId := "p1";
                            src_text := "Grievances must be submitted within 24 hours of the incident.";
                            src_type := policy;
                            src_similarity := Some 1%float |} ];
            reasoning := "" |},
       [GetAllVectorChunks; OpenAIEmbeddings; OpenAIChat])
    /\ EnhancedRAGService.processQueryWithFallbacks generationDownEnv "What about Robert?" []
       = (Returned
            {| answer := "Content analysis response based on available documents.";
               sources := [ {| src_documentName := "grievance-policy.pdf";
                               src_chunkId := "p1";
                               src_text := "Grievances must be submitted within 24 hours of the incident....";
                               src_type := policy;
                               src_similarity := Some 1%float |} ];
               reasoning := "Generated using content analysis fallback when APIs are unavailable." |},
          [GetAllVectorChunks; OpenAIEmbeddings; Generate "OpenAI"; Generate "Groq";
           Generate "Google Gemini"; Generate "Cohere"; Generate "Together AI"]).
Proof. intros strip. split; vm_compute; reflexivity. Qed.

(* ================================================================== *)
(** * The norm of the deterministic local embedding                    *)
(* ================================================================== *)

Local Open Scope float_scope.

(** The normalization divides by the computed magnitude, so the norm of the
    result is 1 up to rounding only: it is exactly 1 for some texts and one
    unit in the last place below 1 for others. *)
Lemma embedding_norm_is_rounded :
  norm (DemoVectorService.generateSingleEmbedding "stress at work") = 1
  /\ norm (DemoVectorService.generateSingleEmbedding "Nathan") = 0x1.fffffffffffffp-1
  /\ (norm (DemoVectorService.generateSingleEmbedding "Nathan") <? 1) = true
  /\ List.length (DemoVectorService.generateSingleEmbedding "Nathan") = 384%nat.
Proof. repeat split; vm_compute; reflexivity. Qed.

(** When the magnitude is not positive the embedding is all zeros. *)
Lemma zero_magnitude_all_zeros (features : list float) (magnitude : float) :
  (0 <? magnitude) = false ->
  map (fun val => if 0 <? magnitude then val / magnitude else 0) features
  = repeat 0 (List.length features).
Proof.
  intros H. induction features as [|x l IH]; simpl; [reflexivity|].
  rewrite H in *. f_equal. exact IH.
Qed.

(* ================================================================== *)
(** * Failures of the backends do not reach the caller                 *)
(* ================================================================== *)

Local Open Scope nat_scope.

(** [processQueryWithFallbacks] throws only when both reads of the database
    throw, whatever the embedding and generation backends do; every response
    it returns has an answer that is not empty. *)
Theorem processQueryWithFallbacks_always_answers :
  forall (env : Env) (query : string),
    exists outcome calls,
      EnhancedRAGService.processQueryWithFallbacks env query [] = (outcome, calls)
      /\ match outcome with
         | Returned r => nonEmpty (answer r) = true
         | Thrown message =>
             (exists first, env_getAllVectorChunks env 0 = Thrown first)
             /\ env_getAllVectorChunks env 1 = Thrown message
         end.
Proof.
  intros env query.
  destruct (processQueryWithFallbacks_outcome env query)
    as (outcome & pre & gen & E & _ & _ & Hout).
  exists outcome, (pre ++ gen). split; [exact E|].
  destruct outcome; [apply Hout | exact Hout].
Qed.

(** [processQuery] returns whenever the first read of the database returns:
    a failure of the embedding backend or of GPT-4o is caught inside. *)
Theorem processQuery_returns_when_storage_does :
  forall (stripGenerated : string -> string) (env : Env) (query : string)
         (chunks : list VectorChunk),
    env_getAllVectorChunks env 0 = Returned chunks ->
    exists response calls,
      RAGService.processQuery stripGenerated env query [] = (Returned response, calls).
Proof. exact processQuery_throws_only_on_storage. Qed.

Lemma processQuery_returns_witness :
  env_getAllVectorChunks generationDownEnv 0 = Returned [policyChunk]
  /\ exists response calls,
       RAGService.processQuery (fun s => s) generationDownEnv
         "What is the grievance deadline?" []
       = (Returned response, calls).
Proof.
  split; [reflexivity|].
  exact (processQuery_returns_when_storage_does (fun s => s) generationDownEnv
           "What is the grievance deadline?" [policyChunk] eq_refl).
Defined.

(* ================================================================== *)
(** * Selections of a list                                             *)
(* ================================================================== *)

Module Submultiset.

Section Lists.

Context {A : Type}.

Lemma sub_refl (l : list A) : submultiset l l.
Proof. exists []. rewrite app_nil_r. apply Permutation_refl. Qed.

Lemma sub_trans (l1 l2 l3 : list A) :
  submultiset l1 l2 -> submultiset l2 l3 -> submultiset l1 l3.
Proof.
  intros [r1 H1] [r2 H2]. exists (r1 ++ r2).
  rewrite app_assoc. rewrite H1. exact H2.
Qed.

Lemma sub_perm (l1 l2 : list A) : Permutation l1 l2 -> submultiset l1 l2.
Proof. intros H. exists []. rewrite app_nil_r. exact H. Qed.

Lemma sub_firstn (n : nat) (l : list A) : submultiset (firstn n l) l.
Proof. exists (skipn n l). rewrite firstn_skipn. apply Permutation_refl. Qed.

(** A predicate splits a list into two parts that together hold all of it. *)
Lemma partition_perm (p : A -> bool) (l : list A) :
  Permutation (filter p l ++ filter (fun x => negb (p x)) l) l.
Proof.
  induction l as [|x l IH]; simpl; [apply perm_nil|].
  destruct (p x); simpl.
  - apply perm_skip, IH.
  - apply Permutation_sym, Permutation_cons_app, Permutation_sym, IH.
Qed.

(** Two disjoint selections and what neither selects make up the list. *)
Lemma three_way_perm (p q : A -> bool) (l : list A) :
  (forall x, p x = true -> q x = false) ->
  Permutation
    (filter p l ++ filter q l ++ filter (fun x => negb (p x) && negb (q x)) l) l.
Proof.
  intros D. induction l as [|x l IH]; [constructor|].
  cbn [filter]. destruct (p x) eqn:P.
  - rewrite (D x P). cbn. constructor. exact IH.
  - destruct (q x) eqn:Q; cbn.
    + apply Permutation_sym, Permutation_cons_app, Permutation_sym. exact IH.
    + apply Permutation_sym.
      rewrite app_assoc. apply Permutation_cons_app. rewrite <- app_assoc.
      apply Permutation_sym. exact IH.
Qed.

Lemma sub_filter (p : A -> bool) (l : list A) : submultiset (filter p l) l.
Proof. exists (filter (fun x => negb (p x)) l). apply partition_perm. Qed.

Lemma sub_app (l1 l2 m1 m2 : list A) :
  submultiset l1 m1 -> submultiset l2 m2 -> submultiset (l1 ++ l2) (m1 ++ m2).
Proof.
  intros [r1 H1] [r2 H2]. exists (r1 ++ r2).
  rewrite <- H1, <- H2. rewrite <- !app_assoc. apply Permutation_app_head.
  rewrite !app_assoc. apply Permutation_app_tail. apply Permutation_app_comm.
Qed.

Lemma sub_NoDup (l1 l2 : list A) : submultiset l1 l2 -> NoDup l2 -> NoDup l1.
Proof.
  intros [r H] N. apply (Permutation_NoDup (Permutation_sym H)) in N.
  exact (NoDup_app_remove_r _ _ N).
Qed.

End Lists.

Lemma sub_map {A B : Type} (f : A -> B) (l1 l2 : list A) :
  submultiset l1 l2 -> submultiset (map f l1) (map f l2).
Proof.
  intros [r H]. exists (map f r). rewrite <- map_app. apply Permutation_map. exact H.
Qed.

End Submultiset.

(* ================================================================== *)
(** * The deterministic local embedding                                *)
(* ================================================================== *)

Module EmbeddingFacts.

Lemma addAt_length (i : nat) (v : float) (l : list float) :
  List.length (JS.addAt i v l) = List.length l.
Proof.
  revert i. induction l as [|x l IH]; intros [|i]; simpl; auto.
Qed.

Lemma reduce_from_invariant {A B : Type} (P : B -> Prop) (f : B -> A -> nat -> B) :
  (forall acc x i, P acc -> P (f acc x i)) ->
  forall (l : list A) (i : nat) (acc : B), P acc -> P (JS.reduce_from f i l acc).
Proof.
  intros Hf l. induction l as [|x l IH]; intros i acc H; simpl; auto.
Qed.

Lemma boost_length (text w1 w2 : string) (dim : nat) (v : float) (e : list float) :
  List.length (DemoVectorService.boost text w1 w2 dim v e) = List.length e.
Proof.
  unfold DemoVectorService.boost.
  destruct (JS.includes text w1 || JS.includes text w2); [apply addAt_length | reflexivity].
Qed.

Lemma embedding_length (text : string) :
  List.length (DemoVectorService.generateSingleEmbedding text) = 384.
Proof.
  unfold DemoVectorService.generateSingleEmbedding.
  rewrite length_map, !boost_length. unfold JS.reduce.
  apply (reduce_from_invariant (fun e => List.length e = 384)).
  - intros acc x i H. rewrite addAt_length. exact H.
  - apply repeat_length.
Qed.

Lemma toInt32_range (z : Z) : (- 2 ^ 31 <= JS.toInt32 z < 2 ^ 31)%Z.
Proof.
  unfold JS.toInt32.
  pose proof (Z.mod_pos_bound (z + 2 ^ 31) (2 ^ 32) ltac:(lia)). lia.
Qed.

End EmbeddingFacts.

(** Every embedding of the demo service has 384 components, whatever the
    text, and [generateEmbeddings] returns one embedding per text. *)
Theorem generateEmbeddings_dimension :
  forall texts : list string,
    List.length (DemoVectorService.generateEmbeddings texts) = List.length texts
    /\ Forall (fun e => List.length e = 384) (DemoVectorService.generateEmbeddings texts)
    /\ forall query, List.length (DemoVectorService.generateQueryEmbedding query) = 384.
Proof.
  intros texts. unfold DemoVectorService.generateEmbeddings. split; [apply length_map|].
  split.
  - apply Forall_forall. intros e He. apply in_map_iff in He.
    destruct He as (t & <- & _). apply EmbeddingFacts.embedding_length.
  - intros query. apply EmbeddingFacts.embedding_length.
Qed.

(** [simpleHash] returns an integer between 0 and 2^31 (the absolute value of
    a 32-bit integer), so the bucket [simpleHash(word) % 384] of a word is
    an index of the 384 components: the loop over the words never writes
    outside the array. *)
Theorem simpleHash_bucket_in_range :
  forall str : string,
    (0 <= DemoVectorService.simpleHash str <= 2 ^ 31)%Z
    /\ Z.to_nat (DemoVectorService.simpleHash str mod 384) < 384.
Proof.
  intros str. unfold DemoVectorService.simpleHash.
  assert (R : forall (l : list ascii) (h : Z),
             (- 2 ^ 31 <= h < 2 ^ 31)%Z ->
             (- 2 ^ 31 <=
                fold_left
                  (fun hash c =>
                     JS.toInt32 ((JS.shl32 hash 5 - hash) + Z.of_nat (nat_of_ascii c)))
                  l h < 2 ^ 31)%Z).
  { induction l as [|c l IH]; intros h Hh; simpl; [exact Hh|].
    apply IH. apply EmbeddingFacts.toInt32_range. }
  specialize (R (list_ascii_of_string str) 0%Z ltac:(lia)).
  split; [lia|].
  match goal with |- context [(Z.abs ?x mod 384)%Z] =>
    pose proof (Z.mod_pos_bound (Z.abs x) 384 ltac:(lia)) end.
  lia.
Qed.

(* ================================================================== *)
(** * Symmetry of the cosine                                           *)
(* ================================================================== *)

Module Symmetry.

Local Open Scope float_scope.

(** Multiplication of binary64 numbers is commutative. *)
Lemma mul_comm (x y : float) : x * y = y * x.
Proof.
  apply Prim2SF_inj. rewrite !mul_spec. unfold SF64mul, SFmul.
  destruct (Prim2SF x) as [sx|sx| |sx mx ex], (Prim2SF y) as [sy|sy| |sy my ey];
    try reflexivity; rewrite ?(xorb_comm sx sy); try reflexivity.
  rewrite (Pos.mul_comm mx my), (Z.add_comm ex ey). reflexivity.
Qed.

(** The three accumulators of the loop, with the vectors exchanged. *)
Lemma loop_swap (a b : list float) (l : list nat) :
  forall d na nb : float,
    fold_left
      (fun '(dotProduct, normA, normB) i =>
         (dotProduct + JS.numAt b i * JS.numAt a i,
          normA + JS.numAt b i * JS.numAt b i,
          normB + JS.numAt a i * JS.numAt a i))
      l (d, nb, na)
    = let '(d', na', nb') :=
        fold_left
          (fun '(dotProduct, normA, normB) i =>
             (dotProduct + JS.numAt a i * JS.numAt b i,
              normA + JS.numAt a i * JS.numAt a i,
              normB + JS.numAt b i * JS.numAt b i))
          l (d, na, nb) in
      (d', nb', na').
Proof.
  induction l as [|i l IH]; intros d na nb; [reflexivity|].
  cbn [fold_left]. rewrite (mul_comm (JS.numAt b i) (JS.numAt a i)). apply IH.
Qed.

(** The dot product of [reduce] reads the second vector by index: on two
    vectors of one length it visits the same pairs. *)
Lemma dot_swap (a : list float) : forall (b pa pb : list float) (acc : float),
  List.length a = List.length b -> List.length pa = List.length pb ->
  JS.reduce_from (fun sum val i => sum + val * JS.numAt (pb ++ b) i) (List.length pa) a acc
  = JS.reduce_from (fun sum val i => sum + val * JS.numAt (pa ++ a) i) (List.length pb) b acc.
Proof.
  induction a as [|x a IH]; intros [|y b] pa pb acc Hl Hp; try discriminate Hl;
    [reflexivity|].
  cbn [JS.reduce_from].
  assert (Ey : JS.numAt (pb ++ y :: b) (List.length pa) = y).
  { unfold JS.numAt. rewrite Hp, nth_error_app2, Nat.sub_diag by lia. reflexivity. }
  assert (Ex : JS.numAt (pa ++ x :: a) (List.length pb) = x).
  { unfold JS.numAt. rewrite <- Hp, nth_error_app2, Nat.sub_diag by lia. reflexivity. }
  rewrite Ey, Ex, (mul_comm y x).
  specialize (IH b (pa ++ [x]) (pb ++ [y]) (acc + x * y)).
  rewrite !length_app, <- !app_assoc in IH. cbn [List.length app] in IH.
  rewrite !Nat.add_1_r in IH. apply IH.
  - simpl in Hl. lia.
  - lia.
Qed.

End Symmetry.

Local Open Scope float_scope.

(** The guarded cosine of the demo service is symmetric: for all vectors,
    of equal length or not, [cosineSimilarity(a, b)] and
    [cosineSimilarity(b, a)] are the same number. *)
Theorem Demo_cosineSimilarity_symmetric :
  forall a b : list float,
    DemoVectorService.cosineSimilarity a b = DemoVectorService.cosineSimilarity b a.
Proof.
  intros a b. unfold DemoVectorService.cosineSimilarity.
  rewrite (Nat.eqb_sym (List.length b) (List.length a)).
  destruct (List.length a =? List.length b)%nat eqn:E; [|reflexivity].
  apply Nat.eqb_eq in E. cbn [negb]. rewrite <- E.
  rewrite (Symmetry.loop_swap a b (seq 0 (List.length a)) 0 0 0).
  destruct (fold_left _ (seq 0 (List.length a)) (0, 0, 0)) as [[d na] nb].
  rewrite (Symmetry.mul_comm (sqrt nb) (sqrt na)). reflexivity.
Qed.

(** The unguarded cosine of [VectorService] and of [EnhancedRAGService] is
    symmetric on vectors of one length (on other vectors it is not: the dot
    product runs over the first vector only). *)
Theorem cosineSimilarity_symmetric_on_equal_lengths :
  forall a b : list float,
    List.length a = List.length b ->
    VectorService.cosineSimilarity a b = VectorService.cosineSimilarity b a
    /\ EnhancedRAGService.cosineSimilarity a b = EnhancedRAGService.cosineSimilarity b a.
Proof.
  intros a b H.
  assert (D : JS.reduce (fun sum val i => sum + val * JS.numAt b i) a 0
              = JS.reduce (fun sum val i => sum + val * JS.numAt a i) b 0).
  { exact (Symmetry.dot_swap a b [] [] 0 H eq_refl). }
  split.
  - unfold VectorService.cosineSimilarity. rewrite D.
    rewrite (orb_comm (_ =? 0) (_ =? 0)), (Symmetry.mul_comm (sqrt _) (sqrt _)).
    reflexivity.
  - unfold EnhancedRAGService.cosineSimilarity. rewrite D.
    rewrite (orb_comm (_ =? 0) (_ =? 0)), (Symmetry.mul_comm (sqrt _) (sqrt _)).
    reflexivity.
Qed.

Lemma cosineSimilarity_symmetric_witness :
  List.length [1; 2] = List.length [3; 4]
  /\ VectorService.cosineSimilarity [1; 2] [3; 4]
     = VectorService.cosineSimilarity [3; 4] [1; 2].
Proof.
  split; [reflexivity|].
  exact (proj1 (cosineSimilarity_symmetric_on_equal_lengths [1; 2] [3; 4] eq_refl)).
Defined.

Local Open Scope nat_scope.

(* ================================================================== *)
(** * What the rankers select                                          *)
(* ================================================================== *)

Module Selection.

Lemma substring0_length (n : nat) (s : string) : String.length (JS.substring0 n s) <= n.
Proof.
  unfold JS.substring0. revert s. induction n as [|n IH]; intros [|c s]; simpl; try lia.
  specialize (IH s). lia.
Qed.

Lemma append_length (a b : string) :
  String.length (a ++ b)%string = String.length a + String.length b.
Proof. induction a as [|c a IH]; simpl; [reflexivity | rewrite IH; reflexivity]. Qed.

Lemma excerpt_length (n : nat) (s : string) : String.length (excerpt n s) <= n + 3.
Proof.
  unfold excerpt. destruct (n <? String.length s) eqn:E.
  - rewrite append_length. pose proof (substring0_length n s). simpl. lia.
  - apply Nat.ltb_ge in E. lia.
Qed.

(** Filter, sort and slice return a selection of the chunks they scored. *)
Lemma ranked_selection (cos : list float -> list float -> float) (q : list float)
    (chunks : list VectorChunk) (topK : nat) (threshold : float) :
  submultiset
    (map chunk
       (JS.slice0 topK
          (JS.sort bySimilarityDesc
             (filter (fun item => (threshold <=? similarity item)%float)
                     (scoredBy cos q chunks)))))
    chunks.
Proof.
  apply Submultiset.sub_trans with (map chunk (scoredBy cos q chunks)).
  - apply Submultiset.sub_map.
    apply Submultiset.sub_trans with
      (JS.sort bySimilarityDesc
         (filter (fun item => (threshold <=? similarity item)%float) (scoredBy cos q chunks))).
    + apply Submultiset.sub_firstn.
    + apply Submultiset.sub_trans with
        (filter (fun item => (threshold <=? similarity item)%float) (scoredBy cos q chunks)).
      * apply Submultiset.sub_perm, ArrayFacts.sort_perm.
      * apply Submultiset.sub_filter.
  - unfold scoredBy. rewrite map_map. cbn [chunk]. rewrite map_id.
    apply Submultiset.sub_refl.
Qed.

(** The chunks of the two types and the chunks of any other type make up
    the list. *)
Lemma by_type_partition (chunks : list VectorChunk) :
  Permutation
    (filter (fun c => DocType_eqb (type (metadata c)) transcript) chunks
     ++ filter (fun c => DocType_eqb (type (metadata c)) policy) chunks
     ++ filter (fun c => negb (DocType_eqb (type (metadata c)) transcript)
                         && negb (DocType_eqb (type (metadata c)) policy)) chunks)
    chunks.
Proof.
  apply Submultiset.three_way_perm. intros c H.
  apply String.eqb_eq in H. unfold DocType_eqb. rewrite H. reflexivity.
Qed.

(** The fusion of a transcript selection and a policy selection is a
    selection of the chunks. *)
Lemma fused_selection (chunks : list VectorChunk) (t p : list Scored) :
  submultiset (map chunk t)
    (filter (fun c => DocType_eqb (type (metadata c)) transcript) chunks) ->
  submultiset (map chunk p)
    (filter (fun c => DocType_eqb (type (metadata c)) policy) chunks) ->
  submultiset (map chunk (allRelevantChunks t p)) chunks.
Proof.
  intros Ht Hp. unfold allRelevantChunks.
  apply Submultiset.sub_trans with (map chunk (t ++ p)).
  - apply Submultiset.sub_map.
    apply Submultiset.sub_trans with (JS.sort bySimilarityDesc (t ++ p)).
    + apply Submultiset.sub_firstn.
    + apply Submultiset.sub_perm, ArrayFacts.sort_perm.
  - rewrite map_app.
    apply Submultiset.sub_trans with
      (filter (fun c => DocType_eqb (type (metadata c)) transcript) chunks
       ++ filter (fun c => DocType_eqb (type (metadata c)) policy) chunks).
    + apply Submultiset.sub_app; assumption.
    + eexists. rewrite <- app_assoc. apply by_type_partition.
Qed.

Lemma fused_length (t p : list Scored) :
  List.length t <= 3 -> List.length p <= 3 ->
  List.length (allRelevantChunks t p) <= 6.
Proof.
  intros Ht Hp. unfold allRelevantChunks, JS.slice0.
  rewrite length_firstn, ArrayFacts.sort_length, length_app. lia.
Qed.

End Selection.

(** The rankers return a selection of the chunks they are given: every
    returned chunk is one of the input, none is returned more often than it
    was passed in, and the rankers by type select among the chunks of that
    type. *)
Theorem rankers_return_a_selection :
  forall (queryEmbedding : list float) (chunks : list VectorChunk) (ty : DocType)
         (topK : float) (threshold : float),
    submultiset
      (map chunk (DemoVectorService.findSimilarChunks queryEmbedding chunks topK threshold))
      chunks
    /\ submultiset
         (map chunk (VectorService.findSimilarChunks queryEmbedding chunks topK threshold))
         chunks
    /\ submultiset
         (map chunk
            (DemoVectorService.findSimilarChunksByType queryEmbedding chunks ty topK
               threshold))
         (filter (fun c => DocType_eqb (type (metadata c)) ty) chunks)
    /\ submultiset
         (map chunk
            (VectorService.findSimilarChunksByType queryEmbedding chunks ty topK threshold))
         (filter (fun c => DocType_eqb (type (metadata c)) ty) chunks)
    /\ submultiset
         (map chunk
            (EnhancedRAGService.findSimilarChunksByType queryEmbedding chunks ty topK))
         (filter (fun c => DocType_eqb (type (metadata c)) ty) chunks).
Proof.
  intros q chunks ty topK threshold. repeat split.
  - apply (Selection.ranked_selection DemoVectorService.cosineSimilarity).
  - apply (Selection.ranked_selection VectorService.cosineSimilarity).
  - apply (Selection.ranked_selection DemoVectorService.cosineSimilarity).
  - apply (Selection.ranked_selection VectorService.cosineSimilarity).
  - apply (Selection.ranked_selection EnhancedRAGService.cosineSimilarity _ _ _ 0.3%float).
Qed.

(** [VectorService.multiHopRetrieval] ranks at most three chunks of each
    type, so the cut to eight of the fusion step never drops a chunk on this
    path: the fused list is the whole sorted concatenation, of at most six
    chunks. *)
Theorem production_fusion_keeps_every_ranked_chunk :
  forall (queryEmbedding : list float) (chunks : list VectorChunk),
    let transcriptChunks :=
      VectorService.findSimilarChunksByType queryEmbedding chunks transcript 3
        VectorService.default_threshold in
    let policyChunks :=
      VectorService.findSimilarChunksByType queryEmbedding chunks policy 3
        VectorService.default_threshold in
    allRelevantChunks transcriptChunks policyChunks
    = JS.sort bySimilarityDesc (transcriptChunks ++ policyChunks)
    /\ List.length (allRelevantChunks transcriptChunks policyChunks)
       = List.length transcriptChunks + List.length policyChunks
    /\ List.length (allRelevantChunks transcriptChunks policyChunks) <= 6.
Proof.
  intros q chunks t p.
  assert (Ht : List.length t <= 3) by apply ArrayFacts.sliceTo_3_length.
  assert (Hp : List.length p <= 3) by apply ArrayFacts.sliceTo_3_length.
  assert (E : allRelevantChunks t p = JS.sort bySimilarityDesc (t ++ p)).
  { unfold allRelevantChunks, JS.slice0. apply firstn_all2.
    rewrite ArrayFacts.sort_length, length_app. lia. }
  rewrite E, ArrayFacts.sort_length, length_app. repeat split; lia.
Qed.

(* ================================================================== *)
(** * The sources of the enhanced service                              *)
(* ================================================================== *)

Module EnhancedFacts.

Lemma Forall2_map_both {A B C : Type} (R : B -> C -> Prop) (f : A -> B) (g : A -> C)
    (l : list A) :
  (forall x, In x l -> R (f x) (g x)) -> Forall2 R (map f l) (map g l).
Proof.
  induction l as [|x l IH]; intros H; simpl; constructor.
  - apply H. left. reflexivity.
  - apply IH. intros y Hy. apply H. right. exact Hy.
Qed.

Lemma no_source_cites (chunks : list VectorChunk) (a r : string) :
  citesStored chunks {| answer := a; sources := []; reasoning := r |}.
Proof. exists []. split; [exists chunks; apply Permutation_refl | constructor]. Qed.

(** The content analysis of the enhanced service cites the first five of the
    chunks it is given. *)
Lemma content_analysis_cites (query : string)
    (relevantChunks : list EnhancedRAGService.MaybeScored) (chunks : list VectorChunk) :
  submultiset (map fst relevantChunks) chunks ->
  citesStored chunks (EnhancedRAGService.generateContentAnalysisResponse query relevantChunks)
  /\ List.length
       (sources (EnhancedRAGService.generateContentAnalysisResponse query relevantChunks))
     <= 5.
Proof.
  intros H. split.
  - exists (map fst (JS.slice0 5 relevantChunks)). split.
    + apply Submultiset.sub_trans with (map fst relevantChunks); [|exact H].
      apply Submultiset.sub_map, Submultiset.sub_firstn.
    + cbn [EnhancedRAGService.generateContentAnalysisResponse sources].
      apply Forall2_map_both. intros x _. unfold cites. cbn.
      repeat split. rewrite Selection.append_length.
      pose proof (Selection.substring0_length 200 (text (fst x))). simpl. lia.
  - cbn [EnhancedRAGService.generateContentAnalysisResponse sources].
    rewrite length_map. apply ArrayFacts.slice0_length.
Qed.

(** What the generation phase returns cites the ranked chunks. *)
Lemma generate_cites (env : Env) (query : string) (ranked : list Scored)
    (t : list Call) (chunks : list VectorChunk) :
  submultiset (map chunk ranked) chunks ->
  List.length ranked <= 6 ->
  exists r calls,
    EnhancedRAGService.generate env query ranked t = (Returned r, calls)
    /\ citesStored chunks r /\ List.length (sources r) <= 6.
Proof.
  intros Hsub Hlen. unfold EnhancedRAGService.generate, bind.
  destruct (tryApis_trace env query (contextOf ranked) t)
    as (answer & apiUsed & n & -> & _ & _).
  destruct answer as [|a answer].
  - eexists _, _. split; [reflexivity|].
    destruct (content_analysis_cites query (map EnhancedRAGService.scored ranked) chunks)
      as [C L].
    { rewrite map_map. exact Hsub. }
    split; [exact C | lia].
  - eexists _, _. split; [reflexivity|]. cbn [sources]. split.
    + exists (map chunk ranked). split; [exact Hsub|].
      apply Forall2_map_both. intros x _. unfold cites. cbn.
      repeat split. apply (Selection.excerpt_length 300).
    + rewrite length_map. exact Hlen.
Qed.

(** Every response of [processQueryWithFallbacks] cites a selection of the
    chunks that the request read. *)
Lemma sources_from_storage (env : Env) (query : string) :
  match fst (EnhancedRAGService.processQueryWithFallbacks env query []) with
  | Returned r =>
      List.length (sources r) <= 6
      /\ exists chunks, readBy env chunks /\ citesStored chunks r
  | Thrown _ => True
  end.
Proof.
  unfold EnhancedRAGService.processQueryWithFallbacks.
  unfold try_catch at 1. unfold bind at 1. unfold getAllVectorChunks at 1.
  cbn [count_calls filter List.length app].
  destruct (env_getAllVectorChunks env 0) as [allChunks|first] eqn:E0.
  - assert (R : readBy env allChunks) by (left; exact E0).
    destruct (List.length allChunks =? 0).
    { cbn. split; [lia|]. exists allChunks. split; [exact R | apply no_source_cites]. }
    destruct (hasEmbeddings allChunks).
    + unfold bind at 1.
      unfold EnhancedRAGService.vectorSearch, VectorService.multiHopRetrieval,
        VectorService.generateQueryEmbedding.
      unfold try_catch at 1. unfold bind at 1. unfold bind at 1. unfold try_catch at 1.
      unfold call at 1.
      destruct (env_openai_embedding env query) as [v|m].
      * cbn [ret].
        match goal with
        | |- context [allRelevantChunks ?t ?p] =>
            assert (S : submultiset (map chunk (allRelevantChunks t p)) allChunks)
              by (apply Selection.fused_selection; apply Selection.ranked_selection);
            assert (L : List.length (allRelevantChunks t p) <= 6)
              by (apply Selection.fused_length; apply ArrayFacts.sliceTo_3_length);
            destruct (List.length (allRelevantChunks t p) =? 0);
              [ cbn; split; [lia|]; exists allChunks; split;
                  [exact R | apply no_source_cites]
              | destruct (generate_cites env query (allRelevantChunks t p)
                            ([GetAllVectorChunks] ++ [OpenAIEmbeddings]) allChunks S L)
                  as (r & calls & -> & C & Hl) ]
        end.
        cbn [fst]. split; [exact Hl|]. exists allChunks. split; assumption.
      * unfold throw at 1. cbn [ret].
        unfold try_catch at 1. unfold bind at 1. unfold call at 1.
        destruct (env_huggingface_embedding env query) as [v|m'].
        -- cbn [ret].
           match goal with
           | |- context [allRelevantChunks ?t ?p] =>
               assert (S : submultiset (map chunk (allRelevantChunks t p)) allChunks)
                 by (apply Selection.fused_selection;
                     apply (Selection.ranked_selection EnhancedRAGService.cosineSimilarity
                              _ _ _ 0.3%float));
               assert (L : List.length (allRelevantChunks t p) <= 6)
                 by (apply Selection.fused_length; apply ArrayFacts.sliceTo_3_length);
               destruct (List.length (allRelevantChunks t p) =? 0);
                 [ cbn; split; [lia|]; exists allChunks; split;
                     [exact R | apply no_source_cites]
                 | destruct (generate_cites env query (allRelevantChunks t p)
                               (([GetAllVectorChunks] ++ [OpenAIEmbeddings])
                                ++ [HuggingFaceEmbeddings]) allChunks S L)
                     as (r & calls & -> & C & Hl) ]
           end.
           cbn [fst]. split; [exact Hl|]. exists allChunks. split; assumption.
        -- cbn [ret fst].
           destruct (content_analysis_cites query
                       (map EnhancedRAGService.unscored allChunks) allChunks) as [C Hl].
           { rewrite map_map. cbn. rewrite map_id. apply Submultiset.sub_refl. }
           split; [lia|]. exists allChunks. split; assumption.
    + cbn [ret fst].
      destruct (content_analysis_cites query
                  (map EnhancedRAGService.unscored allChunks) allChunks) as [C Hl].
      { rewrite map_map. cbn. rewrite map_id. apply Submultiset.sub_refl. }
      split; [lia|]. exists allChunks. split; assumption.
  - unfold bind, getAllVectorChunks. cbn [count_calls filter List.length app Call_eqb].
    destruct (env_getAllVectorChunks env 1) as [chunks|message] eqn:E1; [|exact I].
    cbn [ret fst].
    destruct (content_analysis_cites query
                (map EnhancedRAGService.scored (withPlaceholderSimilarity chunks)) chunks)
      as [C Hl].
    { unfold withPlaceholderSimilarity. rewrite !map_map. cbn. rewrite map_id.
      apply Submultiset.sub_refl. }
    split; [lia|]. exists chunks. split; [|exact C].
    right. split; [exists first; exact E0 | exact E1].
Qed.

End EnhancedFacts.

(** Every response of [processQueryWithFallbacks], on whatever path it is
    produced, has at most six sources, and its sources cite, in order, a
    selection of the chunks that the request read from the database: each
    source carries the id, the document name and the type of a stored
    chunk and at most 303 characters of text, and no stored chunk is cited
    more often than it is stored. *)
Theorem enhanced_sources_cite_stored_chunks :
  forall (env : Env) (query : string),
    match fst (EnhancedRAGService.processQueryWithFallbacks env query []) with
    | Returned r =>
        List.length (sources r) <= 6
        /\ exists chunks, readBy env chunks /\ citesStored chunks r
    | Thrown _ => True
    end.
Proof. exact EnhancedFacts.sources_from_storage. Qed.

(** When the chunk ids of the database are distinct (the id is the primary
    key of the table), the sources of a response of
    [processQueryWithFallbacks] have distinct chunk ids: the enhanced
    service never lists a chunk twice. *)
Theorem enhanced_sources_are_distinct :
  forall (env : Env) (query : string),
    (forall n chunks, env_getAllVectorChunks env n = Returned chunks -> NoDup (map id chunks)) ->
    match fst (EnhancedRAGService.processQueryWithFallbacks env query []) with
    | Returned r => NoDup (map src_chunkId (sources r))
    | Thrown _ => True
    end.
Proof.
  intros env query H.
  pose proof (EnhancedFacts.sources_from_storage env query) as S.
  destruct (fst (EnhancedRAGService.processQueryWithFallbacks env query [])) as [r|m];
    [|exact I].
  destruct S as (_ & chunks & R & picked & Hsub & Hcites).
  assert (N : NoDup (map id chunks)).
  { destruct R as [R|[_ R]]; exact (H _ _ R). }
  assert (E : map src_chunkId (sources r) = map id picked).
  { clear -Hcites. induction Hcites as [|c s picked srcs Hc _ IH]; [reflexivity|].
    simpl. rewrite IH. destruct Hc as (-> & _). reflexivity. }
  rewrite E. apply (Submultiset.sub_NoDup (map id picked) (map id chunks)); [|exact N].
  apply Submultiset.sub_map. exact Hsub.
Qed.

Lemma enhanced_sources_distinct_witness :
  (forall n chunks,
     env_getAllVectorChunks generationDownEnv n = Returned chunks -> NoDup (map id chunks))
  /\ match fst (EnhancedRAGService.processQueryWithFallbacks generationDownEnv
                  "What about Robert?" []) with
     | Returned r => NoDup (map src_chunkId (sources r))
     | Thrown _ => True
     end.
Proof.
  assert (H : forall n chunks,
             env_getAllVectorChunks generationDownEnv n = Returned chunks ->
             NoDup (map id chunks)).
  { intros n chunks E. injection E as <-. repeat constructor. simpl. tauto. }
  split; [exact H|].
  exact (enhanced_sources_are_distinct generationDownEnv "What about Robert?" H).
Defined.

(* ================================================================== *)
(** * The order of the backend calls                                   *)
(* ================================================================== *)

Module Protocol.

Lemma generate_calls (env : Env) (query : string) (ranked : list Scored) (t : list Call) :
  exists r k, 2 <= k <= 5
              /\ EnhancedRAGService.generate env query ranked t
                 = (Returned r, t ++ firstn k cascade).
Proof.
  unfold EnhancedRAGService.generate, bind.
  destruct (tryApis_trace env query (contextOf ranked) t)
    as (answer & apiUsed & n & -> & _ & _).
  assert (E : Generate "OpenAI" :: Generate "Groq" :: firstn n laterApis
              = firstn (2 + Nat.min n 3) cascade).
  { destruct n as [|[|[|n]]]; try reflexivity.
    cbn [Nat.min Nat.add]. rewrite Nat.min_0_r. cbn. rewrite firstn_nil. reflexivity. }
  rewrite E. destruct answer; eexists _, (2 + Nat.min n 3); (split; [lia | reflexivity]).
Qed.

Lemma enhanced_calls (env : Env) (query : string) :
  enhancedProtocol (snd (EnhancedRAGService.processQueryWithFallbacks env query [])).
Proof.
  assert (Hshape : forall n k, 1 <= n <= 3 -> k <= 5 ->
            enhancedProtocol
              (firstn n [GetAllVectorChunks; OpenAIEmbeddings; HuggingFaceEmbeddings]
               ++ firstn k cascade)).
  { intros n k Hn Hk. right. exists n, k. auto. }
  unfold EnhancedRAGService.processQueryWithFallbacks.
  unfold try_catch at 1. unfold bind at 1. unfold getAllVectorChunks at 1.
  cbn [count_calls filter List.length app].
  destruct (env_getAllVectorChunks env 0) as [allChunks|first] eqn:E0.
  - destruct (List.length allChunks =? 0); [apply (Hshape 1 0); lia|].
    destruct (hasEmbeddings allChunks); [|apply (Hshape 1 0); lia].
    unfold bind at 1.
    unfold EnhancedRAGService.vectorSearch, VectorService.multiHopRetrieval,
      VectorService.generateQueryEmbedding.
    unfold try_catch at 1. unfold bind at 1. unfold bind at 1. unfold try_catch at 1.
    unfold call at 1.
    destruct (env_openai_embedding env query) as [v|m].
    + cbn [ret].
      match goal with
      | |- context [List.length (allRelevantChunks ?t ?p) =? 0] =>
          destruct (List.length (allRelevantChunks t p) =? 0);
            [ apply (Hshape 2 0); lia
            | destruct (generate_calls env query (allRelevantChunks t p)
                          ([GetAllVectorChunks] ++ [OpenAIEmbeddings]))
                as (r & k & Hk & ->) ]
      end.
      apply (Hshape 2 k); lia.
    + unfold throw at 1. cbn [ret].
      unfold try_catch at 1. unfold bind at 1. unfold call at 1.
      destruct (env_huggingface_embedding env query) as [v|m'].
      * cbn [ret].
        match goal with
        | |- context [List.length (allRelevantChunks ?t ?p) =? 0] =>
            destruct (List.length (allRelevantChunks t p) =? 0);
              [ apply (Hshape 3 0); lia
              | destruct (generate_calls env query (allRelevantChunks t p)
                            (([GetAllVectorChunks] ++ [OpenAIEmbeddings])
                             ++ [HuggingFaceEmbeddings])) as (r & k & Hk & ->) ]
        end.
        apply (Hshape 3 k); lia.
      * apply (Hshape 3 0); lia.
  - unfold bind, getAllVectorChunks. cbn [count_calls filter List.length app Call_eqb].
    left. destruct (env_getAllVectorChunks env 1); reflexivity.
Qed.

Section RAG.

Variable stripGenerated : string -> string.

Lemma generateRAGResponse_calls (env : Env) (query : string)
    (transcriptChunks policyChunks : list Scored) (t : list Call) :
  snd (RAGService.generateRAGResponse stripGenerated env query transcriptChunks policyChunks t)
  = t ++ (if (List.length (allRelevantChunks transcriptChunks policyChunks) =? 0)
          then []
          else if usableKey env then [OpenAIChat] else []).
Proof.
  unfold RAGService.generateRAGResponse, usableKey.
  destruct (List.length (allRelevantChunks transcriptChunks policyChunks) =? 0);
    [cbn; rewrite app_nil_r; reflexivity|].
  destruct (orElse (env_OPENAI_API_KEY env) (env_VITE_OPENAI_API_KEY env)) as [[|a k]|];
    try (cbn; rewrite app_nil_r; reflexivity).
  destruct (String.eqb (String a k) "placeholder_key");
    [cbn; rewrite app_nil_r; reflexivity|].
  unfold try_catch, bind, call, ret.
  destruct (env_openai_chat env query _); reflexivity.
Qed.

(** The calls of one run of [processQuery], by the outcomes of the
    backends. *)
Lemma processQuery_calls (env : Env) (query : string) :
  snd (RAGService.processQuery stripGenerated env query [])
  = match env_getAllVectorChunks env 0 with
    | Thrown message =>
        if quotaMessage message
        then [GetAllVectorChunks; GetAllVectorChunks]
        else [GetAllVectorChunks]
    | Returned allChunks =>
        if (List.length allChunks =? 0) then [GetAllVectorChunks]
        else if hasEmbeddings allChunks then
          match env_openai_embedding env query with
          | Thrown _ => [GetAllVectorChunks; OpenAIEmbeddings]
          | Returned queryEmbedding =>
              [GetAllVectorChunks; OpenAIEmbeddings]
              ++ (if (List.length
                        (allRelevantChunks
                           (VectorService.findSimilarChunksByType queryEmbedding allChunks
                              transcript 3 VectorService.default_threshold)
                           (VectorService.findSimilarChunksByType queryEmbedding allChunks
                              policy 3 VectorService.default_threshold)) =? 0)
                  then []
                  else if usableKey env then [OpenAIChat] else [])
          end
        else [GetAllVectorChunks]
    end.
Proof.
  unfold RAGService.processQuery, quotaMessage.
  unfold try_catch at 1. unfold bind at 1. unfold getAllVectorChunks at 1.
  cbn [count_calls filter List.length app].
  destruct (env_getAllVectorChunks env 0) as [allChunks|message] eqn:E0.
  - destruct (List.length allChunks =? 0); [reflexivity|].
    destruct (hasEmbeddings allChunks); [|reflexivity].
    unfold bind at 1. unfold try_catch at 1. unfold bind at 1.
    unfold VectorService.multiHopRetrieval, VectorService.generateQueryEmbedding.
    unfold bind at 1. unfold try_catch at 1. unfold call at 1.
    destruct (env_openai_embedding env query) as [v|m]; [|reflexivity].
    cbn [ret].
    match goal with
    | |- context [RAGService.generateRAGResponse ?s ?e ?q ?a ?b ?t] =>
        pose proof (generateRAGResponse_calls e q a b t) as G;
        destruct (generateRAGResponse_returns s e q a b t) as (r & t' & E);
        rewrite E in *
    end.
    cbn [snd] in *. rewrite G. reflexivity.
  - destruct (JS.includes message "quota" || JS.includes message "429").
    + unfold bind, getAllVectorChunks. cbn [count_calls filter List.length app Call_eqb].
      destruct (env_getAllVectorChunks env 1); reflexivity.
    + reflexivity.
Qed.

End RAG.

End Protocol.

(** During one request the enhanced service enters its backends in a fixed
    order and each at most once: the database, the OpenAI embedding, the
    Hugging Face embedding, then the generation cascade from its first
    entry on.  The only other run reads the database twice and enters
    nothing else. *)
Theorem enhanced_backends_in_fixed_order :
  forall (env : Env) (query : string),
    enhancedProtocol (snd (EnhancedRAGService.processQueryWithFallbacks env query [])).
Proof. exact Protocol.enhanced_calls. Qed.

(** During one request [RAGService.processQuery] enters its backends in a
    fixed order and each at most once: the database, the OpenAI embedding,
    the GPT-4o completion.  The only other run reads the database twice and
    enters nothing else. *)
Theorem processQuery_backends_in_fixed_order :
  forall (stripGenerated : string -> string) (env : Env) (query : string),
    ragProtocol (snd (RAGService.processQuery stripGenerated env query [])).
Proof.
  intros strip env query. rewrite Protocol.processQuery_calls. unfold ragProtocol.
  destruct (env_getAllVectorChunks env 0) as [allChunks|message].
  - right. destruct (List.length allChunks =? 0); [exists 1; split; [lia|reflexivity]|].
    destruct (hasEmbeddings allChunks); [|exists 1; split; [lia|reflexivity]].
    destruct (env_openai_embedding env query) as [v|m];
      [|exists 2; split; [lia|reflexivity]].
    destruct (List.length _ =? 0); [exists 2; split; [lia|reflexivity]|].
    destruct (usableKey env); [exists 3 | exists 2]; (split; [lia|reflexivity]).
  - destruct (quotaMessage message);
      [left; reflexivity | right; exists 1; split; [lia|reflexivity]].
Qed.

(** When no stored chunk carries an embedding, both services answer from the
    database alone: after the one read they call neither an embedding
    backend nor a generation backend. *)
Theorem unembedded_corpus_is_answered_locally :
  forall (stripGenerated : string -> string) (env : Env) (query : string)
         (chunks : list VectorChunk),
    env_getAllVectorChunks env 0 = Returned chunks ->
    hasEmbeddings chunks = false ->
    snd (RAGService.processQuery stripGenerated env query []) = [GetAllVectorChunks]
    /\ snd (EnhancedRAGService.processQueryWithFallbacks env query []) = [GetAllVectorChunks].
Proof.
  intros strip env query chunks E H. split.
  - rewrite Protocol.processQuery_calls, E, H. destruct (List.length chunks =? 0); reflexivity.
  - unfold EnhancedRAGService.processQueryWithFallbacks, try_catch, bind, getAllVectorChunks.
    cbn [count_calls filter List.length app]. rewrite E, H.
    destruct (List.length chunks =? 0); reflexivity.
Qed.

Lemma unembedded_corpus_witness :
  env_getAllVectorChunks unembeddedEnv 0 = Returned nathanChunks
  /\ hasEmbeddings nathanChunks = false
  /\ snd (RAGService.processQuery (fun s => s) unembeddedEnv "How is Nathan doing?" [])
     = [GetAllVectorChunks].
Proof.
  split; [reflexivity|]. split; [reflexivity|].
  exact (proj1 (unembedded_corpus_is_answered_locally (fun s => s) unembeddedEnv
                  "How is Nathan doing?" nathanChunks eq_refl eq_refl)).
Defined.

(** Without a usable API key (none, an empty one, or the placeholder)
    [processQuery] never asks GPT-4o for a completion, whatever the database
    and the embedding backend answer. *)
Theorem no_completion_without_a_usable_key :
  forall (stripGenerated : string -> string) (env : Env) (query : string),
    usableKey env = false ->
    count_calls OpenAIChat (snd (RAGService.processQuery stripGenerated env query [])) = 0.
Proof.
  intros strip env query K. rewrite Protocol.processQuery_calls, K.
  destruct (env_getAllVectorChunks env 0) as [allChunks|message].
  - destruct (List.length allChunks =? 0); [reflexivity|].
    destruct (hasEmbeddings allChunks); [|reflexivity].
    destruct (env_openai_embedding env query); [|reflexivity].
    destruct (List.length _ =? 0); reflexivity.
  - destruct (quotaMessage message); reflexivity.
Qed.

Lemma no_completion_witness :
  usableKey placeholderKeyEnv = false
  /\ count_calls OpenAIChat
       (snd (RAGService.processQuery (fun s => s) placeholderKeyEnv
               "What is the grievance deadline?" [])) = 0.
Proof.
  split; [reflexivity|].
  exact (no_completion_without_a_usable_key (fun s => s) placeholderKeyEnv
           "What is the grievance deadline?" eq_refl).
Defined.

(* ================================================================== *)
(** * The content analysis of RAGService                               *)
(* ================================================================== *)

Module ContentAnalysisFacts.

Section RAG.

Variable stripGenerated : string -> string.

Lemma existsb_filter_nonempty {A : Type} (p : A -> bool) (l : list A) :
  existsb p l = true -> (0 <? List.length (filter p l)) = true.
Proof.
  induction l as [|x l IH]; simpl; [discriminate|].
  destruct (p x); simpl; [reflexivity | exact IH].
Qed.

Lemma generateGenericResponse_nonEmpty (query : string) (chunks : list Scored) :
  nonEmpty (RAGService.generateGenericResponse query chunks) = true.
Proof.
  unfold RAGService.generateGenericResponse.
  repeat match goal with
         | |- context [if ?b then _ else _] => destruct b
         end; reflexivity.
Qed.

Lemma answers_unnamed (query : string) (relevantChunks : list Scored) :
  namesNoClient query = true ->
  nonEmpty (answer (RAGService.generateContentAnalysisResponse stripGenerated query
                      relevantChunks)) = true
  /\ nonEmpty (reasoning (RAGService.generateContentAnalysisResponse stripGenerated query
                            relevantChunks)) = true.
Proof.
  unfold namesNoClient. intros H. apply andb_true_iff in H. destruct H as [Hr Hn].
  apply negb_true_iff in Hr, Hn.
  unfold RAGService.generateContentAnalysisResponse.
  destruct (List.length relevantChunks =? 0); [split; reflexivity|].
  rewrite Hr, Hn. cbn [andb orb]. rewrite andb_false_r.
  set (transcriptChunks :=
         filter (fun c => DocType_eqb (type (metadata (chunk c))) transcript)
                (JS.slice0 5 relevantChunks)).
  destruct (existsb (RAGService.mentions "robert") transcriptChunks) eqn:ER.
  { rewrite (existsb_filter_nonempty _ _ ER). split; reflexivity. }
  destruct (existsb (RAGService.mentions "nathan") transcriptChunks) eqn:EN.
  { rewrite (existsb_filter_nonempty _ _ EN). split; reflexivity. }
  destruct (0 <? List.length _); [split; reflexivity|].
  destruct (0 <? List.length transcriptChunks); [split; reflexivity|].
  cbn [answer reasoning]. split; [apply generateGenericResponse_nonEmpty | reflexivity].
Qed.

Lemma sources_shape (query : string) (relevantChunks : list Scored) :
  exists repeated,
    sources (RAGService.generateContentAnalysisResponse stripGenerated query relevantChunks)
    = map RAGService.sourceOf relevantChunks
      ++ map (RAGService.cleanSourceOf stripGenerated) repeated
    /\ List.length repeated <= 3
    /\ incl repeated relevantChunks.
Proof.
  unfold RAGService.generateContentAnalysisResponse.
  destruct relevantChunks as [|c0 rest] eqn:E;
    [exists []; repeat split; auto; apply incl_nil_l|].
  rewrite <- E. replace (List.length relevantChunks =? 0) with false by (subst; reflexivity).
  assert (K : forall name,
             List.length (JS.slice0 3 (RAGService.directChunks name relevantChunks)) <= 3
             /\ incl (JS.slice0 3 (RAGService.directChunks name relevantChunks))
                     relevantChunks).
  { intros name. split; [apply ArrayFacts.slice0_length|].
    intros x Hx. apply ArrayFacts.slice0_In in Hx.
    unfold RAGService.directChunks in Hx. apply filter_In in Hx. apply Hx. }
  destruct (JS.includes (JS.toLowerCase query) "robert"
            && (0 <? List.length (RAGService.directChunks "robert" relevantChunks))).
  { exists (JS.slice0 3 (RAGService.directChunks "robert" relevantChunks)).
    split; [reflexivity | apply K]. }
  destruct (JS.includes (JS.toLowerCase query) "nathan"
            && (0 <? List.length (RAGService.directChunks "nathan" relevantChunks))).
  { exists (JS.slice0 3 (RAGService.directChunks "nathan" relevantChunks)).
    split; [reflexivity | apply K]. }
  exists []. cbn [map]. rewrite app_nil_r.
  split; [|split; [simpl; lia | apply incl_nil_l]].
  match goal with
  | |- sources (let '(a, r) := ?X in _) = _ => destruct X
  end.
  reflexivity.
Qed.

Lemma generateRAGResponse_answers (env : Env) (query : string)
    (transcriptChunks policyChunks : list Scored) (t : list Call) :
  namesNoClient query = true ->
  exists r t',
    RAGService.generateRAGResponse stripGenerated env query transcriptChunks policyChunks t
    = (Returned r, t')
    /\ nonEmpty (answer r) = true.
Proof.
  intros H.
  pose proof (answers_unnamed query (allRelevantChunks transcriptChunks policyChunks) H)
    as [CA _].
  unfold RAGService.generateRAGResponse.
  destruct (List.length (allRelevantChunks transcriptChunks policyChunks) =? 0);
    [eexists _, _; split; reflexivity|].
  destruct (orElse (env_OPENAI_API_KEY env) (env_VITE_OPENAI_API_KEY env)) as [[|a k]|];
    try (eexists _, _; split; [reflexivity | exact CA]).
  destruct (String.eqb (String a k) "placeholder_key");
    [eexists _, _; split; [reflexivity | exact CA]|].
  unfold try_catch, bind, call, ret.
  destruct (env_openai_chat env query _) as [[[|c s]|]|m];
    eexists _, _; (split; [reflexivity|]); try exact CA; reflexivity.
Qed.

Lemma processQuery_answers (env : Env) (query : string) :
  namesNoClient query = true ->
  match fst (RAGService.processQuery stripGenerated env query []) with
  | Returned r => nonEmpty (answer r) = true
  | Thrown _ => True
  end.
Proof.
  intros H.
  assert (CA : forall chunks,
             nonEmpty (answer (RAGService.generateContentAnalysisResponse stripGenerated
                                 query chunks)) = true).
  { intros chunks. apply answers_unnamed. exact H. }
  unfold RAGService.processQuery.
  unfold try_catch at 1. unfold bind at 1. unfold getAllVectorChunks at 1.
  cbn [count_calls filter List.length app].
  destruct (env_getAllVectorChunks env 0) as [allChunks|message] eqn:E0.
  - destruct (List.length allChunks =? 0); [reflexivity|].
    destruct (hasEmbeddings allChunks); [|apply CA].
    unfold bind at 1. unfold try_catch at 1. unfold bind at 1.
    unfold VectorService.multiHopRetrieval, VectorService.generateQueryEmbedding.
    unfold bind at 1. unfold try_catch at 1. unfold call at 1.
    destruct (env_openai_embedding env query) as [v|m]; [|apply CA].
    cbn [ret].
    match goal with
    | |- context [RAGService.generateRAGResponse ?s ?e ?q ?a ?b ?t] =>
        destruct (generateRAGResponse_answers e q a b t H) as (r & t' & -> & Hr)
    end.
    exact Hr.
  - destruct (JS.includes message "quota" || JS.includes message "429"); [|exact I].
    unfold bind, getAllVectorChunks. cbn [count_calls filter List.length app Call_eqb].
    destruct (env_getAllVectorChunks env 1); [apply CA | exact I].
Qed.

Lemma processQuery_throws (env : Env) (query message : string) :
  fst (RAGService.processQuery stripGenerated env query []) = Thrown message
  <-> exists first,
        env_getAllVectorChunks env 0 = Thrown first
        /\ if quotaMessage first
           then env_getAllVectorChunks env 1 = Thrown message
           else message = ("RAG processing failed: " ++ first)%string.
Proof.
  unfold RAGService.processQuery, quotaMessage.
  unfold try_catch at 1. unfold bind at 1. unfold getAllVectorChunks at 1.
  cbn [count_calls filter List.length app].
  destruct (env_getAllVectorChunks env 0) as [allChunks|first] eqn:E0.
  - split; [|intros (f & Hf & _); discriminate Hf].
    intros Habs. exfalso. revert Habs.
    destruct (List.length allChunks =? 0); [discriminate|].
    destruct (hasEmbeddings allChunks); [|discriminate].
    unfold bind at 1. unfold try_catch at 1. unfold bind at 1.
    unfold VectorService.multiHopRetrieval, VectorService.generateQueryEmbedding.
    unfold bind at 1. unfold try_catch at 1. unfold call at 1.
    destruct (env_openai_embedding env query) as [v|m]; [|discriminate].
    cbn [ret].
    match goal with
    | |- context [RAGService.generateRAGResponse ?s ?e ?q ?a ?b ?t] =>
        destruct (generateRAGResponse_returns s e q a b t) as (r & t' & ->)
    end.
    discriminate.
  - destruct (JS.includes first "quota" || JS.includes first "429") eqn:Q.
    + unfold bind, getAllVectorChunks. cbn [count_calls filter List.length app Call_eqb].
      destruct (env_getAllVectorChunks env 1) as [chunks|second]; cbn [fst ret].
      * split; [discriminate|]. intros (f & Hf & H). injection Hf as <-.
        rewrite Q in H. discriminate H.
      * split.
        -- intros H. injection H as <-. exists first. rewrite Q. split; reflexivity.
        -- intros (f & Hf & H). injection Hf as <-. rewrite Q in H.
           injection H as <-. reflexivity.
    + cbn [fst throw]. split.
      * intros H. injection H as <-. exists first. rewrite Q. split; reflexivity.
      * intros (f & Hf & H). injection Hf as <-. rewrite Q in H. rewrite H. reflexivity.
Qed.

End RAG.

End ContentAnalysisFacts.

(** For a query that names neither client (neither "robert" nor "nathan",
    in any case), the content analysis of [RAGService] always gives an
    answer and a reasoning that are not empty, whatever the relevant
    chunks are. *)
Theorem content_analysis_answers_unnamed_queries :
  forall (stripGenerated : string -> string) (query : string)
         (relevantChunks : list Scored),
    namesNoClient query = true ->
    nonEmpty (answer (RAGService.generateContentAnalysisResponse stripGenerated query
                        relevantChunks)) = true
    /\ nonEmpty (reasoning (RAGService.generateContentAnalysisResponse stripGenerated query
                              relevantChunks)) = true.
Proof. exact ContentAnalysisFacts.answers_unnamed. Qed.

Lemma content_analysis_unnamed_witness :
  namesNoClient "What is the grievance deadline?" = true
  /\ nonEmpty (answer (RAGService.generateContentAnalysisResponse (fun s => s)
                         "What is the grievance deadline?"
                         (withPlaceholderSimilarity [policyChunk]))) = true.
Proof.
  split; [reflexivity|].
  exact (proj1 (content_analysis_answers_unnamed_queries (fun s => s)
                  "What is the grievance deadline?"
                  (withPlaceholderSimilarity [policyChunk]) eq_refl)).
Defined.

(** For a query that names neither client, every response that
    [processQuery] returns has an answer that is not empty, whatever the
    database, the embedding backend and GPT-4o do. *)
Theorem processQuery_answers_unnamed_queries :
  forall (stripGenerated : string -> string) (env : Env) (query : string),
    namesNoClient query = true ->
    match fst (RAGService.processQuery stripGenerated env query []) with
    | Returned r => nonEmpty (answer r) = true
    | Thrown _ => True
    end.
Proof. exact ContentAnalysisFacts.processQuery_answers. Qed.

Lemma processQuery_unnamed_witness :
  namesNoClient "What is the grievance deadline?" = true
  /\ match fst (RAGService.processQuery (fun s => s) generationDownEnv
                  "What is the grievance deadline?" []) with
     | Returned r => nonEmpty (answer r) = true
     | Thrown _ => True
     end.
Proof.
  split; [reflexivity|].
  exact (processQuery_answers_unnamed_queries (fun s => s) generationDownEnv
           "What is the grievance deadline?" eq_refl).
Defined.

(** The sources of the content analysis of [RAGService] list every relevant
    chunk once, in the order given and without any cut, and then repeat at
    most three of them with cleaned text. *)
Theorem content_analysis_lists_every_chunk :
  forall (stripGenerated : string -> string) (query : string)
         (relevantChunks : list Scored),
    exists repeated,
      sources (RAGService.generateContentAnalysisResponse stripGenerated query
                 relevantChunks)
      = map RAGService.sourceOf relevantChunks
        ++ map (RAGService.cleanSourceOf stripGenerated) repeated
      /\ List.length repeated <= 3
      /\ incl repeated relevantChunks.
Proof. exact ContentAnalysisFacts.sources_shape. Qed.

(** [processQuery] throws exactly when the first read of the database
    throws and either the message of that failure holds neither "quota" nor
    "429", in which case the error reads "RAG processing failed: " followed
    by that message, or it holds one of them and the second read throws
    too, in which case the second failure reaches the caller as it is. *)
Theorem processQuery_failure_modes :
  forall (stripGenerated : string -> string) (env : Env) (query message : string),
    fst (RAGService.processQuery stripGenerated env query []) = Thrown message
    <-> exists first,
          env_getAllVectorChunks env 0 = Thrown first
          /\ if quotaMessage first
             then env_getAllVectorChunks env 1 = Thrown message
             else message = ("RAG processing failed: " ++ first)%string.
Proof. exact ContentAnalysisFacts.processQuery_throws. Qed.

(* ================================================================== *)
(** * The hosted backends of FreeApiService                            *)
(* ================================================================== *)

Module FreeApiFacts.

Import FreeApiService.

Lemma withKey_unset {A : Type} (w : World) (name message : string) (k : string -> IO A)
    (t : list Request) :
  unset w name = true -> withKey w name message k t = (Thrown message, t).
Proof.
  unfold unset, withKey. destruct (process_env w name) as [[|a s]|]; try discriminate;
    reflexivity.
Qed.

Lemma withKey_set {A : Type} (w : World) (name message : string) (k : string -> IO A)
    (t : list Request) :
  unset w name = false -> exists apiKey, withKey w name message k t = k apiKey t.
Proof.
  unfold unset, withKey. destruct (process_env w name) as [[|a s]|]; try discriminate.
  intros _. exists (String a s). reflexivity.
Qed.

Lemma orElse_truthy (a b : JSValue) :
  Value.truthy b = true -> Value.truthy (Value.orElse a b) = true.
Proof.
  intros H. unfold Value.orElse. destruct (Value.truthy a) eqn:E; [exact E | exact H].
Qed.

(** The body shared by the four text generators: one request; a value is
    returned only for a response with a passing status, and it is never
    falsy. *)
Lemma generator_body (w : World) (request : Request) (prefix : string)
    (extract : JSValue -> Outcome JSValue) (t : list Request) :
  match
    io_catch
      (io_bind (fetchJson w request prefix)
         (fun data =>
            io_bind (io_lift (extract data))
              (fun text => io_ret (Value.orElse text noResponse))))
      (fun error => io_throw error) t
  with
  | (Returned v, t') =>
      Value.truthy v = true /\ sentOne w t t' (fun response => ok response = true)
  | (Thrown _, t') => t' = t ++ [request]
  end.
Proof.
  unfold io_catch, io_bind, fetchJson, io_bind, send, io_lift, io_ret, io_throw.
  destruct (fetch w request) as [response|m] eqn:F; [|reflexivity].
  destruct (ok response) eqn:O; cbn [negb]; [|reflexivity].
  destruct (json response) as [data|m]; [|reflexivity].
  destruct (extract data) as [text|m]; [|reflexivity].
  split; [apply orElse_truthy; reflexivity|].
  exists request, response. auto.
Qed.

Lemma generator_contract (w : World) (name message : string) (request : string -> Request)
    (prefix : string) (extract : JSValue -> Outcome JSValue) (t : list Request) :
  generatorContract w t
    (withKey w name message
       (fun apiKey =>
          io_catch
            (io_bind (fetchJson w (request apiKey) prefix)
               (fun data =>
                  io_bind (io_lift (extract data))
                    (fun text => io_ret (Value.orElse text noResponse))))
            (fun error => io_throw error)) t).
Proof.
  destruct (unset w name) eqn:U.
  - rewrite (withKey_unset w name message _ t U). left. reflexivity.
  - match goal with
    | |- context [withKey w name message ?k t] =>
        destruct (withKey_set w name message k t U) as (apiKey & ->)
    end.
    pose proof (generator_body w (request apiKey) prefix extract t) as B.
    unfold generatorContract.
    destruct (io_catch _ _ t) as [[v|m] t']; [exact B|].
    right. exists (request apiKey). exact B.
Qed.

Lemma fetchJson_fails (w : World) (status : string) (request : Request) (prefix : string)
    (t : list Request) :
  alwaysFails w status ->
  fetchJson w request prefix t = (Thrown (prefix ++ status)%string, t ++ [request]).
Proof.
  intros H. destruct (H request) as (response & F & O & S).
  unfold fetchJson, io_bind, send. rewrite F, O, S. reflexivity.
Qed.

Lemma rethrown {A : Type} (w : World) (status : string) (request : Request)
    (prefix : string) (k : JSValue -> IO A) (t : list Request) :
  alwaysFails w status ->
  io_catch (io_bind (fetchJson w request prefix) k) (fun error => io_throw error) t
  = (Thrown (prefix ++ status)%string, t ++ [request]).
Proof.
  intros H. unfold io_catch, io_bind. rewrite (fetchJson_fails w status request prefix t H).
  reflexivity.
Qed.

Lemma forgiven {A : Type} (w : World) (status : string) (request : Request)
    (prefix : string) (k : JSValue -> IO A) (default : A) (t : list Request) :
  alwaysFails w status ->
  io_catch (io_bind (fetchJson w request prefix) k) (fun error => io_ret default) t
  = (Returned default, t ++ [request]).
Proof.
  intros H. unfold io_catch, io_bind. rewrite (fetchJson_fails w status request prefix t H).
  reflexivity.
Qed.

(** The body shared by the two forgiving functions: one request, and a
    value whatever the network does. *)
Lemma forgiving_body (w : World) (request : Request) (prefix : string)
    (extract : JSValue -> Outcome JSValue) (default : JSValue) (t : list Request) :
  Value.truthy default = true ->
  exists v,
    io_catch
      (io_bind (fetchJson w request prefix)
         (fun data =>
            io_bind (io_lift (extract data))
              (fun x => io_ret (Value.orElse x default))))
      (fun error => io_ret default) t
    = (Returned v, t ++ [request])
    /\ Value.truthy v = true.
Proof.
  intros D.
  unfold io_catch, io_bind, fetchJson, io_bind, send, io_lift, io_ret, io_throw.
  destruct (fetch w request) as [response|m]; [|exists default; auto].
  destruct (ok response); cbn [negb]; [|exists default; auto].
  destruct (json response) as [data|m]; [|exists default; auto].
  destruct (extract data) as [x|m]; [|exists default; auto].
  eexists. split; [reflexivity|]. apply orElse_truthy. exact D.
Qed.

Lemma analyzeSentiment_returns (w : World) (text : string) (t : list Request) :
  unset w "HUGGINGFACE_API_KEY" = false ->
  exists v request,
    analyzeSentiment w text t = (Returned v, t ++ [request]) /\ Value.truthy v = true.
Proof.
  intros U. unfold analyzeSentiment.
  match goal with
  | |- context [withKey w ?name ?message ?k t] =>
      destruct (withKey_set w name message k t U) as (apiKey & ->)
  end.
  match goal with
  | |- context [fetchJson w ?request ?prefix] =>
      destruct (forgiving_body w request prefix Value.first neutral t eq_refl)
        as (v & E & T)
  end.
  eexists v, _. split; [exact E | exact T].
Qed.

Lemma getCommunityCorrectionsNews_returns (w : World) (t : list Request) :
  unset w "NEWS_API_KEY" = false ->
  exists v request,
    getCommunityCorrectionsNews w t = (Returned v, t ++ [request])
    /\ Value.truthy v = true.
Proof.
  intros U. unfold getCommunityCorrectionsNews.
  match goal with
  | |- context [withKey w ?name ?message ?k t] =>
      destruct (withKey_set w name message k t U) as (apiKey & ->)
  end.
  match goal with
  | |- context [fetchJson w ?request ?prefix] =>
      destruct (forgiving_body w request prefix (fun data => Value.get data "articles")
                  (VArr []) t eq_refl) as (v & E & T)
  end.
  eexists v, _. split; [exact E | exact T].
Qed.

End FreeApiFacts.

(** Replaces a key guard whose variable is configured by its continuation. *)
Ltac with_key W :=
  match goal with
  | |- context [FreeApiService.withKey ?w ?name ?message ?k ?t] =>
      let apiKey := fresh "apiKey" in
      destruct (W _ name message k) as (apiKey & ->)
  end.

(** A function of [FreeApiService] whose API key is missing or empty throws
    the error that names the key, and sends no request. *)
Theorem missing_key_throws_before_any_request :
  forall (w : FreeApiService.World) (t : list FreeApiService.Request),
    (unset w "HUGGINGFACE_API_KEY" = true ->
     (forall texts,
        FreeApiService.generateHuggingFaceEmbeddings w texts t
        = (Thrown "Hugging Face API key not configured", t))
     /\ (forall text,
           FreeApiService.analyzeSentiment w text t
           = (Thrown "Hugging Face API key not configured", t)))
    /\ (unset w "COHERE_API_KEY" = true ->
        forall prompt context,
          FreeApiService.generateCohereResponse w prompt context t
          = (Thrown "Cohere API key not configured", t))
    /\ (unset w "GROQ_API_KEY" = true ->
        forall prompt context,
          FreeApiService.generateGroqResponse w prompt context t
          = (Thrown "Groq API key not configured", t))
    /\ (unset w "TOGETHER_API_KEY" = true ->
        forall prompt context,
          FreeApiService.generateTogetherResponse w prompt context t
          = (Thrown "Together API key not configured", t))
    /\ (unset w "GOOGLE_API_KEY" = true ->
        forall prompt context,
          FreeApiService.generateGeminiResponse w prompt context t
          = (Thrown "Google API key not configured", t))
    /\ (unset w "NEWS_API_KEY" = true ->
        FreeApiService.getCommunityCorrectionsNews w t
        = (Thrown "News API key not configured", t))
    /\ (unset w "JSONBIN_API_KEY" = true ->
        (forall config,
           FreeApiService.storeConfiguration w config t
           = (Thrown "JSONBin API key not configured", t))
        /\ (forall binId,
              FreeApiService.getConfiguration w binId t
              = (Thrown "JSONBin API key not configured", t))).
Proof.
  intros w t.
  repeat split; intros; apply FreeApiFacts.withKey_unset; assumption.
Qed.

Lemma missing_key_witness :
  unset noKeys "GROQ_API_KEY" = true
  /\ FreeApiService.generateGroqResponse noKeys "What about Robert?" "" []
     = (Thrown "Groq API key not configured", [])
  /\ FreeApiService.analyzeSentiment noKeys "I am fine" []
     = (Thrown "Hugging Face API key not configured", []).
Proof.
  pose proof (missing_key_throws_before_any_request noKeys []) as (HF & _ & G & _).
  split; [reflexivity|]. split.
  - exact (G eq_refl "What about Robert?" "").
  - exact (proj2 (HF eq_refl) "I am fine").
Defined.

(** The four text generators (Groq, Gemini, Cohere, Together) send at most
    one request, and what they return is never falsy: an empty or missing
    completion is replaced by "No response generated", and a value is
    returned only for a response with a passing status. *)
Theorem text_generators_never_return_falsy :
  forall (w : FreeApiService.World) (prompt context : string)
         (t : list FreeApiService.Request),
    generatorContract w t (FreeApiService.generateGroqResponse w prompt context t)
    /\ generatorContract w t (FreeApiService.generateGeminiResponse w prompt context t)
    /\ generatorContract w t (FreeApiService.generateCohereResponse w prompt context t)
    /\ generatorContract w t (FreeApiService.generateTogetherResponse w prompt context t).
Proof.
  intros w prompt context t. repeat split; apply FreeApiFacts.generator_contract.
Qed.

(** With every key configured and a network that answers every request with
    a failing status, the text generators and the embedding function throw
    the error that names their API and the status text, after one request,
    while [analyzeSentiment] and [getCommunityCorrectionsNews] return their
    defaults, the neutral sentiment and the empty list. *)
Theorem failing_status_becomes_error_or_default :
  forall (w : FreeApiService.World) (status : string) (t : list FreeApiService.Request),
    (forall name, unset w name = false) ->
    alwaysFails w status ->
    (forall prompt context,
       exists r1 r2 r3 r4,
         FreeApiService.generateGroqResponse w prompt context t
         = (Thrown ("Groq API error: " ++ status)%string, t ++ [r1])
         /\ FreeApiService.generateGeminiResponse w prompt context t
            = (Thrown ("Google Gemini API error: " ++ status)%string, t ++ [r2])
         /\ FreeApiService.generateCohereResponse w prompt context t
            = (Thrown ("Cohere API error: " ++ status)%string, t ++ [r3])
         /\ FreeApiService.generateTogetherResponse w prompt context t
            = (Thrown ("Together API error: " ++ status)%string, t ++ [r4]))
    /\ (forall texts,
          exists r,
            FreeApiService.generateHuggingFaceEmbeddings w texts t
            = (Thrown ("Hugging Face API error: " ++ status)%string, t ++ [r]))
    /\ (forall text,
          exists r,
            FreeApiService.analyzeSentiment w text t
            = (Returned FreeApiService.neutral, t ++ [r]))
    /\ (exists r,
          FreeApiService.getCommunityCorrectionsNews w t = (Returned (VArr []), t ++ [r])).
Proof.
  intros w status t K F.
  assert (Hk : forall (A : Type) name message (k : string -> FreeApiService.IO A),
             exists apiKey, FreeApiService.withKey w name message k t = k apiKey t).
  { intros A name message k. apply FreeApiFacts.withKey_set, K. }
  repeat split.
  - intros prompt context.
    unfold FreeApiService.generateGroqResponse, FreeApiService.generateGeminiResponse,
      FreeApiService.generateCohereResponse, FreeApiService.generateTogetherResponse.
    repeat with_key Hk.
    rewrite !(FreeApiFacts.rethrown w status) by exact F.
    eexists _, _, _, _. repeat split; reflexivity.
  - intros texts. unfold FreeApiService.generateHuggingFaceEmbeddings.
    with_key Hk. unfold FreeApiService.io_catch.
    rewrite (FreeApiFacts.fetchJson_fails w status) by exact F.
    eexists. reflexivity.
  - intros text. unfold FreeApiService.analyzeSentiment.
    with_key Hk.
    rewrite (FreeApiFacts.forgiven w status) by exact F.
    eexists. reflexivity.
  - unfold FreeApiService.getCommunityCorrectionsNews.
    with_key Hk.
    rewrite (FreeApiFacts.forgiven w status) by exact F.
    eexists. reflexivity.
Qed.

Lemma failing_status_witness :
  (forall name, unset rateLimited name = false)
  /\ alwaysFails rateLimited "Too Many Requests"
  /\ exists r,
       FreeApiService.analyzeSentiment rateLimited "I am fine" []
       = (Returned FreeApiService.neutral, [] ++ [r]).
Proof.
  assert (K : forall name, unset rateLimited name = false) by (intros name; reflexivity).
  assert (F : alwaysFails rateLimited "Too Many Requests").
  { intros request. eexists. repeat split. }
  split; [exact K|]. split; [exact F|].
  exact (proj1 (proj2 (proj2 (failing_status_becomes_error_or_default rateLimited
                                "Too Many Requests" [] K F))) "I am fine").
Defined.

(** Once their key is configured, [analyzeSentiment] and
    [getCommunityCorrectionsNews] never throw: whatever the network does
    (a rejected request, a failing status, a body that is not JSON, a body
    of another shape) they send one request and return a value that is not
    falsy. *)
Theorem forgiving_functions_always_return :
  forall (w : FreeApiService.World) (t : list FreeApiService.Request),
    (unset w "HUGGINGFACE_API_KEY" = false ->
     forall text,
       exists v request,
         FreeApiService.analyzeSentiment w text t = (Returned v, t ++ [request])
         /\ Value.truthy v = true)
    /\ (unset w "NEWS_API_KEY" = false ->
        exists v request,
          FreeApiService.getCommunityCorrectionsNews w t = (Returned v, t ++ [request])
          /\ Value.truthy v = true).
Proof.
  intros w t. split.
  - intros U text. apply FreeApiFacts.analyzeSentiment_returns. exact U.
  - apply FreeApiFacts.getCommunityCorrectionsNews_returns.
Qed.

Lemma forgiving_functions_witness :
  unset rateLimited "HUGGINGFACE_API_KEY" = false
  /\ exists v request,
       FreeApiService.analyzeSentiment rateLimited "I am fine" [] = (Returned v, [] ++ [request])
       /\ Value.truthy v = true.
Proof.
  split; [reflexivity|].
  exact (proj1 (forgiving_functions_always_return rateLimited []) eq_refl "I am fine").
Defined.

(** [processDocumentWithSentiment] throws "Document not found" exactly for a
    document that the database does not hold, and lets a failure of the
    read through.  For every stored document it returns [success: true]
    and [chunksCreated: 0] (it creates no chunk), whatever the sentiment
    backend does: without the Hugging Face key the sentiment is [null] and
    no request is sent, with the key one request is sent and the sentiment
    is a value that is not falsy. *)
Theorem processDocumentWithSentiment_outcomes :
  forall (w : FreeApiService.World) (getDocument : Z -> Outcome (option Document))
         (documentId : Z) (t : list FreeApiService.Request),
    match getDocument documentId with
    | Thrown message =>
        EnhancedRAGService.processDocumentWithSentiment w getDocument documentId t
        = (Thrown message, t)
    | Returned None =>
        EnhancedRAGService.processDocumentWithSentiment w getDocument documentId t
        = (Thrown "Document not found", t)
    | Returned (Some document) =>
        exists sentiment t',
          EnhancedRAGService.processDocumentWithSentiment w getDocument documentId t
          = (Returned {| EnhancedRAGService.success := true;
                         EnhancedRAGService.chunksCreated := 0;
                         EnhancedRAGService.sentimentAnalysis := sentiment |}, t')
          /\ if unset w "HUGGINGFACE_API_KEY"
             then sentiment = VNull /\ t' = t
             else Value.truthy sentiment = true /\ exists request, t' = t ++ [request]
    end.
Proof.
  intros w getDocument documentId t.
  unfold EnhancedRAGService.processDocumentWithSentiment.
  unfold FreeApiService.io_bind at 1. unfold FreeApiService.io_lift at 1.
  destruct (getDocument documentId) as [[document|]|message]; try reflexivity.
  unfold FreeApiService.io_bind, FreeApiService.io_catch.
  destruct (unset w "HUGGINGFACE_API_KEY") eqn:U.
  - unfold FreeApiService.analyzeSentiment.
    rewrite (FreeApiFacts.withKey_unset w _ _ _ t U).
    eexists _, _. split; [reflexivity|]. split; reflexivity.
  - destruct (FreeApiFacts.analyzeSentiment_returns w (doc_content document) t U)
      as (v & request & -> & T).
    eexists _, _. split; [reflexivity|]. split; [exact T | exists request; reflexivity].
Qed.

(* ================================================================== *)
(** * The chat route, the statistics and the index indicators          *)
(* ================================================================== *)

(** [POST /api/chat/query] answers 400 "Query is required" to a query that
    is missing, not a string or empty, and then neither calls a backend nor
    stores a chat message. *)
Theorem postChatQuery_rejects_invalid_query :
  forall (stripGenerated : string -> string) (env : Env)
         (createChatMessage : InsertChatMessage -> Outcome ChatMessage) (query : JSValue),
    validQuery query = false ->
    Routes.postChatQuery stripGenerated env createChatMessage query
    = ({| Routes.status := 400; Routes.responseBody := Routes.ErrorBody "Query is required" |},
       [], []).
Proof.
  intros strip env create query H.
  destruct query as [| | | |[|a s]| |]; try reflexivity. discriminate H.
Qed.

Lemma postChatQuery_invalid_witness :
  validQuery (VNum 42) = false
  /\ Routes.postChatQuery (fun s => s) emptyEnv (fun _ => Thrown "database down") (VNum 42)
     = ({| Routes.status := 400; Routes.responseBody := Routes.ErrorBody "Query is required" |},
        [], []).
Proof.
  split; [reflexivity|].
  exact (postChatQuery_rejects_invalid_query (fun s => s) emptyEnv
           (fun _ => Thrown "database down") (VNum 42) eq_refl).
Defined.

(** For a query string that is not empty, [POST /api/chat/query] makes the
    backend calls of [processQuery] and no other.  If [processQuery]
    throws, the route answers 500 with the message and stores nothing.  If
    it returns, the route hands one chat message to the storage, made of
    the query, the answer and the sources of the response, and answers 200
    with that response, or 500 with the failure of the storage. *)
Theorem postChatQuery_stores_what_it_answers :
  forall (stripGenerated : string -> string) (env : Env)
         (createChatMessage : InsertChatMessage -> Outcome ChatMessage)
         (a : ascii) (rest : string),
    let query := String a rest in
    let '(response, calls, inserted) :=
      Routes.postChatQuery stripGenerated env createChatMessage (VStr query) in
    calls = snd (RAGService.processQuery stripGenerated env query [])
    /\ match fst (RAGService.processQuery stripGenerated env query []) with
       | Thrown message =>
           response = {| Routes.status := 500;
                         Routes.responseBody := Routes.ErrorBody message |}
           /\ inserted = []
       | Returned ragResponse =>
           let message := {| new_message := query;
                             new_response := answer ragResponse;
                             new_sources := sources ragResponse |} in
           inserted = [message]
           /\ match createChatMessage message with
              | Returned _ =>
                  response = {| Routes.status := 200;
                                Routes.responseBody := Routes.RAGBody ragResponse |}
              | Thrown error =>
                  response = {| Routes.status := 500;
                                Routes.responseBody := Routes.ErrorBody error |}
              end
       end.
Proof.
  intros strip env create a rest query. subst query. unfold Routes.postChatQuery.
  destruct (RAGService.processQuery strip env (String a rest) []) as [[r|m] calls];
    cbn [fst snd].
  - cbv zeta. destruct (create _); repeat split; reflexivity.
  - repeat split; reflexivity.
Qed.

Module StatsFacts.

Lemma filter_all {A : Type} (p : A -> bool) (l : list A) :
  Forall (fun x => p x = true) l -> filter p l = l.
Proof.
  induction 1 as [|x l Hx _ IH]; simpl; [reflexivity|]. rewrite Hx, IH. reflexivity.
Qed.

Lemma filter_lt {A : Type} (p : A -> bool) (l : list A) (x : A) :
  In x l -> p x = false -> List.length (filter p l) < List.length l.
Proof.
  induction l as [|y l IH]; intros Hin Hp; [contradiction|]. simpl.
  destruct Hin as [->|Hin].
  - rewrite Hp. pose proof (filter_length_le p l). lia.
  - specialize (IH Hin Hp). destruct (p y); simpl; lia.
Qed.

Lemma filter_pos {A : Type} (p : A -> bool) (l : list A) (x : A) :
  In x l -> p x = true -> 0 < List.length (filter p l).
Proof.
  induction l as [|y l IH]; intros Hin Hp; [contradiction|]. simpl.
  destruct Hin as [->|Hin].
  - rewrite Hp. simpl. lia.
  - specialize (IH Hin Hp). destruct (p y); simpl; lia.
Qed.

Lemma status_processing (documents processed : nat) :
  0 < documents -> documents < processed ->
  Home.getIndexStatus documents processed = "processing".
Proof.
  intros H1 H2. unfold Home.getIndexStatus.
  destruct (Nat.eqb_spec documents 0); [lia|].
  destruct (Nat.eqb_spec processed documents); [lia|]. reflexivity.
Qed.

End StatsFacts.


(** The index indicators of the home page compare the number of documents
    of one kind with the number of processed documents of both kinds.  So
    when the database holds transcripts and policies and every document is
    processed, both indicators read "processing", not "ready". *)
Theorem index_indicators_stay_processing :
  forall (documents : list Document) (vectorChunks : list VectorChunk)
         (chatMessages : list ChatMessage),
    fullyProcessed documents ->
    exists stats,
      Routes.getStats (Returned documents) (Returned vectorChunks) (Returned chatMessages)
      = {| Routes.status := 200; Routes.responseBody := Routes.StatsBody stats |}
      /\ Routes.processedDocuments stats = Routes.totalDocuments stats
      /\ Home.transcriptStatus (Some stats) = "processing"
      /\ Home.policyStatus (Some stats) = "processing".
Proof.
  intros documents vectorChunks chatMessages (P & (dt & Ht & Tt) & (dp & Hp & Tp)).
  eexists. split; [reflexivity|].
  cbn [Routes.processedDocuments Routes.totalDocuments].
  unfold Home.transcriptStatus, Home.policyStatus, Home.orZero.
  cbn [Routes.processedDocuments Routes.transcriptDocuments Routes.policyDocuments].
  rewrite (StatsFacts.filter_all doc_processed documents P).
  split; [reflexivity|]. split; apply StatsFacts.status_processing.
  - apply (StatsFacts.filter_pos _ documents dt Ht). rewrite Tt. reflexivity.
  - apply (StatsFacts.filter_lt _ documents dp Hp). rewrite Tp. reflexivity.
  - apply (StatsFacts.filter_pos _ documents dp Hp). rewrite Tp. reflexivity.
  - apply (StatsFacts.filter_lt _ documents dt Ht). rewrite Tt. reflexivity.
Qed.

Lemma index_indicators_witness :
  fullyProcessed twoDocuments
  /\ exists stats,
       Routes.getStats (Returned twoDocuments) (Returned []) (Returned [])
       = {| Routes.status := 200; Routes.responseBody := Routes.StatsBody stats |}
       /\ Routes.processedDocuments stats = Routes.totalDocuments stats
       /\ Home.transcriptStatus (Some stats) = "processing"
       /\ Home.policyStatus (Some stats) = "processing".
Proof.
  assert (H : fullyProcessed twoDocuments).
  { unfold fullyProcessed, twoDocuments. split; [repeat constructor|]. split.
    - eexists. split; [left; reflexivity | reflexivity].
    - eexists. split; [right; left; reflexivity | reflexivity]. }
  split; [exact H|].
  exact (index_indicators_stay_processing twoDocuments [] [] H).
Defined.

(* ================================================================== *)
(** * Stored chunks read back                                          *)
(* ================================================================== *)

Module StorageFacts.



End StorageFacts.



(* ================================================================== *)
(** * The demo response                                                *)
(* ================================================================== *)

Module DemoFacts.

Local Open Scope float_scope.

(** A score above 0.2 is not falsy: [similarity || 0.8] is the score. *)
Lemma above_threshold_truthy (x : float) :
  (0.2 <? x) = true -> JS.orNumber x 0.8 = x.
Proof.
  intros H. unfold JS.orNumber.
  destruct (JSNumber.ltb_not_nan _ _ H) as [_ N]. rewrite N.
  destruct (x =? 0) eqn:E; [|reflexivity].
  pose proof (JSNumber.eqb_leb_r x 0 0.2 E) as L.
  rewrite (JSNumber.ltb_leb _ _ H) in L. vm_compute in L. discriminate L.
Qed.

Lemma includes_empty (s : string) : JS.includes s "" = true.
Proof. destruct s; reflexivity. Qed.

Lemma sort_insert_tied {A : Type} (cmp : A -> A -> float) (x : A) (l : list A) :
  (forall y, In y l -> (0 <? cmp x y) = false) -> JS.sort_insert cmp x l = x :: l.
Proof.
  destruct l as [|y l]; intros H; [reflexivity|].
  cbn [JS.sort_insert]. rewrite (H y (or_introl eq_refl)). reflexivity.
Qed.

(** A sort leaves an array of ties as it is. *)
Lemma sort_all_tied {A : Type} (cmp : A -> A -> float) (l : list A) :
  (forall x y, In x l -> In y l -> (0 <? cmp x y) = false) -> JS.sort cmp l = l.
Proof.
  induction l as [|x l IH]; intros H; [reflexivity|].
  cbn [JS.sort fold_right]. fold (JS.sort cmp l).
  rewrite IH by (intros a b Ha Hb; apply H; right; assumption).
  apply sort_insert_tied. intros y Hy. apply H; [left; reflexivity | right; exact Hy].
Qed.

Lemma genericAnswer_nonEmpty (relevantChunks : list Scored) :
  nonEmpty (DemoProcessor.genericAnswer relevantChunks) = true.
Proof.
  unfold DemoProcessor.genericAnswer.
  destruct (filter _ relevantChunks); destruct (filter _ relevantChunks); reflexivity.
Qed.

Lemma generateContextualAnswer_nonEmpty (query : string) (relevantChunks : list Scored) :
  nonEmpty (DemoProcessor.generateContextualAnswer query relevantChunks) = true.
Proof.
  unfold DemoProcessor.generateContextualAnswer.
  pose proof (genericAnswer_nonEmpty relevantChunks) as G.
  repeat match goal with
         | |- context [if ?b then _ else _] => destruct b
         end; try reflexivity; exact G.
Qed.

End DemoFacts.

Local Open Scope float_scope.

(** Every response of [generateDemoResponse] has an answer that is not
    empty and at most five sources, one per relevant chunk and in their
    order; the similarity of a source is the score of its chunk (the
    default 0.8 never applies, since a relevant chunk scores above 0.2),
    and its text has at most 203 characters. *)
Theorem generateDemoResponse_invariants :
  forall (query : string) (chunks : list VectorChunk),
    let response := DemoProcessor.generateDemoResponse query chunks in
    nonEmpty (answer response) = true
    /\ (List.length (sources response) <= 5)%nat
    /\ map src_similarity (sources response)
       = map (fun c => Some (similarity c)) (DemoProcessor.findRelevantChunks query chunks)
    /\ map src_chunkId (sources response)
       = map (fun c => id (chunk c)) (DemoProcessor.findRelevantChunks query chunks)
    /\ Forall (fun s => (String.length (src_text s) <= 203)%nat) (sources response).
Proof.
  intros query chunks response. subst response.
  unfold DemoProcessor.generateDemoResponse. cbn [answer sources].
  split; [apply DemoFacts.generateContextualAnswer_nonEmpty|].
  split; [rewrite length_map; apply ArrayFacts.slice0_length|].
  split; [|split].
  - rewrite map_map. cbn [src_similarity]. apply map_ext_in. intros c Hc.
    f_equal. apply DemoFacts.above_threshold_truthy.
    unfold DemoProcessor.findRelevantChunks in Hc.
    apply ArrayFacts.slice0_In in Hc. apply ArrayFacts.sort_In in Hc.
    apply filter_In in Hc. exact (proj2 Hc).
  - rewrite map_map. reflexivity.
  - apply Forall_forall. intros s Hs. apply in_map_iff in Hs.
    destruct Hs as (c & <- & _). cbn [src_text].
    rewrite Selection.append_length.
    pose proof (Selection.substring0_length 200 (text (chunk c))).
    destruct (200 <? String.length (text (chunk c)))%nat; simpl; lia.
Qed.

(** The empty query matches every chunk: it splits into one empty word,
    which every text includes, so every chunk scores 0.3 and the keyword
    search returns the first five chunks, in their order. *)
Theorem findRelevantChunks_empty_query :
  forall chunks : list VectorChunk,
    DemoProcessor.findRelevantChunks "" chunks
    = map (fun c => {| chunk := c; similarity := 0.3 |}) (firstn 5 chunks).
Proof.
  intros chunks. unfold DemoProcessor.findRelevantChunks.
  assert (S : forall c, JS.Math_min (DemoProcessor.score "" (JS.split_ws (JS.toLowerCase "")) c)
                                    0.95 = 0.3).
  { intros c. unfold DemoProcessor.score. cbn [JS.toLowerCase JS.split_ws fold_left].
    rewrite DemoFacts.includes_empty. vm_compute. reflexivity. }
  rewrite (map_ext _ (fun c => {| chunk := c; similarity := 0.3 |}))
    by (intros c; rewrite S; reflexivity).
  assert (F : filter (fun c => 0.2 <? similarity c)
                (map (fun c => {| chunk := c; similarity := 0.3 |}) chunks)
              = map (fun c => {| chunk := c; similarity := 0.3 |}) chunks).
  { induction chunks as [|c l IH]; [reflexivity|]. cbn [map filter similarity].
    replace (0.2 <? 0.3) with true by (vm_compute; reflexivity). rewrite IH. reflexivity. }
  rewrite F. rewrite DemoFacts.sort_all_tied.
  - unfold JS.slice0. apply firstn_map.
  - intros x y Hx Hy. apply in_map_iff in Hx, Hy.
    destruct Hx as (a & <- & _). destruct Hy as (b & <- & _).
    vm_compute. reflexivity.
Qed.

Local Open Scope nat_scope.

(* ================================================================== *)
(** * The rounding error of the normalization                          *)
(* ================================================================== *)

(** Every operation of binary64 arithmetic returns the exact result rounded
    to a neighbouring number, so its relative error is at most [2^-52] as
    long as the result is a normal number.  This module derives that bound
    from the specification of the operations ([SpecFloat]) for the
    addition, the multiplication, the division and the square root of
    positive numbers, and follows the error through the normalization of
    the embedding: the norm of the result is 1 up to [2^-41]. *)
Module RoundingFacts.

Import Reals.
Import Rounding.

Local Open Scope R_scope.

(** ** Powers of two *)

Lemma bpow_pos e : 0 < bpow e.
Proof. apply powerRZ_lt. lra. Qed.

Lemma bpow_add a b : bpow (a + b) = bpow a * bpow b.
Proof. apply powerRZ_add. lra. Qed.

Lemma bpow_IZR k : (0 <= k)%Z -> bpow k = IZR (2 ^ k).
Proof.
  intros H. unfold bpow. rewrite <- (Z2Nat.id k H) at 1.
  rewrite <- pow_powerRZ. rewrite <- (Z2Nat.id k H) at 2.
  rewrite <- pow_IZR. reflexivity.
Qed.

Lemma bpow_le a b : (a <= b)%Z -> bpow a <= bpow b.
Proof.
  intros H. replace b with (a + (b - a))%Z by lia. rewrite bpow_add.
  rewrite (bpow_IZR (b - a)) by lia.
  assert (1 <= IZR (2 ^ (b - a))).
  { apply IZR_le. assert (0 < 2 ^ (b - a))%Z by (apply Z.pow_pos_nonneg; lia). lia. }
  pose proof (bpow_pos a). nra.
Qed.

Lemma bpow_lt a b : (a < b)%Z -> bpow a < bpow b.
Proof.
  intros H. replace b with (a + (b - a))%Z by lia. rewrite bpow_add.
  rewrite (bpow_IZR (b - a)) by lia.
  assert (2 <= IZR (2 ^ (b - a))).
  { apply IZR_le. replace (b - a)%Z with (Z.succ (b - a - 1)) by lia.
    rewrite Z.pow_succ_r by lia.
    assert (0 < 2 ^ (b - a - 1))%Z by (apply Z.pow_pos_nonneg; lia). lia. }
  pose proof (bpow_pos a). nra.
Qed.

Lemma bpow_lt_inv a b : bpow a < bpow b -> (a < b)%Z.
Proof.
  intros H. destruct (Z_lt_le_dec a b) as [L|L]; [exact L|].
  apply bpow_le in L. lra.
Qed.

Lemma bpow_le_inv a b : bpow a <= bpow b -> (a <= b)%Z.
Proof.
  intros H. destruct (Z_le_gt_dec a b) as [L|L]; [exact L|].
  assert (b < a)%Z by lia. apply bpow_lt in H0. lra.
Qed.

(** ** Rounding to 53 digits *)

Local Open Scope Z_scope.

(** The digits of a positive number between two powers of two. *)
Lemma digits_unique (p : positive) (k : Z) :
  2 ^ (k - 1) <= Z.pos p < 2 ^ k -> Z.pos (digits2_pos p) = k.
Proof.
  intros [H1 H2]. pose proof (Binary64.digits2_pos_bounds p) as [B1 B2].
  set (d := Z.pos (digits2_pos p)) in *.
  assert (0 < d) by (unfold d; lia).
  destruct (Z_lt_le_dec k 1) as [K|K].
  { assert (2 ^ k <= 2 ^ 0) by (destruct (Z_lt_le_dec k 0);
      [rewrite Z.pow_neg_r by lia; simpl; lia | apply Z.pow_le_mono_r; lia]).
    simpl in *. lia. }
  destruct (Z.lt_trichotomy d k) as [L|[E|G]]; [|exact E|].
  - assert (2 ^ d <= 2 ^ (k - 1)) by (apply Z.pow_le_mono_r; lia). lia.
  - assert (2 ^ k <= 2 ^ (d - 1)) by (apply Z.pow_le_mono_r; lia). lia.
Qed.

(** Shifting a mantissa of at least 53 digits to its canonical exponent. *)
Lemma shr_fexp_value (M : positive) (e d : Z) (l : location) :
  Z.pos (digits2_pos M) = d ->
  53 <= d -> -1074 <= d + e - 53 ->
  exists mrs,
    shr_fexp prec emax (Z.pos M) e l = (mrs, e + (d - 53))
    /\ shr_m mrs = Z.pos M / 2 ^ (d - 53).
Proof.
  intros Ed Hd He. unfold shr_fexp, shr, fexp. simpl Zdigits2. rewrite Ed.
  replace (Z.max (d + e - prec) (SpecFloat.emin prec emax) - e) with (d - 53)
    by (unfold prec, SpecFloat.emin, emax; lia).
  destruct (d - 53) as [|n|n] eqn:Hn; try lia.
  - eexists. split; [rewrite Z.add_0_r; reflexivity|].
    rewrite Binary64.shr_record_of_loc_m. simpl. rewrite Z.div_1_r. reflexivity.
  - eexists. split; [reflexivity|].
    rewrite Binary64.iter_pos_shr_1_m by (rewrite Binary64.shr_record_of_loc_m; lia).
    rewrite Binary64.shr_record_of_loc_m. reflexivity.
Qed.

Lemma rne_choice (m : Z) (l : location) :
  round_nearest_even m l = m \/ round_nearest_even m l = m + 1.
Proof.
  unfold round_nearest_even. destruct l as [|[]]; auto. destruct (Z.even m); auto.
Qed.

(** A 53-digit mantissa, or [2^53], at its canonical exponent. *)
Lemma shr_fexp_canonical (m2 : Z) (e1 : Z) :
  2 ^ 52 <= m2 <= 2 ^ 53 -> -1074 <= e1 <= 960 ->
  exists (m : positive) (e : Z) mrs,
    shr_fexp prec emax m2 e1 loc_Exact = (mrs, e)
    /\ shr_m mrs = Z.pos m
    /\ 2 ^ 52 <= Z.pos m < 2 ^ 53
    /\ e1 <= e <= e1 + 1
    /\ Z.pos m * 2 ^ (e - e1) = m2.
Proof.
  intros Hm He.
  destruct m2 as [|p2|p2]; try (simpl in Hm; lia).
  destruct (Z_lt_le_dec (Z.pos p2) (2 ^ 53)) as [L|L].
  - assert (D2 : Z.pos (digits2_pos p2) = 53) by (apply digits_unique; simpl; lia).
    destruct (shr_fexp_value p2 e1 53 loc_Exact D2) as (mrs2 & E & Hm2); try lia.
    simpl (53 - 53) in *. rewrite Z.pow_0_r, Z.div_1_r in Hm2. rewrite Z.add_0_r in E.
    exists p2, e1, mrs2. repeat split; try lia; try assumption.
    rewrite Z.sub_diag. simpl. lia.
  - assert (E53 : Z.pos p2 = 2 ^ 53) by lia.
    assert (D2 : Z.pos (digits2_pos p2) = 54) by (apply digits_unique; simpl; lia).
    destruct (shr_fexp_value p2 e1 54 loc_Exact D2) as (mrs2 & E & Hm2); try lia.
    simpl (54 - 53) in *. rewrite E53 in Hm2.
    change (2 ^ 53 / 2 ^ 1) with 4503599627370496 in Hm2.
    exists 4503599627370496%positive, (e1 + 1), mrs2. repeat split; try lia; try assumption.
    replace (e1 + 1 - e1) with 1 by lia. simpl. simpl in E53. lia.
Qed.

(** Rounding in integers: a mantissa of at least 53 digits is rounded to one
    of the two 53-digit mantissas around it. *)
Lemma binary_round_aux_Z (mx : positive) (ex d : Z) (lx : location) :
  Z.pos (digits2_pos mx) = d ->
  53 <= d -> -1000 <= d + ex -> d + ex <= 1001 ->
  exists (m : positive) (e : Z),
    binary_round_aux prec emax false (Z.pos mx) ex lx = S754_finite false m e
    /\ 2 ^ 52 <= Z.pos m < 2 ^ 53
    /\ ex + (d - 53) <= e
    /\ (Z.pos m * 2 ^ (e - (ex + (d - 53))) = Z.pos mx / 2 ^ (d - 53)
        \/ Z.pos m * 2 ^ (e - (ex + (d - 53))) = Z.pos mx / 2 ^ (d - 53) + 1).
Proof.
  intros Ed Hd Hlo Hhi.
  pose proof (Binary64.digits2_pos_bounds mx) as [B1 B2]. rewrite Ed in B1, B2.
  assert (P : 0 < 2 ^ (d - 53)) by (apply Z.pow_pos_nonneg; lia).
  assert (M1 : 2 ^ 52 <= Z.pos mx / 2 ^ (d - 53) < 2 ^ 53).
  { split.
    - apply Z.div_le_lower_bound; [exact P|].
      rewrite <- Z.pow_add_r by lia. replace (d - 53 + 52) with (d - 1) by lia. exact B1.
    - apply Z.div_lt_upper_bound; [exact P|].
      rewrite <- Z.pow_add_r by lia. replace (d - 53 + 53) with d by lia. exact B2. }
  unfold binary_round_aux.
  destruct (shr_fexp_value mx ex d lx Ed Hd ltac:(lia)) as (mrs & -> & Hm).
  rewrite Hm.
  destruct (shr_fexp_canonical (round_nearest_even (Z.pos mx / 2 ^ (d - 53))
                                  (loc_of_shr_record mrs)) (ex + (d - 53)))
    as (m & e & mrs2 & -> & Hm2 & Hb & He & Hv).
  { destruct (rne_choice (Z.pos mx / 2 ^ (d - 53)) (loc_of_shr_record mrs)) as [R|R];
      rewrite R; lia. }
  { lia. }
  rewrite Hm2.
  replace (e <=? emax - prec) with true
    by (symmetry; apply Z.leb_le; unfold emax, prec; lia).
  exists m, e. repeat split; try lia.
  rewrite Hv. apply rne_choice.
Qed.

Local Open Scope R_scope.

Lemma u_pos : 0 < u.
Proof. unfold u. apply Rinv_0_lt_compat. apply IZR_lt. reflexivity. Qed.

Lemma u_small : u <= / 1000000.
Proof.
  unfold u. apply Rinv_le_contravar; [lra|]. apply IZR_le. vm_compute. discriminate.
Qed.

(** Rounding in real numbers: the result is within [2^-52] of the exact
    value, relatively. *)
Lemma binary_round_aux_R (mx : positive) (ex : Z) (lx : location) (x : R) :
  (53 <= Z.pos (digits2_pos mx))%Z ->
  IZR (Z.pos mx) * bpow ex <= x < IZR (Z.pos mx + 1) * bpow ex ->
  bpow (-1000) <= x <= bpow 1000 ->
  exists (m : positive) (e : Z),
    binary_round_aux prec emax false (Z.pos mx) ex lx = S754_finite false m e
    /\ (2 ^ 52 <= Z.pos m < 2 ^ 53)%Z
    /\ x * (1 - u) <= IZR (Z.pos m) * bpow e <= x * (1 + u).
Proof.
  intros Hd [Hx1 Hx2] [Hr1 Hr2].
  set (d := Z.pos (digits2_pos mx)) in *.
  pose proof (Binary64.digits2_pos_bounds mx) as [B1 B2]. fold d in B1, B2.
  assert (Pex := bpow_pos ex).
  assert (Hlo : (-1000 <= d + ex)%Z).
  { assert (bpow (-1000) < bpow (d + ex)); [|apply bpow_lt_inv in H; lia].
    eapply Rle_lt_trans; [exact Hr1|]. eapply Rlt_le_trans; [exact Hx2|].
    rewrite bpow_add, (bpow_IZR d) by lia.
    apply Rmult_le_compat_r; [lra|]. apply IZR_le. lia. }
  assert (Hhi : (d + ex <= 1001)%Z).
  { assert (bpow (d - 1 + ex) <= bpow 1000); [|apply bpow_le_inv in H; lia].
    eapply Rle_trans; [|exact Hr2]. eapply Rle_trans; [|exact Hx1].
    rewrite bpow_add, (bpow_IZR (d - 1)) by lia.
    apply Rmult_le_compat_r; [lra|]. apply IZR_le. lia. }
  destruct (binary_round_aux_Z mx ex d lx eq_refl Hd Hlo Hhi)
    as (m & e & E & Hm & He & Hv).
  exists m, e. split; [exact E|]. split; [exact Hm|].
  set (n := (d - 53)%Z) in *. set (e1 := (ex + n)%Z) in *.
  set (m1 := (Z.pos mx / 2 ^ n)%Z) in *.
  assert (Pn : (0 < 2 ^ n)%Z) by (apply Z.pow_pos_nonneg; unfold n; lia).
  assert (M1 : (2 ^ 52 <= m1)%Z).
  { unfold m1. apply Z.div_le_lower_bound; [exact Pn|].
    rewrite <- Z.pow_add_r by (unfold n; lia).
    replace (n + 52)%Z with (d - 1)%Z by (unfold n; lia). exact B1. }
  assert (D1 : (m1 * 2 ^ n <= Z.pos mx < (m1 + 1) * 2 ^ n)%Z).
  { unfold m1. pose proof (Z.div_mod (Z.pos mx) (2 ^ n) ltac:(lia)).
    pose proof (Z.mod_pos_bound (Z.pos mx) (2 ^ n) Pn). nia. }
  assert (Pe1 := bpow_pos e1).
  assert (E1 : bpow e1 = bpow ex * IZR (2 ^ n)).
  { unfold e1. rewrite bpow_add, (bpow_IZR n) by (unfold n; lia). reflexivity. }
  (* the exact value lies between [m1] and [m1 + 1] at exponent [e1] *)
  assert (X1 : IZR m1 * bpow e1 <= x).
  { eapply Rle_trans; [|exact Hx1]. rewrite E1.
    replace (IZR m1 * (bpow ex * IZR (2 ^ n))) with (IZR (m1 * 2 ^ n) * bpow ex)
      by (rewrite mult_IZR; ring).
    apply Rmult_le_compat_r; [lra|]. apply IZR_le. lia. }
  assert (X2 : x <= IZR (m1 + 1) * bpow e1).
  { eapply Rle_trans; [apply Rlt_le; exact Hx2|]. rewrite E1.
    replace (IZR (m1 + 1) * (bpow ex * IZR (2 ^ n)))
      with (IZR ((m1 + 1) * 2 ^ n) * bpow ex) by (rewrite mult_IZR; ring).
    apply Rmult_le_compat_r; [lra|]. apply IZR_le. lia. }
  (* the result is one of the two *)
  assert (V : IZR (Z.pos m) * bpow e = IZR (Z.pos m * 2 ^ (e - e1)) * bpow e1).
  { replace e with (e1 + (e - e1))%Z at 1 by lia.
    rewrite bpow_add, (bpow_IZR (e - e1)) by lia. rewrite mult_IZR. ring. }
  rewrite V.
  assert (U : bpow e1 <= x * u).
  { unfold u. apply Rmult_le_reg_r with (IZR (2 ^ 52)); [apply IZR_lt; reflexivity|].
    replace (x * / IZR (2 ^ 52) * IZR (2 ^ 52)) with x
      by (field; apply not_0_IZR; discriminate).
    eapply Rle_trans; [|exact X1]. rewrite Rmult_comm.
    apply Rmult_le_compat_r; [lra|]. apply IZR_le. exact M1. }
  rewrite plus_IZR in X2.
  destruct Hv as [-> | ->]; [|rewrite plus_IZR]; split; nra.
Qed.

(** ** The rounded operations on positive numbers *)

Lemma fpos_pos x v : fpos x v -> 0 < v.
Proof.
  intros (m & e & _ & Hm & ->). apply Rmult_lt_0_compat; [|apply bpow_pos].
  apply IZR_lt. lia.
Qed.

Lemma digits_ge (p : positive) (k : Z) :
  (2 ^ k <= Z.pos p)%Z -> (0 <= k)%Z -> (k + 1 <= Z.pos (digits2_pos p))%Z.
Proof.
  intros H K. pose proof (Binary64.digits2_pos_bounds p) as [_ B].
  destruct (Z_lt_le_dec k (Z.pos (digits2_pos p))) as [L|L]; [lia|].
  assert (2 ^ Z.pos (digits2_pos p) <= 2 ^ k)%Z by (apply Z.pow_le_mono_r; lia). lia.
Qed.

Lemma round_fpos (x : float) (mx : positive) (ex : Z) (lx : location) (v : R) :
  Prim2SF x = binary_round_aux prec emax false (Z.pos mx) ex lx ->
  (2 ^ 52 <= Z.pos mx)%Z ->
  IZR (Z.pos mx) * bpow ex <= v < IZR (Z.pos mx + 1) * bpow ex ->
  bpow (-1000) <= v <= bpow 1000 ->
  exists r, fpos x r /\ v * (1 - u) <= r <= v * (1 + u).
Proof.
  intros E Hm Hv Hr.
  destruct (binary_round_aux_R mx ex lx v) as (m & e & E' & Hm' & Hb); try assumption.
  { apply (digits_ge mx 52) in Hm; lia. }
  exists (IZR (Z.pos m) * bpow e). split; [|exact Hb].
  exists m, e. rewrite E, E'. auto.
Qed.

Lemma exact_bracket (m : Z) (e : Z) :
  IZR m * bpow e <= IZR m * bpow e < IZR (m + 1) * bpow e.
Proof.
  pose proof (bpow_pos e). rewrite plus_IZR. split; nra.
Qed.

Lemma mul_fpos (x y : float) (vx vy : R) :
  fpos x vx -> fpos y vy ->
  bpow (-1000) <= vx * vy <= bpow 1000 ->
  exists r, fpos (x * y) r /\ vx * vy * (1 - u) <= r <= vx * vy * (1 + u).
Proof.
  intros (mx & ex & Ex & Hx & ->) (my & ey & Ey & Hy & ->) Hr.
  assert (V : IZR (Z.pos mx) * bpow ex * (IZR (Z.pos my) * bpow ey)
              = IZR (Z.pos (mx * my)) * bpow (ex + ey)).
  { rewrite bpow_add, Pos2Z.inj_mul, mult_IZR. ring. }
  rewrite V in *.
  apply (round_fpos (x * y) (mx * my) (ex + ey) loc_Exact).
  - rewrite FloatAxioms.mul_spec, Ex, Ey. reflexivity.
  - rewrite Pos2Z.inj_mul. nia.
  - apply exact_bracket.
  - exact Hr.
Qed.

Lemma shl_align_snd (m : positive) (e ez : Z) :
  (ez <= e)%Z -> snd (shl_align m e ez) = ez.
Proof.
  intros H. unfold shl_align. destruct (ez - e)%Z eqn:E; simpl; lia.
Qed.

(** Normalizing a positive integer mantissa. *)
Lemma binary_round_fpos (x : float) (M : positive) (ez : Z) (v : R) :
  Prim2SF x = binary_round prec emax false M ez ->
  v = IZR (Z.pos M) * bpow ez ->
  bpow (-1000) <= v <= bpow 1000 ->
  exists r, fpos x r /\ v * (1 - u) <= r <= v * (1 + u).
Proof.
  intros E -> Hr. unfold binary_round in E.
  pose proof (Binary64.digits2_pos_bounds M) as [B1 B2].
  set (d := Z.pos (digits2_pos M)) in *.
  assert (Pez := bpow_pos ez).
  assert (Hlo : (-1000 <= d + ez)%Z).
  { assert (bpow (-1000) < bpow (d + ez)); [|apply bpow_lt_inv in H; lia].
    eapply Rle_lt_trans; [apply Hr|].
    rewrite bpow_add, (bpow_IZR d) by (unfold d; lia).
    apply Rmult_lt_compat_r; [lra|]. apply IZR_lt. lia. }
  assert (F : fexp prec emax (d + ez) = (d + ez - 53)%Z).
  { unfold fexp, SpecFloat.emin, prec, emax. lia. }
  rewrite F in E.
  destruct (Z_le_gt_dec (d + ez - 53) ez) as [L|G].
  - (* fewer than 54 digits: shift left to 53 *)
    pose proof (Binary64.shl_align_value M ez (d + ez - 53) L) as SV.
    pose proof (shl_align_snd M ez (d + ez - 53) L) as SS.
    destruct (shl_align M ez (d + ez - 53)) as [mz ez0]. cbn [fst snd] in SV, SS. subst ez0.
    replace (ez - (d + ez - 53))%Z with (53 - d)%Z in SV by lia.
    assert (V : IZR (Z.pos M) * bpow ez = IZR (Z.pos mz) * bpow (d + ez - 53)).
    { rewrite SV, mult_IZR. replace ez with ((d + ez - 53) + (53 - d))%Z at 1 by lia.
      rewrite bpow_add, (bpow_IZR (53 - d)) by lia. ring. }
    rewrite V in *.
    apply (round_fpos x mz (d + ez - 53) loc_Exact); try assumption.
    + rewrite SV. replace 52%Z with ((d - 1) + (53 - d))%Z by lia.
      rewrite Z.pow_add_r by (unfold d; lia).
      apply Z.mul_le_mono_nonneg_r; [apply Z.pow_nonneg; lia | exact B1].
    + apply exact_bracket.
  - (* at least 54 digits: unchanged *)
    assert (S : shl_align M ez (d + ez - 53) = (M, ez)).
    { unfold shl_align. destruct (d + ez - 53 - ez)%Z eqn:Q; try reflexivity. lia. }
    rewrite S in E.
    apply (round_fpos x M ez loc_Exact); try assumption.
    + eapply Z.le_trans; [|exact B1]. apply Z.pow_le_mono_r; lia.
    + apply exact_bracket.
Qed.

Lemma add_fpos (x y : float) (vx vy : R) :
  fpos x vx -> fpos y vy ->
  bpow (-1000) <= vx + vy <= bpow 1000 ->
  exists r, fpos (x + y) r /\ (vx + vy) * (1 - u) <= r <= (vx + vy) * (1 + u).
Proof.
  intros (mx & ex & Ex & Hx & ->) (my & ey & Ey & Hy & ->) Hr.
  pose proof (Binary64.shl_align_value mx ex (Z.min ex ey) ltac:(lia)) as Vx.
  pose proof (Binary64.shl_align_value my ey (Z.min ex ey) ltac:(lia)) as Vy.
  set (ez := Z.min ex ey) in *.
  assert (E : Prim2SF (x + y)
              = binary_round prec emax false
                  (fst (shl_align mx ex ez) + fst (shl_align my ey ez))%positive ez).
  { rewrite FloatAxioms.add_spec, Ex, Ey. reflexivity. }
  apply (binary_round_fpos _ _ _ _ E); [|exact Hr].
  rewrite Pos2Z.inj_add, plus_IZR, Vx, Vy, !mult_IZR.
  replace ex with (ez + (ex - ez))%Z at 1 by lia.
  replace ey with (ez + (ey - ez))%Z at 1 by lia.
  rewrite !bpow_add, (bpow_IZR (ex - ez)), (bpow_IZR (ey - ez)) by lia. ring.
Qed.

Lemma fpos_digits (m : positive) :
  (2 ^ 52 <= Z.pos m < 2 ^ 53)%Z -> Z.pos (digits2_pos m) = 53%Z.
Proof. intros H. apply digits_unique. simpl. lia. Qed.

Lemma fpos_value_bounds (m : positive) (e : Z) :
  (2 ^ 52 <= Z.pos m < 2 ^ 53)%Z ->
  bpow (e + 52) <= IZR (Z.pos m) * bpow e < bpow (e + 53).
Proof.
  intros [H1 H2]. pose proof (bpow_pos e).
  rewrite !bpow_add, (bpow_IZR 52), (bpow_IZR 53) by lia.
  apply IZR_le in H1. apply IZR_lt in H2. split; nra.
Qed.

Lemma bpow_opp e : bpow (- e) = / bpow e.
Proof.
  pose proof (bpow_pos e). apply Rmult_eq_reg_r with (bpow e); [|lra].
  rewrite <- bpow_add. replace (- e + e)%Z with 0%Z by lia.
  rewrite Rinv_l by lra. reflexivity.
Qed.

Lemma div_fpos (x y : float) (vx vy : R) :
  fpos x vx -> fpos y vy ->
  bpow (-1000) <= vx / vy <= bpow 1000 ->
  exists r, fpos (x / y) r /\ vx / vy * (1 - u) <= r <= vx / vy * (1 + u).
Proof.
  intros (mx & ex & Ex & Hx & ->) (my & ey & Ey & Hy & ->) Hr.
  pose proof (fpos_value_bounds mx ex Hx) as Bx.
  pose proof (fpos_value_bounds my ey Hy) as By.
  pose proof (bpow_pos ex) as Pex. pose proof (bpow_pos ey) as Pey.
  assert (Py : 0 < IZR (Z.pos my)) by (apply IZR_lt; lia).
  assert (Px : 0 < IZR (Z.pos mx)) by (apply IZR_lt; lia).
  set (q := IZR (Z.pos mx) * bpow ex / (IZR (Z.pos my) * bpow ey)) in *.
  (* the exponents *)
  assert (Hlo : (-1001 <= ex - ey)%Z).
  { assert (HH : bpow (-1000) < bpow (ex - ey + 1)); [|apply bpow_lt_inv in HH; lia].
    eapply Rle_lt_trans; [apply Hr|]. unfold q.
    apply Rmult_lt_reg_r with (IZR (Z.pos my) * bpow ey); [nra|].
    replace (IZR (Z.pos mx) * bpow ex / (IZR (Z.pos my) * bpow ey)
             * (IZR (Z.pos my) * bpow ey)) with (IZR (Z.pos mx) * bpow ex)
      by (field; split; lra).
    replace (ex - ey + 1)%Z with ((ex + 53) + (- ey - 52))%Z by lia.
    rewrite bpow_add.
    assert (bpow (- ey - 52) * bpow (ey + 52) = 1).
    { rewrite <- bpow_add. replace (- ey - 52 + (ey + 52))%Z with 0%Z by lia. reflexivity. }
    pose proof (bpow_pos (- ey - 52)). pose proof (bpow_pos (ex + 53)).
    assert (1 <= bpow (- ey - 52) * (IZR (Z.pos my) * bpow ey)) by nra.
    nra. }
  assert (E : Prim2SF (x / y)
              = let '(mz, ez, lz) :=
                  SFdiv_core_binary prec emax (Z.pos mx) ex (Z.pos my) ey in
                binary_round_aux prec emax false mz ez lz).
  { rewrite FloatAxioms.div_spec, Ex, Ey. reflexivity. }
  unfold SFdiv_core_binary in E. simpl Zdigits2 in E.
  rewrite (fpos_digits mx Hx), (fpos_digits my Hy) in E.
  replace (Z.min (fexp prec emax (53 + ex - (53 + ey))) (ex - ey))%Z
    with (ex - ey - 53)%Z in E
    by (unfold fexp, SpecFloat.emin, prec, emax; lia).
  replace (ex - ey - (ex - ey - 53))%Z with 53%Z in E by lia.
  cbv iota in E. rewrite Z.shiftl_mul_pow2 in E by lia.
  pose proof (Z_div_mod (Z.pos mx * 2 ^ 53) (Z.pos my) ltac:(lia)) as DM.
  destruct (Z.div_eucl (Z.pos mx * 2 ^ 53) (Z.pos my)) as [Q R].
  destruct DM as [DM1 DM2].
  assert (HQ : (2 ^ 52 <= Q)%Z) by nia.
  destruct Q as [|Qp|Qp]; try lia.
  apply (round_fpos _ _ _ _ _ E HQ); [|exact Hr].
  (* the quotient lies between [Q] and [Q + 1] at the exponent of the core *)
  assert (V : q = IZR (Z.pos mx * 2 ^ 53) / IZR (Z.pos my) * bpow (ex - ey - 53)).
  { unfold q. rewrite mult_IZR.
    replace (ex - ey - 53)%Z with (ex - ey - 53 + 0)%Z by lia.
    replace (ex - ey - 53 + 0)%Z with (ex + (- ey) + (- 53))%Z by lia.
    assert (B53 : bpow (-53) = / IZR (2 ^ 53))
      by (rewrite <- (bpow_IZR 53) by lia; apply (bpow_opp 53)).
    rewrite !bpow_add, bpow_opp, B53.
    assert (IZR (2 ^ 53) <> 0) by (apply not_0_IZR; discriminate).
    field. repeat split; lra. }
  rewrite V. pose proof (bpow_pos (ex - ey - 53)) as Pe.
  assert (D : IZR (Z.pos mx * 2 ^ 53) = IZR (Z.pos my) * IZR (Z.pos Qp) + IZR R).
  { rewrite DM1, plus_IZR, mult_IZR. reflexivity. }
  rewrite D. destruct DM2 as [R0 R1]. apply IZR_le in R0. apply IZR_lt in R1.
  rewrite plus_IZR.
  replace ((IZR (Z.pos my) * IZR (Z.pos Qp) + IZR R) / IZR (Z.pos my))
    with (IZR (Z.pos Qp) + IZR R / IZR (Z.pos my)) by (field; lra).
  assert (0 <= IZR R / IZR (Z.pos my) < 1).
  { split.
    - apply Rmult_le_pos; [lra|]. apply Rlt_le, Rinv_0_lt_compat. lra.
    - apply Rmult_lt_reg_r with (IZR (Z.pos my)); [lra|].
      replace (IZR R / IZR (Z.pos my) * IZR (Z.pos my)) with (IZR R) by (field; lra).
      lra. }
  split; nra.
Qed.

Lemma sqrt_fpos (x : float) (vx : R) :
  fpos x vx ->
  bpow (-1000) <= vx <= bpow 1000 ->
  exists r, fpos (PrimFloat.sqrt x) r
            /\ R_sqrt.sqrt vx * (1 - u) <= r <= R_sqrt.sqrt vx * (1 + u).
Proof.
  intros (mx & ex & Ex & Hx & ->) Hr.
  pose proof (fpos_value_bounds mx ex Hx) as Bx.
  assert (Hlo : (-1053 <= ex)%Z).
  { assert (HH : bpow (-1000) < bpow (ex + 53)) by lra. apply bpow_lt_inv in HH. lia. }
  assert (Hhi : (ex <= 948)%Z).
  { assert (HH : bpow (ex + 52) <= bpow 1000) by lra. apply bpow_le_inv in HH. lia. }
  assert (E : Prim2SF (PrimFloat.sqrt x)
              = let '(mz, ez, lz) := SFsqrt_core_binary prec emax (Z.pos mx) ex in
                binary_round_aux prec emax false mz ez lz).
  { rewrite FloatAxioms.sqrt_spec, Ex. reflexivity. }
  unfold SFsqrt_core_binary in E. simpl Zdigits2 in E.
  rewrite (fpos_digits mx Hx) in E.
  set (h := Z.div2 ex) in *.
  assert (Hh : (ex = 2 * h \/ ex = 2 * h + 1)%Z).
  { unfold h. rewrite Z.div2_div. pose proof (Z.div_mod ex 2 ltac:(lia)).
    pose proof (Z.mod_pos_bound ex 2 ltac:(lia)). lia. }
  replace (Z.div2 (53 + ex + 1)) with (h + 27)%Z in E
    by (rewrite Z.div2_div; unfold h; rewrite Z.div2_div;
        replace (53 + ex + 1)%Z with (ex + 27 * 2)%Z by lia;
        rewrite Z.div_add by lia; reflexivity).
  replace (Z.min (fexp prec emax (h + 27)) h) with (h - 26)%Z in E
    by (unfold fexp, SpecFloat.emin, prec, emax; lia).
  set (s := (ex - 2 * (h - 26))%Z) in *.
  assert (Hs : (s = 52 \/ s = 53)%Z) by (unfold s; lia).
  assert (M' : match s with
               | Z.pos _ => Z.shiftl (Z.pos mx) s
               | 0%Z => Z.pos mx
               | Z.neg _ => 0%Z
               end = (Z.pos mx * 2 ^ s)%Z).
  { destruct Hs as [-> | ->]; rewrite Z.shiftl_mul_pow2 by lia; reflexivity. }
  rewrite M' in E. clear M'.
  assert (Ps : (2 ^ 52 <= 2 ^ s)%Z) by (apply Z.pow_le_mono_r; lia).
  pose proof (Z.sqrtrem_spec (Z.pos mx * 2 ^ s) ltac:(nia)) as SQ.
  destruct (Z.sqrtrem (Z.pos mx * 2 ^ s)) as [Q R]. destruct SQ as [SQ1 SQ2].
  assert (HQ : (2 ^ 52 <= Q)%Z) by nia.
  destruct Q as [|Qp|Qp]; try lia.
  match type of E with
  | _ = binary_round_aux _ _ _ _ _ ?l => set (lz := l) in E
  end.
  apply (round_fpos _ _ _ _ _ E HQ).
  - (* the root lies between [Q] and [Q + 1] at exponent [h - 26] *)
    assert (V : IZR (Z.pos mx) * bpow ex
                = IZR (Z.pos mx * 2 ^ s) * (bpow (h - 26) * bpow (h - 26))).
    { rewrite mult_IZR, <- bpow_add, <- (bpow_IZR s) by lia.
      rewrite Rmult_assoc, <- bpow_add. f_equal. f_equal. unfold s. lia. }
    rewrite V.
    pose proof (bpow_pos (h - 26)) as Ph.
    assert (P0 : 0 <= IZR (Z.pos mx * 2 ^ s)) by (apply IZR_le; nia).
    rewrite sqrt_mult_alt by exact P0.
    rewrite sqrt_square by lra.
    assert (S1 : IZR (Z.pos Qp) <= R_sqrt.sqrt (IZR (Z.pos mx * 2 ^ s))).
    { rewrite <- (sqrt_square (IZR (Z.pos Qp))) by (apply IZR_le; lia).
      apply sqrt_le_1_alt. rewrite <- mult_IZR. apply IZR_le. lia. }
    assert (S2 : R_sqrt.sqrt (IZR (Z.pos mx * 2 ^ s)) < IZR (Z.pos Qp + 1)).
    { rewrite <- (sqrt_square (IZR (Z.pos Qp + 1))) by (apply IZR_le; lia).
      apply sqrt_lt_1_alt. split; [exact P0|]. rewrite <- mult_IZR. apply IZR_lt. lia. }
    split; nra.
  - (* the range of the root *)
    split.
    + apply Rle_trans with (R_sqrt.sqrt (bpow (-1000) * bpow (-1000))).
      * rewrite sqrt_square by (apply Rlt_le, bpow_pos). lra.
      * apply sqrt_le_1_alt. rewrite <- bpow_add.
        eapply Rle_trans; [|apply Hr]. apply bpow_le. lia.
    + apply Rle_trans with (R_sqrt.sqrt (bpow 1000 * bpow 1000)).
      * apply sqrt_le_1_alt. rewrite <- bpow_add.
        eapply Rle_trans; [apply Hr|]. apply bpow_le. lia.
      * rewrite sqrt_square by (apply Rlt_le, bpow_pos). lra.
Qed.

(** The number of a positive integer below [2^62]. *)
Lemma ofZ_fpos (j : Z) :
  (1 <= j < 2 ^ 62)%Z ->
  exists r, fpos (JS.ofZ j) r /\ IZR j * (1 - u) <= r <= IZR j * (1 + u).
Proof.
  intros Hj. unfold JS.ofZ.
  assert (E : Prim2SF (of_uint63 (Uint63.of_Z j)) = binary_normalize prec emax j 0 false).
  { rewrite FloatAxioms.of_uint63_spec, Uint63.of_Z_spec.
    rewrite Z.mod_small; [reflexivity|]. change Uint63.wB with (2 ^ 63)%Z. lia. }
  destruct j as [|p|p]; try lia. cbn [binary_normalize] in E.
  apply (binary_round_fpos _ _ _ _ E).
  - unfold bpow. simpl. ring.
  - split.
    + apply Rle_trans with 1; [|apply IZR_le; lia].
      change 1 with (bpow 0). apply bpow_le. lia.
    + apply Rle_trans with (IZR (2 ^ 62)); [apply IZR_le; lia|].
      rewrite <- bpow_IZR by lia. apply bpow_le. lia.
Qed.

(** A positive normal number is above zero. *)
Lemma fpos_ltb (x : float) (v : R) : fpos x v -> (0 <? x)%float = true.
Proof.
  intros (m & e & E & _). rewrite FloatAxioms.ltb_spec, E. reflexivity.
Qed.

(** ** Accumulated errors *)

Lemma a_bounds : 0 < 1 - u < 1.
Proof. pose proof u_pos. pose proof u_small. lra. Qed.

Lemma apow_bounds (k : nat) : 0 < (1 - u) ^ k <= 1.
Proof.
  pose proof a_bounds. induction k as [|k IH]; simpl; [lra|]. nra.
Qed.

Lemma apow_mono (j k : nat) : (j <= k)%nat -> (1 - u) ^ k <= (1 - u) ^ j.
Proof.
  intros H. replace k with (j + (k - j))%nat by lia. rewrite pow_add.
  pose proof (apow_bounds j). pose proof (apow_bounds (k - j)). nra.
Qed.

(** Bernoulli's inequality for the factor. *)
Lemma apow_bernoulli (k : nat) : 1 - INR k * u <= (1 - u) ^ k.
Proof.
  pose proof u_pos. pose proof a_bounds.
  induction k as [|k IH]; [simpl; lra|].
  rewrite S_INR. simpl pow. pose proof (pos_INR k). nra.
Qed.

Lemma apow_half (k : nat) : (k <= 2000)%nat -> / 2 <= (1 - u) ^ k.
Proof.
  intros H. eapply Rle_trans; [|apply apow_bernoulli].
  pose proof u_small. pose proof u_pos.
  assert (INR k <= 2000).
  { apply le_INR in H. rewrite (INR_IZR_INZ 2000) in H. simpl in H. exact H. }
  nra.
Qed.

Lemma approx_refl (v : R) : 0 <= v -> approx 0 v v.
Proof. intros H. unfold approx. simpl. lra. Qed.

Lemma approx_weaken (j k : nat) (v e : R) :
  (j <= k)%nat -> 0 <= v -> 0 <= e -> approx j v e -> approx k v e.
Proof.
  intros H Hv He [H1 H2]. pose proof (apow_mono j k H). pose proof (apow_bounds k).
  split; nra.
Qed.

Lemma approx_round (k : nat) (v e r : R) :
  0 <= v -> 0 <= e -> approx k v e ->
  v * (1 - u) <= r <= v * (1 + u) -> approx (S k) r e.
Proof.
  intros Hv He [H1 H2] [R1 R2]. pose proof (apow_bounds k). pose proof a_bounds.
  pose proof u_pos. unfold approx. simpl pow. split; [nra|].
  assert (r * (1 - u) <= v) by nra. nra.
Qed.

Lemma approx_mul (j k : nat) (v1 e1 v2 e2 : R) :
  0 <= v1 -> 0 <= e1 -> 0 <= v2 -> 0 <= e2 ->
  approx j v1 e1 -> approx k v2 e2 -> approx (j + k) (v1 * v2) (e1 * e2).
Proof.
  intros ? ? ? ? [A1 A2] [B1 B2]. unfold approx. rewrite pow_add.
  pose proof (apow_bounds j). pose proof (apow_bounds k).
  split.
  - replace (e1 * e2 * ((1 - u) ^ j * (1 - u) ^ k))
      with ((e1 * (1 - u) ^ j) * (e2 * (1 - u) ^ k)) by ring.
    apply Rmult_le_compat; nra.
  - replace (v1 * v2 * ((1 - u) ^ j * (1 - u) ^ k))
      with ((v1 * (1 - u) ^ j) * (v2 * (1 - u) ^ k)) by ring.
    apply Rmult_le_compat; nra.
Qed.

Lemma approx_add (k : nat) (v1 e1 v2 e2 : R) :
  approx k v1 e1 -> approx k v2 e2 -> approx k (v1 + v2) (e1 + e2).
Proof. intros [A1 A2] [B1 B2]. unfold approx. split; nra. Qed.

Lemma approx_div (j k : nat) (v1 e1 v2 e2 : R) :
  0 <= v1 -> 0 <= e1 -> 0 < v2 -> 0 < e2 ->
  approx j v1 e1 -> approx k v2 e2 -> approx (j + k) (v1 / v2) (e1 / e2).
Proof.
  intros ? ? ? ? [A1 A2] [B1 B2]. unfold approx. rewrite pow_add.
  pose proof (apow_bounds j). pose proof (apow_bounds k).
  split.
  - apply Rmult_le_reg_r with (v2 * e2); [nra|].
    replace (e1 / e2 * ((1 - u) ^ j * (1 - u) ^ k) * (v2 * e2))
      with ((e1 * (1 - u) ^ j) * (v2 * (1 - u) ^ k)) by (field; lra).
    replace (v1 / v2 * (v2 * e2)) with (v1 * e2) by (field; lra).
    apply Rmult_le_compat; nra.
  - apply Rmult_le_reg_r with (v2 * e2); [nra|].
    replace (v1 / v2 * ((1 - u) ^ j * (1 - u) ^ k) * (v2 * e2))
      with ((v1 * (1 - u) ^ j) * (e2 * (1 - u) ^ k)) by (field; lra).
    replace (e1 / e2 * (v2 * e2)) with (e1 * v2) by (field; lra).
    apply Rmult_le_compat; nra.
Qed.

Lemma approx_sqrt (k : nat) (v e : R) :
  0 <= v -> 0 <= e -> approx k v e -> approx k (R_sqrt.sqrt v) (R_sqrt.sqrt e).
Proof.
  intros Hv He [A1 A2]. pose proof (apow_bounds k) as [P1 P2].
  assert (Q : (1 - u) ^ k <= R_sqrt.sqrt ((1 - u) ^ k)).
  { rewrite <- (sqrt_square ((1 - u) ^ k)) at 1 by lra.
    apply sqrt_le_1_alt. nra. }
  pose proof (sqrt_pos v). pose proof (sqrt_pos e).
  split.
  - apply Rle_trans with (R_sqrt.sqrt e * R_sqrt.sqrt ((1 - u) ^ k)); [nra|].
    rewrite <- sqrt_mult_alt by lra. apply sqrt_le_1_alt. exact A1.
  - apply Rle_trans with (R_sqrt.sqrt v * R_sqrt.sqrt ((1 - u) ^ k)); [nra|].
    rewrite <- sqrt_mult_alt by lra. apply sqrt_le_1_alt. exact A2.
Qed.

(** An approximation stays within a factor of two. *)
Lemma approx_range (k : nat) (v e : R) :
  (k <= 2000)%nat -> 0 <= v -> 0 <= e -> approx k v e -> e / 2 <= v <= 2 * e.
Proof.
  intros H Hv He [A1 A2]. pose proof (apow_half k H). pose proof (apow_bounds k).
  split; nra.
Qed.

Lemma approx_zero (k : nat) (v : R) : 0 <= v -> approx k v 0 -> v = 0.
Proof.
  intros Hv [A1 A2]. pose proof (apow_bounds k). nra.
Qed.

(** ** The sum of the squares *)

Lemma fnn_nonneg x v : fnn x v -> 0 <= v.
Proof. intros [[_ ->]|H]; [lra | apply Rlt_le, (fpos_pos x v H)]. Qed.

Lemma fnn_zero x : fnn x 0 -> Prim2SF x = S754_zero false.
Proof. intros [[H _]|H]; [exact H | apply fpos_pos in H; lra]. Qed.

Lemma fnn_pos x v : fnn x v -> 0 < v -> fpos x v.
Proof. intros [[_ ->]|H] Hv; [lra | exact H]. Qed.

Lemma fnn_0 : fnn 0%float 0.
Proof. left. split; reflexivity. Qed.

Lemma mul_zero (x y : float) :
  Prim2SF x = S754_zero false -> Prim2SF y = S754_zero false ->
  Prim2SF (x * y) = S754_zero false.
Proof. intros Hx Hy. rewrite FloatAxioms.mul_spec, Hx, Hy. reflexivity. Qed.

Lemma add_zero_r (x y : float) (v : R) :
  fnn x v -> Prim2SF y = S754_zero false -> fnn (x + y) v.
Proof.
  intros [[Hx ->]|(m & e & Hx & Hm & ->)] Hy.
  - left. split; [|reflexivity]. rewrite FloatAxioms.add_spec, Hx, Hy. reflexivity.
  - right. exists m, e. rewrite FloatAxioms.add_spec, Hx, Hy. auto.
Qed.

Lemma add_zero_l (x y : float) (v : R) :
  Prim2SF x = S754_zero false -> fpos y v -> fpos (x + y) v.
Proof.
  intros Hx (m & e & Hy & Hm & ->).
  exists m, e. rewrite FloatAxioms.add_spec, Hx, Hy. auto.
Qed.

Lemma div_zero (x y : float) (v : R) :
  Prim2SF x = S754_zero false -> fpos y v -> Prim2SF (x / y) = S754_zero false.
Proof.
  intros Hx (m & e & Hy & _). rewrite FloatAxioms.div_spec, Hx, Hy. reflexivity.
Qed.

Lemma sumsq_nonneg es : 0 <= sumsq es.
Proof. induction es as [|e es IH]; simpl; [lra|]. nra. Qed.

Section SumOfSquares.

Variables (K : nat) (lo hi HI : R).
Hypothesis lo_pos : 0 < lo.
Hypothesis lo_range : bpow (-1000) <= lo * lo / 8.
Hypothesis HI_range : 4 * HI <= bpow 1000.
Hypothesis K_small : (K <= 900)%nat.

Lemma reduce_sumsq (l : list float) :
  forall (ws es : list R) (i : nat) (acc : float) (va ea : R) (k : nat),
    Forall2 fnn l ws -> Forall2 (approx K) ws es ->
    Forall (fun e => e = 0 \/ lo <= e <= hi) es ->
    fnn acc va -> approx k va ea -> (ea = 0 \/ lo * lo <= ea) ->
    (2 * K + 1 <= k)%nat -> (k + List.length l <= 2000)%nat ->
    ea + sumsq es <= HI ->
    exists vr,
      fnn (JS.reduce_from sumStep i l acc) vr
      /\ approx (k + List.length l) vr (ea + sumsq es)
      /\ (ea + sumsq es = 0 \/ lo * lo <= ea + sumsq es).
Proof.
  induction l as [|x l IH]; intros ws es i acc va ea k Hl Hw He Ha Hk Hea HK Hlen HH.
  - inversion Hl; subst. inversion Hw; subst. simpl.
    exists va. rewrite Nat.add_0_r, Rplus_0_r. auto.
  - inversion Hl as [|? w ? ws' Hx Hl']; subst.
    inversion Hw as [|? e ? es' Hwe Hw']; subst.
    inversion He as [|? ? He1 He']; subst.
    simpl JS.reduce_from. simpl sumsq in *. simpl List.length in *.
    pose proof (sumsq_nonneg es') as Ps.
    pose proof (fnn_nonneg _ _ Hx) as Pw. pose proof (fnn_nonneg _ _ Ha) as Pva.
    assert (Pe : 0 <= e) by (destruct He1; lra).
    assert (Pea : 0 <= ea) by (destruct Hea; nra).
    replace (ea + (e * e + sumsq es')) with ((ea + e * e) + sumsq es') in * by ring.
    replace (k + S (List.length l))%nat with (S k + List.length l)%nat by lia.
    destruct He1 as [-> | [E1 E2]].
    + (* a zero: the sum is unchanged *)
      assert (w = 0) by (apply (approx_zero K); assumption). subst w.
      apply fnn_zero in Hx.
      apply (IH ws' es' (S i) _ va (ea + 0 * 0) (S k)); try assumption; try lia.
      * unfold sumStep. apply add_zero_r; [exact Ha|]. apply mul_zero; exact Hx.
      * replace (ea + 0 * 0) with ea by ring.
        apply (approx_weaken k); try assumption. lia.
      * replace (ea + 0 * 0) with ea by ring. exact Hea.
    + (* a positive number *)
      destruct (approx_range K w e ltac:(lia) Pw Pe Hwe) as [W1 W2].
      assert (Hwpos : 0 < w) by lra.
      pose proof (fnn_pos _ _ Hx Hwpos) as Fx.
      destruct (mul_fpos x x w w Fx Fx) as (r1 & F1 & R1); [split; nra|].
      assert (A1 : approx (2 * K + 1) r1 (e * e)).
      { replace (2 * K + 1)%nat with (S (K + K)) by lia.
        apply (approx_round (K + K) (w * w)); try nra.
        apply approx_mul; assumption. }
      assert (Pr1 : 0 < r1) by (apply (fpos_pos _ _ F1)).
      assert (A1k : approx k r1 (e * e))
        by (apply (approx_weaken (2 * K + 1)); try assumption; nra).
      destruct (approx_range k r1 (e * e) ltac:(lia) ltac:(lra) ltac:(nra) A1k) as [Q1 Q2].
      destruct (approx_range k va ea ltac:(lia) Pva Pea Hk) as [Q3 Q4].
      assert (Hnext : lo * lo <= ea + e * e) by nra.
      destruct Ha as [[Hz ->]|Fa].
      * (* the first positive term *)
        assert (ea = 0) by (destruct Hk; pose proof (apow_bounds k); nra).
        subst ea.
        apply (IH ws' es' (S i) _ r1 (0 + e * e) (S k)); try assumption; try lia.
        -- right. unfold sumStep. apply add_zero_l; assumption.
        -- replace (0 + e * e) with (e * e) by ring.
           apply (approx_weaken k); try assumption; try lia; nra.
        -- right. exact Hnext.
      * destruct (add_fpos acc (x * x)%float va r1 Fa F1) as (r2 & F2 & R2); [split; nra|].
        apply (IH ws' es' (S i) _ r2 (ea + e * e) (S k)); try assumption; try lia.
        -- right. exact F2.
        -- apply (approx_round k (va + r1)); try nra.
           apply approx_add; assumption.
        -- right. exact Hnext.
Qed.

End SumOfSquares.

(** ** The normalization of a vector *)

Lemma sumsq_upper (hi : R) (es : list R) :
  0 <= hi -> Forall (fun e => e = 0 \/ 0 <= e <= hi) es ->
  sumsq es <= INR (List.length es) * (hi * hi).
Proof.
  intros Hh H. induction H as [|e es He _ IH].
  - simpl. lra.
  - cbn [List.length sumsq fold_right]. rewrite S_INR.
    fold (sumsq es). destruct He as [-> | [E1 E2]]; nra.
Qed.

Lemma sumsq_lower (lo : R) (es : list R) :
  0 < lo -> Forall (fun e => e = 0 \/ lo <= e) es -> Exists (fun e => 0 < e) es ->
  lo * lo <= sumsq es.
Proof.
  intros Hl H Ex. induction H as [|e es He _ IH]; [inversion Ex|].
  cbn [sumsq fold_right]. fold (sumsq es). pose proof (sumsq_nonneg es).
  inversion Ex as [? ? P|? ? P]; subst.
  - destruct He as [-> | E]; [lra | nra].
  - specialize (IH P). nra.
Qed.

Lemma sumsq_scale (c : R) (es : list R) :
  c <> 0 -> sumsq (map (fun e => e / c) es) = sumsq es / (c * c).
Proof.
  intros Hc. induction es as [|e es IH]; simpl.
  - unfold Rdiv. ring.
  - fold (sumsq (map (fun e => e / c) es)). fold (sumsq es). rewrite IH. field. exact Hc.
Qed.

Lemma bpow_range_1 : bpow (-1000) <= / 2 /\ 4 <= bpow 1000.
Proof.
  split.
  - apply Rle_trans with (bpow (-1)); [apply bpow_le; lia | unfold bpow; simpl; lra].
  - apply Rle_trans with (bpow 2); [unfold bpow; simpl; lra | apply bpow_le; lia].
Qed.

Lemma sumsq_approx (K : nat) (ws es : list R) :
  Forall2 (approx K) ws es -> Forall (fun w => 0 <= w) ws -> Forall (fun e => 0 <= e) es ->
  approx (K + K) (sumsq ws) (sumsq es).
Proof.
  intros H. induction H as [|w e ws es Hwe _ IH]; intros Hw He.
  - unfold approx. simpl. lra.
  - inversion Hw; subst. inversion He; subst.
    cbn [sumsq fold_right]. fold (sumsq ws). fold (sumsq es).
    apply approx_add; [apply approx_mul; assumption | apply IH; assumption].
Qed.

Lemma fnn_real (x : float) (v : R) : fnn x v -> isFinite x = true /\ realValue x = v.
Proof.
  unfold isFinite, realValue. intros [[E ->]|(m & e & E & _ & ->)]; rewrite E; auto.
Qed.

Lemma fnn_values (l : list float) (ws : list R) :
  Forall2 fnn l ws -> forallb isFinite l = true /\ map realValue l = ws.
Proof.
  induction 1 as [|x w l ws Hx _ [IH1 IH2]]; [auto|].
  destruct (fnn_real x w Hx) as [F V]. cbn [forallb map]. rewrite F, V, IH1, IH2. auto.
Qed.

(** Dividing the components by the magnitude. *)
Lemma div_components (mag : float) (vm c lo hi : R) (K : nat) :
  fpos mag vm -> approx K vm c -> 0 < c -> 0 < lo ->
  (forall v, lo <= v <= hi -> bpow (-1000) <= v / vm <= bpow 1000) ->
  forall (l : list float) (vs : list R),
    Forall2 fnn l vs -> Forall (fun v => v = 0 \/ lo <= v <= hi) vs ->
    exists ws,
      Forall2 fnn (map (fun val => (val / mag)%float) l) ws
      /\ Forall2 (approx (Datatypes.S K)) ws (map (fun v => v / c) vs).
Proof.
  intros Fm Am Pc Pl Hr l vs Hf. pose proof (fpos_pos _ _ Fm) as Pm.
  induction Hf as [|x v l vs Hx _ IH]; intros Hv.
  - exists []. split; constructor.
  - inversion Hv as [|? ? Hv1 Hv']; subst. destruct (IH Hv') as (ws & W1 & W2).
    destruct Hv1 as [-> | Hb].
    + exists (0 :: ws). split; constructor; try assumption.
      * left. split; [|reflexivity]. apply (div_zero x mag vm); [|exact Fm].
        apply fnn_zero. exact Hx.
      * unfold approx, Rdiv. rewrite !Rmult_0_l. lra.
    + assert (Fx : fpos x v) by (apply fnn_pos; [exact Hx | lra]).
      destruct (div_fpos x mag v vm Fx Fm (Hr v Hb)) as (r & Fr & R).
      exists (r :: ws). split; constructor; try assumption.
      * right. exact Fr.
      * apply (approx_round K (v / vm)); [| | |exact R].
        -- apply Rmult_le_pos; [lra|]. apply Rlt_le, Rinv_0_lt_compat. exact Pm.
        -- apply Rmult_le_pos; [lra|]. apply Rlt_le, Rinv_0_lt_compat. exact Pc.
        -- replace K with (0 + K)%nat by lia.
           apply approx_div; try lra; [apply approx_refl; lra | exact Am].
Qed.

Section Normalization.

Variables lo hi : R.
Hypothesis lo_pos : 0 < lo.
Hypothesis lo_hi : lo <= hi.
Hypothesis range_lo : bpow (-1000) <= (lo / (40 * hi)) * (lo / (40 * hi)) / 8.
Hypothesis range_hi : 1600 * ((hi / lo) * (hi / lo)) <= bpow 1000.
Hypothesis range_hi2 : 1600 * (hi * hi) <= bpow 1000.
Hypothesis range_lo2 : bpow (-1000) <= lo * lo / 8.

Variable features : list float.
Variable vs : list R.
Hypothesis Hf : Forall2 fnn features vs.
Hypothesis Hv : Forall (fun v => v = 0 \/ lo <= v <= hi) vs.
Hypothesis Hex : Exists (fun v => 0 < v) vs.
Hypothesis Hn : (List.length features <= 400)%nat.

Let n := List.length features.
Let total := sumsq vs.

Lemma len_vs : List.length vs = n.
Proof. symmetry. apply (Forall2_length Hf). Qed.

Lemma total_bounds : lo * lo <= total <= 400 * (hi * hi).
Proof.
  split.
  - apply sumsq_lower; [exact lo_pos | | exact Hex].
    eapply Forall_impl; [|exact Hv]. intros v [->|[H _]]; auto.
  - eapply Rle_trans; [apply (sumsq_upper hi)|].
    + lra.
    + eapply Forall_impl; [|exact Hv]. intros v [->|[H1 H2]]; [auto|right; lra].
    + rewrite len_vs. assert (INR n <= 400).
      { apply le_INR in Hn. rewrite (INR_IZR_INZ 400) in Hn. simpl in Hn. exact Hn. }
      nra.
Qed.

(** The sum of the squares of the features. *)
Lemma magnitude_squared :
  exists vS,
    fpos (JS.reduce sumStep features 0%float) vS /\ approx (1 + n) vS total.
Proof.
  pose proof total_bounds as [S1 S2].
  destruct (reduce_sumsq 0 lo hi (400 * (hi * hi)) lo_pos range_lo2
              ltac:(nra) ltac:(lia)
              features vs vs 0%nat 0%float 0 0 1%nat) as (vS & F & A & _); try assumption.
  - clear. induction vs as [|v l IH]; constructor; [|exact IH].
    unfold approx. simpl. lra.
  - apply fnn_0.
  - unfold approx. simpl. lra.
  - left. reflexivity.
  - lia.
  - lia.
  - rewrite Rplus_0_l. exact S2.
  - rewrite Rplus_0_l in A. fold total in A. fold n in A. exists vS. split; [|exact A].
    apply fnn_pos; [exact F|].
    destruct (approx_range (1 + n) vS total ltac:(unfold n; lia) (fnn_nonneg _ _ F) ltac:(nra) A).
    nra.
Qed.

(** The magnitude. *)
Lemma magnitude_value :
  exists vm,
    fpos (PrimFloat.sqrt (JS.reduce sumStep features 0%float)) vm
    /\ approx (2 + n) vm (R_sqrt.sqrt total).
Proof.
  pose proof total_bounds as [S1 S2].
  destruct magnitude_squared as (vS & F & A).
  pose proof (fpos_pos _ _ F) as PS.
  destruct (approx_range (1 + n) vS total ltac:(unfold n; lia) ltac:(lra) ltac:(nra) A).
  destruct (sqrt_fpos _ vS F) as (vm & Fm & R); [split; nra|].
  exists vm. split; [exact Fm|].
  apply (approx_round (1 + n) (R_sqrt.sqrt vS)); try apply sqrt_pos; [|exact R].
  apply approx_sqrt; try lra; try nra. exact A.
Qed.

Lemma root_bounds : lo <= R_sqrt.sqrt total <= 20 * hi.
Proof.
  pose proof total_bounds as [S1 S2]. split.
  - rewrite <- (sqrt_square lo) by lra. apply sqrt_le_1_alt. exact S1.
  - rewrite <- (sqrt_square (20 * hi)) by lra. apply sqrt_le_1_alt. nra.
Qed.


Let mag := PrimFloat.sqrt (JS.reduce sumStep features 0%float).

Lemma normalized_components :
  exists ws,
    Forall2 fnn (map (fun val => (val / mag)%float) features) ws
    /\ Forall2 (approx (3 + n)) ws (map (fun v => v / R_sqrt.sqrt total) vs).
Proof.
  destruct magnitude_value as (vm & Fm & Am). pose proof root_bounds as [Q1 Q2].
  pose proof (fpos_pos _ _ Fm) as Pm.
  destruct (approx_range (2 + n) vm (R_sqrt.sqrt total) ltac:(unfold n; lia) ltac:(lra)
              ltac:(lra) Am) as [M1 M2].
  apply (div_components mag vm (R_sqrt.sqrt total) lo hi (2 + n)); try assumption; try lra.
  intros v [V1 V2]. split.
  - apply Rle_trans with (lo / (40 * hi)).
    + assert (0 < lo / (40 * hi)) by (apply Rdiv_lt_0_compat; lra).
      assert (lo / (40 * hi) <= 1).
      { apply Rmult_le_reg_r with (40 * hi); [lra|].
        replace (lo / (40 * hi) * (40 * hi)) with lo by (field; lra). lra. }
      nra.
    + apply Rmult_le_reg_r with (40 * hi * vm); [nra|].
      replace (lo / (40 * hi) * (40 * hi * vm)) with (lo * vm) by (field; lra).
      replace (v / vm * (40 * hi * vm)) with (v * (40 * hi)) by (field; lra).
      nra.
  - apply Rle_trans with (2 * (hi / lo)).
    + apply Rmult_le_reg_r with (lo * vm); [nra|].
      replace (v / vm * (lo * vm)) with (v * lo) by (field; lra).
      replace (2 * (hi / lo) * (lo * vm)) with (2 * hi * vm) by (field; lra).
      nra.
    + assert (1 <= hi / lo).
      { apply Rmult_le_reg_r with lo; [lra|].
        replace (hi / lo * lo) with hi by (field; lra). lra. }
      nra.
Qed.

Lemma normalized_range :
  Forall (fun e => e = 0 \/ lo / (20 * hi) <= e <= hi / lo)
         (map (fun v => v / R_sqrt.sqrt total) vs).
Proof.
  pose proof root_bounds as [Q1 Q2].
  apply Forall_map. eapply Forall_impl; [|exact Hv].
  intros v [-> | [V1 V2]]; [left; unfold Rdiv; ring|]. right. split.
  - apply Rmult_le_reg_r with (20 * hi * R_sqrt.sqrt total); [nra|].
    replace (lo / (20 * hi) * (20 * hi * R_sqrt.sqrt total)) with (lo * R_sqrt.sqrt total)
      by (field; lra).
    replace (v / R_sqrt.sqrt total * (20 * hi * R_sqrt.sqrt total)) with (v * (20 * hi))
      by (field; lra).
    nra.
  - apply Rmult_le_reg_r with (lo * R_sqrt.sqrt total); [nra|].
    replace (v / R_sqrt.sqrt total * (lo * R_sqrt.sqrt total)) with (v * lo) by (field; lra).
    replace (hi / lo * (lo * R_sqrt.sqrt total)) with (hi * R_sqrt.sqrt total) by (field; lra).
    nra.
Qed.

Lemma normalized_sumsq : sumsq (map (fun v => v / R_sqrt.sqrt total) vs) = 1.
Proof.
  pose proof total_bounds as [S1 S2]. pose proof root_bounds as [Q1 Q2].
  rewrite sumsq_scale by lra. rewrite sqrt_sqrt by nra. fold total. field. nra.
Qed.

(** The exact norm of the normalized vector. *)
Lemma exact_norm_of_normalized :
  approx (6 + 2 * n) (exactNorm (map (fun val => (val / mag)%float) features)) 1.
Proof.
  destruct normalized_components as (ws & W1 & W2).
  destruct (fnn_values _ _ W1) as [_ V]. unfold exactNorm. rewrite V.
  pose proof normalized_sumsq as Hs.
  assert (A : approx (6 + 2 * n) (sumsq ws)
                (sumsq (map (fun v => v / R_sqrt.sqrt total) vs))).
  { replace (6 + 2 * n)%nat with ((3 + n) + (3 + n))%nat by lia.
    apply sumsq_approx; [exact W2 | |].
    - clear - W1. induction W1 as [|x w l ws Hx _ IH]; constructor; [|exact IH].
      apply (fnn_nonneg _ _ Hx).
    - eapply Forall_impl; [|exact normalized_range].
      pose proof total_bounds. pose proof root_bounds.
      intros e [->|[E _]]; [lra|].
      assert (0 < lo / (20 * hi)) by (apply Rdiv_lt_0_compat; lra). lra. }
  rewrite Hs in A.
  pose proof (approx_sqrt (6 + 2 * n) (sumsq ws) 1 (sumsq_nonneg ws) ltac:(lra) A) as Q.
  rewrite sqrt_1 in Q. exact Q.
Qed.

(** The norm of the normalized vector. *)
Theorem norm_of_normalized :
  exists r,
    fpos (PrimFloat.sqrt
            (JS.reduce sumStep (map (fun val => (val / mag)%float) features) 0%float)) r
    /\ approx (8 + 3 * n) r 1.
Proof.
  destruct normalized_components as (ws & W1 & W2).
  pose proof normalized_range as Hr. pose proof normalized_sumsq as Hs.
  assert (P2 : 0 < lo / (20 * hi)) by (apply Rdiv_lt_0_compat; lra).
  assert (L2 : lo / (20 * hi) = 2 * (lo / (40 * hi))) by (field; lra).
  destruct (reduce_sumsq (3 + n) (lo / (20 * hi)) (hi / lo) 1 P2
              ltac:(rewrite L2; nra) ltac:(pose proof bpow_range_1; lra)
              ltac:(unfold n; lia)
              (map (fun val => (val / mag)%float) features) ws
              (map (fun v => v / R_sqrt.sqrt total) vs) 0%nat 0%float 0 0 (7 + 2 * n)%nat)
    as (vT & F & A & _); try assumption.
  - apply fnn_0.
  - unfold approx. lra.
  - left. reflexivity.
  - lia.
  - rewrite length_map. unfold n. lia.
  - rewrite Hs. lra.
  - rewrite Hs, Rplus_0_l, length_map in A. fold n in A.
    replace (7 + 2 * n + n)%nat with (7 + 3 * n)%nat in A by lia.
    pose proof (fnn_nonneg _ _ F) as PT.
    destruct (approx_range (7 + 3 * n) vT 1 ltac:(unfold n; lia) PT ltac:(lra) A)
      as [T1 T2].
    assert (FT : fpos (JS.reduce_from sumStep 0 (map (fun val => (val / mag)%float) features)
                         0%float) vT) by (apply fnn_pos; [exact F | lra]).
    pose proof bpow_range_1 as [B1 B2].
    destruct (sqrt_fpos _ vT FT) as (r & Fr & R); [split; lra|].
    exists r. split; [exact Fr|].
    replace (8 + 3 * n)%nat with (Datatypes.S (7 + 3 * n)) by lia.
    apply (approx_round (7 + 3 * n) (R_sqrt.sqrt vT)); [apply sqrt_pos | lra | | exact R].
    pose proof (approx_sqrt (7 + 3 * n) vT 1 PT ltac:(lra) A) as Q.
    rewrite sqrt_1 in Q. exact Q.
Qed.

End Normalization.

(** ** The features before the normalization *)

(** ** The features before the normalization *)

Lemma L_pos : 0 < leastAddend.
Proof. apply bpow_pos. Qed.

Lemma L_le_1 : leastAddend <= 1.
Proof.
  unfold leastAddend. apply Rle_trans with (bpow 0); [apply bpow_le; lia|]. unfold bpow. simpl. lra.
Qed.

Lemma few_INR (k : nat) : few k -> 0 <= INR k /\ INR k * u <= / 2.
Proof.
  unfold few. intros H. split; [apply pos_INR|].
  rewrite INR_IZR_INZ. apply IZR_le in H.
  assert (U : u * IZR (2 ^ 52) = 1).
  { unfold u. apply Rinv_l. apply not_0_IZR. discriminate. }
  assert (IZR (2 ^ 50 + 8) * 2 <= IZR (2 ^ 52)).
  { rewrite <- mult_IZR. apply IZR_le. vm_compute. discriminate. }
  pose proof u_pos.
  assert (IZR (Z.of_nat k) * u * IZR (2 ^ 52) <= / 2 * IZR (2 ^ 52)); [|nra].
  replace (IZR (Z.of_nat k) * u * IZR (2 ^ 52)) with (IZR (Z.of_nat k)) by nra.
  nra.
Qed.

Lemma bound_weaken (k : nat) (v : R) : few (S k) -> bound k v -> bound (S k) v.
Proof.
  intros F [-> | [B1 B2]]; [left; reflexivity|]. right.
  destruct (few_INR _ F) as [P Q]. rewrite S_INR in *.
  pose proof (pos_INR k). pose proof u_pos. pose proof L_pos. split; nra.
Qed.

Lemma inv_weaken (k : nat) (emb : list float) :
  few (S k) -> (1 <= k)%nat -> inv k emb -> inv (S k) emb.
Proof.
  intros F K (vs & H1 & H2 & H3). exists vs. split; [exact H1|]. split.
  - eapply Forall_impl; [|exact H2]. intros v. apply bound_weaken. exact F.
  - intros _. apply H3. exact K.
Qed.

Lemma bpow_1000_big : bpow (-1000) <= leastAddend / 2 /\ 4 * IZR (2 ^ 54) <= bpow 1000.
Proof.
  split.
  - unfold leastAddend. replace (bpow (-51) / 2) with (bpow (-52)).
    + apply bpow_le. lia.
    + replace (-52)%Z with (-51 + -1)%Z by lia. rewrite bpow_add.
      unfold bpow at 2. simpl. lra.
  - rewrite <- (bpow_IZR 54) by lia. change 4 with (IZR (2 ^ 2)).
    rewrite <- (bpow_IZR 2) by lia. rewrite <- bpow_add. apply bpow_le. lia.
Qed.

Lemma bound_range (k : nat) (v : R) :
  few k -> bound k v -> v = 0 \/ leastAddend / 2 <= v <= IZR (2 ^ 53).
Proof.
  intros F [-> | [B1 B2]]; [left; reflexivity|]. right.
  destruct (few_INR _ F) as [P Q]. pose proof L_pos. pose proof u_pos.
  split; [nra|].
  assert (INR k <= IZR (2 ^ 50 + 8)) by (rewrite INR_IZR_INZ; apply IZR_le; exact F).
  assert (IZR (2 ^ 50 + 8) * 4 <= IZR (2 ^ 53)).
  { rewrite <- mult_IZR. apply IZR_le. vm_compute. discriminate. }
  nra.
Qed.

Lemma low_step (leastAddend k u v vt r : R) :
  0 < leastAddend -> 0 <= k -> 0 < u -> (k + 1) * u <= / 2 ->
  leastAddend * (1 - k * u) <= v -> 0 <= vt -> (v + vt) * (1 - u) <= r ->
  leastAddend * (1 - (k + 1) * u) <= r.
Proof.
  intros HL Hk Hu Hs Hv Hvt Hr.
  assert (U1 : u <= / 2) by nra.
  assert (A : v * (1 - u) <= r).
  { assert (0 <= vt * (1 - u)) by (apply Rmult_le_pos; lra). lra. }
  assert (B : leastAddend * (1 - k * u) * (1 - u) <= v * (1 - u)).
  { apply Rmult_le_compat_r; lra. }
  assert (C : leastAddend * (1 - (k + 1) * u) <= leastAddend * (1 - k * u) * (1 - u)).
  { assert (0 <= leastAddend * (k * (u * u))).
    { apply Rmult_le_pos; [lra|]. apply Rmult_le_pos; [lra|]. nra. }
    replace (leastAddend * (1 - k * u) * (1 - u))
      with (leastAddend * (1 - (k + 1) * u) + leastAddend * (k * (u * u))) by ring.
    lra. }
  lra.
Qed.

Lemma up_step (k u v vt r : R) :
  0 <= k -> 0 < u -> (k + 1) * u <= / 2 ->
  0 <= v -> v <= 2 * k * (1 + 2 * k * u) -> 0 <= vt <= 2 -> r <= (v + vt) * (1 + u) ->
  r <= 2 * (k + 1) * (1 + 2 * (k + 1) * u).
Proof.
  intros Hk Hu Hs Hv0 Hv Hvt Hr.
  assert (A : (v + vt) * (1 + u) <= (2 * k * (1 + 2 * k * u) + 2) * (1 + u)).
  { apply Rmult_le_compat_r; lra. }
  assert (Ku : k * u <= / 2) by nra.
  assert (K2 : 2 * (k * k * u) <= k).
  { replace (2 * (k * k * u)) with (k * (2 * (k * u))) by ring.
    apply Rle_trans with (k * 1); [apply Rmult_le_compat_l; lra | lra]. }
  assert (D : 0 <= 2 * u * (3 * k + 1 - 2 * (k * k * u))).
  { apply Rmult_le_pos; lra. }
  replace (2 * (k + 1) * (1 + 2 * (k + 1) * u))
    with ((2 * k * (1 + 2 * k * u) + 2) * (1 + u)
          + 2 * u * (3 * k + 1 - 2 * (k * k * u))) by ring.
  lra.
Qed.

(** One addition to a component. *)
Lemma add_component (k : nat) (c t : float) (v : R) :
  few (S k) -> fnn c v -> bound k v -> addend t ->
  exists r, fpos (c + t) r /\ bound (S k) r.
Proof.
  intros F Hc Hb (vt & Ft & T1 & T2).
  assert (Fk : few k) by (unfold few in *; lia).
  destruct (few_INR _ F) as [P Q]. rewrite S_INR in P, Q.
  pose proof (pos_INR k) as Pk. pose proof u_pos as Pu. pose proof L_pos as PL.
  pose proof u_small as Us.
  destruct (bound_range k v Fk Hb) as [-> | [V1 V2]].
  - exists vt. split; [apply add_zero_l; [apply fnn_zero; exact Hc | exact Ft]|].
    right. rewrite S_INR. split.
    + apply Rle_trans with leastAddend; [|lra].
      assert (0 <= leastAddend * ((INR k + 1) * u)) by (apply Rmult_le_pos; nra). lra.
    + apply Rle_trans with (2 * (INR k + 1) * 1); [lra|].
      apply Rmult_le_compat_l; [lra|].
      assert (0 <= 2 * (INR k + 1) * u) by (apply Rmult_le_pos; lra). lra.
  - destruct Hb as [-> | [B1 B2]]; [lra|].
    assert (Fc : fpos c v) by (apply fnn_pos; [exact Hc | lra]).
    pose proof bpow_1000_big as [G1 G2].
    assert (IZR (2 ^ 54) = 2 * IZR (2 ^ 53)).
    { rewrite <- mult_IZR. reflexivity. }
    assert (1 <= IZR (2 ^ 53)) by (apply IZR_le; vm_compute; discriminate).
    destruct (add_fpos c t v vt Fc Ft) as (r & Fr & R1 & R2); [split; lra|].
    exists r. split; [exact Fr|]. right. rewrite S_INR. split.
    + apply (low_step leastAddend (INR k) u v vt r); try lra.
    + apply (up_step (INR k) u v vt r); try lra.
Qed.

Lemma inv_addAt (k h : nat) (t : float) (emb : list float) :
  few (S k) -> (h < List.length emb)%nat -> addend t -> inv k emb ->
  inv (S k) (JS.addAt h t emb).
Proof.
  intros F Hh Ht (vs & H1 & H2 & _).
  assert (G : exists ws, Forall2 fnn (JS.addAt h t emb) ws /\ Forall (bound (S k)) ws
                         /\ Exists (fun v => 0 < v) ws).
  { clear - F Hh Ht H1 H2. revert h Hh.
    induction H1 as [|c v emb vs Hc H1 IH]; intros h Hh; [simpl in Hh; lia|].
    inversion H2 as [|? ? Hb H2']; subst.
    destruct h as [|h]; cbn [JS.addAt].
    - destruct (add_component k c t v F Hc Hb Ht) as (r & Fr & Br).
      exists (r :: vs). split; [constructor; [right; exact Fr | exact H1]|]. split.
      + constructor; [exact Br|]. eapply Forall_impl; [|exact H2'].
        intros w. apply bound_weaken. exact F.
      + left. apply (fpos_pos _ _ Fr).
    - destruct (IH H2' h ltac:(simpl in Hh; lia)) as (ws & W1 & W2 & W3).
      exists (v :: ws). split; [constructor; assumption|]. split.
      + constructor; [apply bound_weaken; assumption | exact W2].
      + right. exact W3. }
  destruct G as (ws & W1 & W2 & W3). exists ws. auto.
Qed.

(** The numbers that the loop over the words adds. *)
Lemma fpos_1 : fpos 1%float 1.
Proof.
  exists 4503599627370496%positive, (-52)%Z. split; [reflexivity|].
  split; [split; [apply Z.leb_le | apply Z.ltb_lt]; reflexivity|].
  assert (B : bpow (-52) = / IZR (2 ^ 52))
    by (rewrite <- (bpow_IZR 52) by lia; apply (bpow_opp 52)).
  rewrite B. change (Z.pos 4503599627370496) with (2 ^ 52)%Z.
  field. apply not_0_IZR. discriminate.
Qed.

Lemma addend_word (index : nat) :
  (Z.of_nat index < 2 ^ 50)%Z -> addend (1 / JS.ofNat (index + 1)).
Proof.
  intros H. unfold JS.ofNat.
  set (j := Z.of_nat (index + 1)).
  assert (Hj : (1 <= j <= 2 ^ 50)%Z) by (unfold j; lia).
  destruct (ofZ_fpos j ltac:(lia)) as (r & Fr & R1 & R2).
  pose proof u_pos as Pu. pose proof u_small as Us.
  assert (J1 : 1 <= IZR j) by (apply IZR_le; lia).
  assert (J2 : IZR j <= IZR (2 ^ 50)) by (apply IZR_le; lia).
  assert (Pr : 0 < r) by (apply (fpos_pos _ _ Fr)).
  assert (B50 : bpow 50 = IZR (2 ^ 50)) by (apply bpow_IZR; lia).
  assert (Lv : leastAddend * (2 * IZR (2 ^ 50)) = 1).
  { unfold leastAddend. rewrite <- B50.
    assert (B1 : bpow 1 = 2) by (unfold bpow; simpl; lra).
    rewrite <- B1, <- !bpow_add. reflexivity. }
  assert (P50 : 0 < IZR (2 ^ 50)) by (apply IZR_lt; reflexivity).
  pose proof bpow_range_1 as [G1 G2].
  assert (Q1 : / (IZR j * (1 + u)) <= 1 / r).
  { apply Rmult_le_reg_r with (IZR j * (1 + u) * r); [nra|].
    replace (/ (IZR j * (1 + u)) * (IZR j * (1 + u) * r)) with r by (field; lra).
    replace (1 / r * (IZR j * (1 + u) * r)) with (IZR j * (1 + u)) by (field; lra).
    lra. }
  assert (Q2 : 1 / r <= 3 / 2).
  { apply Rmult_le_reg_r with r; [lra|].
    replace (1 / r * r) with 1 by (field; lra). nra. }
  assert (LJ : leastAddend * IZR j <= / 2).
  { apply Rle_trans with (leastAddend * IZR (2 ^ 50)); [apply Rmult_le_compat_l; [apply Rlt_le, L_pos | lra]|].
    lra. }
  pose proof L_pos as PL.
  assert (Q3 : leastAddend <= / (IZR j * (1 + u)) * (1 - u)).
  { apply Rmult_le_reg_r with (IZR j * (1 + u)); [nra|].
    replace (/ (IZR j * (1 + u)) * (1 - u) * (IZR j * (1 + u))) with (1 - u)
      by (field; lra).
    replace (leastAddend * (IZR j * (1 + u))) with (leastAddend * IZR j * (1 + u)) by ring.
    apply Rle_trans with (/ 2 * (1 + u)); [apply Rmult_le_compat_r; lra | lra]. }
  assert (Q4 : leastAddend <= 1 / r).
  { eapply Rle_trans; [exact Q3|].
    apply Rle_trans with (/ (IZR j * (1 + u)) * 1); [|lra].
    apply Rmult_le_compat_l; [|lra].
    apply Rlt_le, Rinv_0_lt_compat. nra. }
  pose proof bpow_1000_big as [G3 G4].
  destruct (div_fpos 1 (JS.ofZ j) 1 r fpos_1 Fr) as (t & Ft & T1 & T2).
  { split; lra. }
  exists t. split; [exact Ft|]. split.
  - eapply Rle_trans; [exact Q3|]. eapply Rle_trans; [|exact T1].
    apply Rmult_le_compat_r; lra.
  - eapply Rle_trans; [exact T2|]. nra.
Qed.

Lemma addend_2 : addend 2.0%float.
Proof.
  exists 2. split; [|pose proof L_le_1; lra].
  exists 4503599627370496%positive, (-51)%Z. split; [reflexivity|].
  split; [split; [apply Z.leb_le | apply Z.ltb_lt]; reflexivity|].
  assert (B : bpow (-51) = / IZR (2 ^ 51))
    by (rewrite <- (bpow_IZR 51) by lia; apply (bpow_opp 51)).
  rewrite B. change (Z.pos 4503599627370496) with (2 * 2 ^ 51)%Z. rewrite mult_IZR.
  field. apply not_0_IZR. discriminate.
Qed.

Lemma addend_1_5 : addend 1.5%float.
Proof.
  exists (3 / 2). split; [|pose proof L_le_1; pose proof L_pos; lra].
  exists 6755399441055744%positive, (-52)%Z. split; [reflexivity|].
  split; [split; [apply Z.leb_le | apply Z.ltb_lt]; reflexivity|].
  assert (B : bpow (-52) = / IZR (2 ^ 52))
    by (rewrite <- (bpow_IZR 52) by lia; apply (bpow_opp 52)).
  rewrite B. change (Z.pos 6755399441055744) with (3 * 2 ^ 51)%Z.
  replace (2 ^ 52)%Z with (2 * 2 ^ 51)%Z by reflexivity. rewrite !mult_IZR.
  field. apply not_0_IZR. discriminate.
Qed.

Lemma generateSingleEmbedding_features (text : string) :
  DemoVectorService.generateSingleEmbedding text
  = let magnitude := PrimFloat.sqrt (JS.reduce sumStep (featuresOf text) 0%float) in
    map (fun val => if (0 <? magnitude)%float then (val / magnitude)%float else 0%float)
        (featuresOf text).
Proof. reflexivity. Qed.

Lemma inv_words (words : list string) :
  forall (i : nat) (emb : list float) (k : nat),
    inv k emb -> List.length emb = 384%nat ->
    (Z.of_nat (i + List.length words) <= 2 ^ 50)%Z ->
    few (k + List.length words) ->
    inv (k + List.length words) (JS.reduce_from wordStep i words emb)
    /\ List.length (JS.reduce_from wordStep i words emb) = 384%nat.
Proof.
  induction words as [|w words IH]; intros i emb k Hi Hl Hn Hk.
  - simpl. rewrite Nat.add_0_r. auto.
  - cbn [JS.reduce_from List.length] in *.
    replace (k + S (List.length words))%nat with (S k + List.length words)%nat in * by lia.
    apply IH.
    + unfold wordStep. apply inv_addAt.
      * unfold few in *. lia.
      * rewrite Hl. apply Nat2Z.inj_lt. rewrite Z2Nat.id.
        -- apply Z.mod_pos_bound. lia.
        -- apply Z.mod_pos_bound. lia.
      * apply addend_word. lia.
      * exact Hi.
    + unfold wordStep. rewrite EmbeddingFacts.addAt_length. exact Hl.
    + lia.
    + exact Hk.
Qed.

Lemma inv_boost (text w1 w2 : string) (dim : nat) (v : float) (emb : list float) (k : nat) :
  few (S k) -> (1 <= k)%nat -> (dim < 384)%nat -> addend v ->
  inv k emb /\ List.length emb = 384%nat ->
  inv (S k) (DemoVectorService.boost text w1 w2 dim v emb)
  /\ List.length (DemoVectorService.boost text w1 w2 dim v emb) = 384%nat.
Proof.
  intros F K D A [Hi Hl]. split; [|rewrite EmbeddingFacts.boost_length; exact Hl].
  unfold DemoVectorService.boost.
  destruct (JS.includes text w1 || JS.includes text w2).
  - apply inv_addAt; try assumption. lia.
  - apply inv_weaken; assumption.
Qed.

Lemma toLowerCase_length (s : string) :
  String.length (JS.toLowerCase s) = String.length s.
Proof. induction s as [|c s IH]; simpl; [reflexivity | rewrite IH; reflexivity]. Qed.

Lemma split_ws_length (s : string) :
  (1 <= List.length (JS.split_ws s) <= String.length s + 1)%nat.
Proof.
  induction s as [|c s IH]; [simpl; lia|].
  cbn [JS.split_ws String.length].
  destruct (JS.isSpace c).
  - destruct s as [|c' s']; [simpl; lia|].
    destruct (JS.isSpace c'); cbn [List.length] in *; lia.
  - destruct (JS.split_ws s) as [|w ws]; cbn [List.length] in *; lia.
Qed.

(** The features of a text are [+0] or positive numbers between [2^-52] and
    [2^53], and one of them is positive. *)
Lemma features_range (text : string) :
  (Z.of_nat (String.length text) < 2 ^ 50)%Z ->
  exists vs,
    Forall2 fnn (featuresOf text) vs
    /\ Forall (fun v => v = 0 \/ leastAddend / 2 <= v <= IZR (2 ^ 53)) vs
    /\ Exists (fun v => 0 < v) vs
    /\ List.length (featuresOf text) = 384%nat.
Proof.
  intros Hlen. unfold featuresOf.
  set (words := JS.split_ws (JS.toLowerCase text)).
  pose proof (split_ws_length (JS.toLowerCase text)) as [W1 W2].
  rewrite toLowerCase_length in W2. fold words in W1, W2.
  set (W := List.length words) in *.
  assert (I0 : inv 0 (repeat 0%float 384)).
  { exists (repeat 0 384). split; [|split].
    - generalize 384%nat. intros n. induction n; simpl; constructor; auto using fnn_0.
    - generalize 384%nat. intros n. induction n; simpl; constructor; auto.
      left. reflexivity.
    - intros H. lia. }
  destruct (inv_words words 0 (repeat 0%float 384) 0 I0 (repeat_length _ _))
    as [I1 L1]; [fold W; lia | unfold few; fold W; lia |].
  cbn [Nat.add] in I1. fold W in I1. fold (JS.reduce wordStep words (repeat 0%float 384)) in *.
  assert (F8 : forall k, (k <= W + 8)%nat -> few k) by (intros k Hk; unfold few; lia).
  pose proof (conj I1 L1) as B0.
  apply (inv_boost text "Nathan" "nathan" 100 2.0%float _ W) in B0;
    [|apply F8; lia | lia | lia | exact addend_2].
  apply (inv_boost text "Robert" "robert" 101 2.0%float _ (S W)) in B0;
    [|apply F8; lia | lia | lia | exact addend_2].
  apply (inv_boost text "stress" "financial" 200 1.5%float _ (S (S W))) in B0;
    [|apply F8; lia | lia | lia | exact addend_1_5].
  apply (inv_boost text "work" "employment" 201 1.5%float _ (S (S (S W)))) in B0;
    [|apply F8; lia | lia | lia | exact addend_1_5].
  apply (inv_boost text "sobriety" "meetings" 202 1.5%float _ (S (S (S (S W))))) in B0;
    [|apply F8; lia | lia | lia | exact addend_1_5].
  apply (inv_boost text "policy" "procedure" 300 1.5%float _ (S (S (S (S (S W)))))) in B0;
    [|apply F8; lia | lia | lia | exact addend_1_5].
  apply (inv_boost text "grievance" "appeal" 301 1.5%float _
           (S (S (S (S (S (S W))))))) in B0;
    [|apply F8; lia | lia | lia | exact addend_1_5].
  apply (inv_boost text "programming" "treatment" 302 1.5%float _
           (S (S (S (S (S (S (S W)))))))) in B0;
    [|apply F8; lia | lia | lia | exact addend_1_5].
  destruct B0 as [(vs & V1 & V2 & V3) B2].
  exists vs. split; [exact V1|]. split; [|split; [apply V3; lia | exact B2]].
  eapply Forall_impl; [|exact V2]. intros v. apply bound_range. apply F8. lia.
Qed.

Lemma bpow_mul a b : bpow a * bpow b = bpow (a + b).
Proof. symmetry. apply bpow_add. Qed.

Lemma bpow_div a b : bpow a / bpow b = bpow (a - b).
Proof.
  unfold Rdiv. rewrite <- bpow_opp, bpow_mul. f_equal.
Qed.

Lemma bpow_num (k : Z) : (0 <= k)%Z -> bpow k = IZR (2 ^ k).
Proof. apply bpow_IZR. Qed.

(** The ranges of the features fit the analysis of the normalization. *)
Lemma feature_ranges :
  let lo := bpow (-52) in
  let hi := bpow 53 in
  0 < lo /\ lo <= hi
  /\ bpow (-1000) <= (lo / (40 * hi)) * (lo / (40 * hi)) / 8
  /\ 1600 * ((hi / lo) * (hi / lo)) <= bpow 1000
  /\ 1600 * (hi * hi) <= bpow 1000
  /\ bpow (-1000) <= lo * lo / 8.
Proof.
  intros lo hi.
  assert (P1 : 0 < lo) by apply bpow_pos.
  assert (P2 : 0 < hi) by apply bpow_pos.
  assert (C40 : 40 <= bpow 6) by (rewrite (bpow_num 6) by lia; simpl; lra).
  assert (C1600 : 1600 <= bpow 11) by (rewrite (bpow_num 11) by lia; simpl; lra).
  assert (E8 : bpow 3 = 8) by (rewrite (bpow_num 3) by lia; simpl; lra).
  assert (Q : bpow (-111) <= lo / (40 * hi)).
  { apply Rmult_le_reg_r with (40 * hi); [lra|].
    replace (lo / (40 * hi) * (40 * hi)) with lo by (field; lra).
    apply Rle_trans with (bpow (-111) * (bpow 6 * hi)).
    - apply Rmult_le_compat_l; [apply Rlt_le, bpow_pos|].
      apply Rmult_le_compat_r; lra.
    - unfold hi, lo. rewrite !bpow_mul. apply bpow_le. lia. }
  assert (HL : hi / lo = bpow 105) by (unfold hi, lo; rewrite bpow_div; reflexivity).
  pose proof (bpow_pos (-111)) as P111.
  repeat split.
  - exact P1.
  - unfold lo, hi. apply bpow_le. lia.
  - apply Rle_trans with (bpow (-111) * bpow (-111) / bpow 3).
    + rewrite bpow_mul, bpow_div. apply bpow_le. lia.
    + rewrite E8. apply Rmult_le_compat_r; [lra|]. apply Rmult_le_compat; lra.
  - rewrite HL, bpow_mul. apply Rle_trans with (bpow 11 * bpow (105 + 105)).
    + apply Rmult_le_compat_r; [apply Rlt_le, bpow_pos | exact C1600].
    + rewrite bpow_mul. apply bpow_le. lia.
  - unfold hi. rewrite bpow_mul. apply Rle_trans with (bpow 11 * bpow (53 + 53)).
    + apply Rmult_le_compat_r; [apply Rlt_le, bpow_pos | exact C1600].
    + rewrite bpow_mul. apply bpow_le. lia.
  - unfold lo. rewrite <- E8, bpow_mul, bpow_div. apply bpow_le. lia.
Qed.

(** After [k] roundings, with [k] at most 2048, a value that approximates 1
    is within [2^-41] of it. *)
Lemma approx_one (k : nat) (r : R) :
  (k <= 1200)%nat -> 0 <= r -> approx k r 1 -> Rabs (r - 1) <= bpow (-41).
Proof.
  intros Hk Hr [A1 A2].
  pose proof (apow_bernoulli k) as B. pose proof (apow_bounds k) as [P1 P2].
  pose proof u_pos as Pu.
  assert (K : INR k <= 1200).
  { apply le_INR in Hk. rewrite (INR_IZR_INZ 1200) in Hk. simpl in Hk. exact Hk. }
  assert (E : bpow (-41) = 2048 * u).
  { unfold u. rewrite <- (bpow_IZR 52), <- bpow_opp by lia.
    replace 2048 with (bpow 11) by (rewrite (bpow_num 11) by lia; simpl; lra).
    rewrite bpow_mul. reflexivity. }
  rewrite E. pose proof u_small as Us.
  assert (Q : 1 - 1200 * u <= (1 - u) ^ k) by nra.
  apply Rabs_le. split; [nra|].
  assert (r * (1 - 1200 * u) <= 1) by nra.
  nra.
Qed.

Lemma sumStep_eq (l : list float) :
  JS.reduce (fun sum val (_ : nat) => (sum + val * val)%float) l 0%float
  = JS.reduce sumStep l 0%float.
Proof. reflexivity. Qed.

(** The norm of every embedding is within [2^-41] of 1. *)
Theorem embedding_norm_close_to_one (text : string) :
  (Z.of_nat (String.length text) < 2 ^ 50)%Z ->
  exists r,
    fpos (norm (DemoVectorService.generateSingleEmbedding text)) r
    /\ Rabs (r - 1) <= bpow (-41).
Proof.
  intros Hlen.
  destruct (features_range text Hlen) as (vs & V1 & V2 & V3 & V4).
  destruct feature_ranges as (R1 & R2 & R3 & R4 & R5 & R6).
  assert (V2' : Forall (fun v => v = 0 \/ bpow (-52) <= v <= bpow 53) vs).
  { eapply Forall_impl; [|exact V2]. intros v [->|[H1 H2]]; [left; reflexivity|right].
    rewrite (bpow_num 53) by lia. split; [|exact H2].
    eapply Rle_trans; [|exact H1]. unfold leastAddend.
    replace (bpow (-51) / 2) with (bpow (-51) / bpow 1)
      by (f_equal; unfold bpow; simpl; lra).
    rewrite bpow_div. apply bpow_le. lia. }
  assert (N : (List.length (featuresOf text) <= 400)%nat) by (rewrite V4; lia).
  destruct (magnitude_value (bpow (-52)) (bpow 53) R1 R2 R4 R5 R6
              (featuresOf text) vs V1 V2' V3 N)
    as (vm & Fm & _).
  destruct (norm_of_normalized (bpow (-52)) (bpow 53) R1 R2 R3 R4 R5 R6
              (featuresOf text) vs V1 V2' V3 N) as (r & Fr & Ar).
  exists r. split.
  - rewrite generateSingleEmbedding_features. cbv zeta.
    rewrite (fpos_ltb _ _ Fm). unfold norm. rewrite sumStep_eq. exact Fr.
  - apply (approx_one (8 + 3 * List.length (featuresOf text))); [rewrite V4; lia| |exact Ar].
    apply Rlt_le, (fpos_pos _ _ Fr).
Qed.

Lemma fpos_real (x : float) (r : R) :
  fpos x r -> isFinite x = true /\ realValue x = r.
Proof.
  intros (m & e & E & _ & ->). unfold isFinite, realValue. rewrite E. auto.
Qed.

(** The embedding of a text is normalized, up to rounding. *)
Lemma embedding_normalized (text : string) :
  (Z.of_nat (String.length text) < 2 ^ 50)%Z ->
  normalized (DemoVectorService.generateSingleEmbedding text).
Proof.
  intros Hlen.
  destruct (embedding_norm_close_to_one text Hlen) as (r & F & B).
  destruct (fpos_real _ _ F) as [F1 F2].
  destruct (features_range text Hlen) as (vs & V1 & V2 & V3 & V4).
  destruct feature_ranges as (R1 & R2 & R3 & R4 & R5 & R6).
  assert (V2' : Forall (fun v => v = 0 \/ bpow (-52) <= v <= bpow 53) vs).
  { eapply Forall_impl; [|exact V2]. intros v [->|[H1 H2]]; [left; reflexivity|right].
    rewrite (bpow_num 53) by lia. split; [|exact H2].
    eapply Rle_trans; [|exact H1]. unfold leastAddend.
    replace (bpow (-51) / 2) with (bpow (-51) / bpow 1)
      by (f_equal; unfold bpow; simpl; lra).
    rewrite bpow_div. apply bpow_le. lia. }
  assert (N : (List.length (featuresOf text) <= 400)%nat) by (rewrite V4; lia).
  destruct (magnitude_value (bpow (-52)) (bpow 53) R1 R2 R4 R5 R6
              (featuresOf text) vs V1 V2' V3 N) as (vm & Fm & _).
  destruct (normalized_components (bpow (-52)) (bpow 53) R1 R2 R3 R4 R5 R6
              (featuresOf text) vs V1 V2' V3 N) as (ws & W1 & _).
  pose proof (exact_norm_of_normalized (bpow (-52)) (bpow 53) R1 R2 R3 R4 R5 R6
                (featuresOf text) vs V1 V2' V3 N) as E.
  rewrite generateSingleEmbedding_features in *. cbv zeta in *.
  rewrite (fpos_ltb _ _ Fm) in *.
  split; [exact (proj1 (fnn_values _ _ W1))|]. split.
  - unfold nearOne. rewrite F1, F2. auto.
  - apply (approx_one (6 + 2 * List.length (featuresOf text))); [rewrite V4; lia| |exact E].
    unfold exactNorm. apply sqrt_pos.
Qed.

(** The norm of a vector of zeros. *)
Lemma norm_zeros (n : nat) : norm (repeat 0%float n) = 0%float.
Proof.
  unfold norm, JS.reduce. generalize 0%nat.
  induction n as [|n IH]; intros i; [reflexivity|].
  cbn [repeat JS.reduce_from].
  change (0 + 0 * 0)%float with 0%float. apply IH.
Qed.

End RoundingFacts.

Local Open Scope float_scope.

(** C8.  The vector of the deterministic local embedding has norm 1 up to
    rounding: for every text of fewer than [2^50] code units its components
    are finite numbers, and its norm is within [2^-41] of 1, both as the
    services compute it on binary64 numbers and as the exact Euclidean norm
    of the components (it is not always 1: see the counterexample).  For
    such texts the features are never all zero (the first word adds 1 to
    its component);
    whenever the magnitude is not positive the code returns the vector of
    zeros, of norm 0. *)
Theorem C8_embedding_norm_within_rounding :
  (forall text : string,
     (Z.of_nat (String.length text) < 2 ^ 50)%Z ->
     Rounding.normalized (DemoVectorService.generateSingleEmbedding text))
  /\ (forall (features : list float) (magnitude : float),
        (0 <? magnitude) = false ->
        map (fun val => if 0 <? magnitude then val / magnitude else 0) features
        = repeat 0 (List.length features)
        /\ norm (repeat 0 (List.length features)) = 0).
Proof.
  split.
  - exact RoundingFacts.embedding_normalized.
  - intros features magnitude H. split.
    + apply zero_magnitude_all_zeros. exact H.
    + apply RoundingFacts.norm_zeros.
Qed.

Lemma C8_norm_witness :
  (Z.of_nat (String.length "Nathan") < 2 ^ 50)%Z
  /\ Rounding.normalized (DemoVectorService.generateSingleEmbedding "Nathan").
Proof.
  split; [reflexivity|].
  exact (proj1 C8_embedding_norm_within_rounding "Nathan" eq_refl).
Defined.

(** The norm is not 1 for every text with a feature that is not zero: for
    "Nathan" it is one unit in the last place below 1. *)
Lemma C8_norm_not_one_counterexample :
  norm (DemoVectorService.generateSingleEmbedding "Nathan") = 0x1.fffffffffffffp-1
  /\ (norm (DemoVectorService.generateSingleEmbedding "Nathan") =? 1) = false
  /\ existsb (fun val => 0 <? val) (DemoVectorService.generateSingleEmbedding "Nathan")
     = true.
Proof. repeat split; vm_compute; reflexivity. Qed.

Local Open Scope nat_scope.
